(** * ESP32-P4 OV5647 camera: capture sessions, the camera lock and the
      JPEG encoder adapter

    A shallow embedding of [main/camera_server.c] and
    [main/face_detect_task.cpp].  The C code talks to FreeRTOS, to the V4L2
    capture device, to the hardware JPEG encoder and to the HTTP server; all of
    these are external.  Their answers are taken from an [environment]: a
    record of oracles indexed by a logical clock that advances by one at every
    external call, so that any sequence of answers can be described.  Every
    external call is also appended to a log of [event]s, newest last.

    Logging macros ([ESP_LOGx]) have no effect on the program and are left
    out. *)

From stdpp Require Import base list strings numbers.
From Stdlib Require Import ZArith Lia DecimalString.
From Stdlib Require DecimalN.
Open Scope Z_scope.

(** ** ESP-IDF and FreeRTOS constants *)

Definition esp_err_t := Z.
Definition ESP_OK : esp_err_t := 0.
Definition ESP_FAIL : esp_err_t := -1.
Definition ESP_ERR_NO_MEM : esp_err_t := 0x101.
Definition ESP_ERR_INVALID_ARG : esp_err_t := 0x102.
Definition ESP_ERR_INVALID_STATE : esp_err_t := 0x103.
Definition ESP_ERR_NOT_SUPPORTED : esp_err_t := 0x106.

Definition pdTRUE : Z := 1.
Definition pdFALSE : Z := 0.
Definition pdPASS : Z := 1.

Definition EINTR : Z := 4.
Definition NULL : Z := 0.
(** [MAP_FAILED] is [(void * ) -1]. *)
Definition MAP_FAILED : Z := -1.
Definition HTTPD_500_INTERNAL_SERVER_ERROR : Z := 500.

(** [size_t] and [uint32_t] are 32 bits wide on the ESP32-P4. *)
Definition wrap32 (x : Z) : Z := x mod 2 ^ 32.

(** ** V4L2 data *)

Module V4L2.

Definition v4l2_fourcc (a b c d : Z) : Z :=
  Z.lor (Z.lor a (Z.shiftl b 8)) (Z.lor (Z.shiftl c 16) (Z.shiftl d 24)).

(** 'R' 'G' 'B' 'P', 'R' 'G' 'B' '3', '4' '2' '2' 'P', 'G' 'R' 'E' 'Y',
    'J' 'P' 'E' 'G' *)
Definition V4L2_PIX_FMT_RGB565 : Z := v4l2_fourcc 82 71 66 80.
Definition V4L2_PIX_FMT_RGB24 : Z := v4l2_fourcc 82 71 66 51.
Definition V4L2_PIX_FMT_YUV422P : Z := v4l2_fourcc 52 50 50 80.
Definition V4L2_PIX_FMT_GREY : Z := v4l2_fourcc 71 82 69 89.
Definition V4L2_PIX_FMT_JPEG : Z := v4l2_fourcc 74 80 69 71.

Definition V4L2_BUF_TYPE_VIDEO_CAPTURE : Z := 1.
Definition V4L2_MEMORY_MMAP : Z := 1.
Definition V4L2_FIELD_NONE : Z := 1.
Definition V4L2_BUF_FLAG_DONE : Z := 0x4.

(** [struct v4l2_format], with the members of [fmt.pix] the code uses. *)
Record v4l2_format := {
  type : Z;
  width : Z;
  height : Z;
  pixelformat : Z;
  field : Z
}.

Record v4l2_requestbuffers := {
  count : nat;
  req_type : Z;
  req_memory : Z
}.

(** [struct v4l2_buffer]; [buf_length] is the member [length], [offset] is
    [m.offset], [tv_sec] and [tv_usec] are the members of [timestamp]. *)
Record v4l2_buffer := {
  index : nat;
  buf_type : Z;
  buf_memory : Z;
  flags : Z;
  bytesused : Z;
  buf_length : Z;
  offset : Z;
  tv_sec : Z;
  tv_usec : Z
}.

(** [memset(&buf, 0, sizeof(buf))] *)
Definition zero_buffer : v4l2_buffer :=
  {| index := 0; buf_type := 0; buf_memory := 0; flags := 0; bytesused := 0;
     buf_length := 0; offset := 0; tv_sec := 0; tv_usec := 0 |}.

Definition zero_format : v4l2_format :=
  {| type := 0; width := 0; height := 0; pixelformat := 0; field := 0 |}.

Inductive ioctl_cmd :=
| VIDIOC_G_FMT | VIDIOC_S_FMT | VIDIOC_REQBUFS | VIDIOC_QUERYBUF
| VIDIOC_QBUF | VIDIOC_DQBUF | VIDIOC_STREAMON | VIDIOC_STREAMOFF.

End V4L2.
Import V4L2.

(** ** Build configuration ([sdkconfig.h], not part of the sources) *)

Record sdkconfig := {
  configTICK_RATE_HZ : Z;
  CONFIG_FACE_DET_ISP_WIDTH : Z;
  CONFIG_FACE_DET_ISP_HEIGHT : Z;
  CONFIG_APP_ENABLE_FACE_DETECTION : bool;
  CONFIG_FACE_DET_BUFFER_COUNT : nat;
  CONFIG_FACE_DET_MIN_INTERVAL_MS : Z;
  CONFIG_FACE_DET_TASK_STACK_SIZE : Z;
  CONFIG_FACE_DET_TASK_PRIORITY : Z
}.

Definition pdMS_TO_TICKS (cfg : sdkconfig) (ms : Z) : Z :=
  ms * configTICK_RATE_HZ cfg / 1000.

(** ** Events: the external calls a run performs *)

Inductive event :=
| E_xSemaphoreCreateMutex (ok : bool)
| E_xSemaphoreTake (ticks : Z) (granted : bool)
| E_xSemaphoreGive (given : bool)
| E_vSemaphoreDelete
| E_ioctl (fd : Z) (cmd : ioctl_cmd) (rc : Z)
| E_mmap (len off : Z) (addr : Z)
| E_munmap (addr len : Z)
| E_calloc (n : nat) (ok : bool)
| E_free
| E_httpd_resp_set_type (t : string)
| E_httpd_resp_set_hdr (k v : string)
| E_httpd_resp_send_err (status : Z) (msg : string)
| E_httpd_resp_send_chunk (len : Z) (rc : esp_err_t)
| E_httpd_resp_send (len : Z) (rc : esp_err_t)
| E_httpd_start (rc : esp_err_t)
| E_httpd_stop
| E_httpd_register_uri_handler (uri : string)
| E_jpeg_new_encoder_engine (rc : esp_err_t)
| E_jpeg_del_encoder_engine (h : Z)
| E_jpeg_alloc_encoder_mem (size : Z) (buf : Z)
| E_jpeg_encoder_process (rc : esp_err_t)
| E_new_HumanFaceDetect (p : option Z)
| E_detector_run (results : nat)
| E_delete_detector
| E_xTaskCreatePinnedToCore (rc : Z)
| E_xTaskGetTickCount
| E_esp_timer_get_time (us : Z)
| E_vTaskDelayUntil (ticks : Z)
| E_vTaskDelete.

(** ** The environment: what the external world answers at each instant *)

Record environment := {
  (** the mutex cannot be created when the heap is exhausted *)
  env_mutex_created : nat -> bool;
  (** a mutex that is held: does its holder give it before the wait of
      the given number of ticks expires? *)
  env_mutex_handed_over : nat -> Z -> bool;
  env_G_FMT : nat -> Z -> v4l2_format -> Z * v4l2_format;
  env_S_FMT : nat -> Z -> v4l2_format -> Z * v4l2_format;
  env_REQBUFS : nat -> Z -> v4l2_requestbuffers -> Z * v4l2_requestbuffers;
  env_QUERYBUF : nat -> Z -> v4l2_buffer -> Z * v4l2_buffer;
  env_QBUF : nat -> Z -> v4l2_buffer -> Z;
  (** result, [errno] and the buffer written back *)
  env_DQBUF : nat -> Z -> v4l2_buffer -> Z * Z * v4l2_buffer;
  env_STREAMON : nat -> Z -> Z;
  env_STREAMOFF : nat -> Z -> Z;
  env_mmap : nat -> Z -> Z -> Z -> Z;
  env_calloc : nat -> nat -> bool;
  (** result and the engine handle written on success *)
  env_jpeg_new_encoder_engine : nat -> esp_err_t * Z;
  (** the buffer ([NULL] on failure) and the size really allocated *)
  env_jpeg_alloc_encoder_mem : nat -> Z -> Z * Z;
  (** result and the size of the encoded picture *)
  env_jpeg_encoder_process : nat -> Z -> Z -> esp_err_t * Z;
  env_httpd_resp_send_chunk : nat -> Z -> esp_err_t;
  env_httpd_resp_send : nat -> Z -> esp_err_t;
  (** result and the server handle written on success *)
  env_httpd_start : nat -> esp_err_t * Z;
  (** [new HumanFaceDetect()]: the address of the object, which is never
      null; [None] when the allocation fails, and [new] throws
      [std::bad_alloc] *)
  env_new_HumanFaceDetect : nat -> option positive;
  env_detector_run : nat -> Z -> nat;
  env_xTaskCreatePinnedToCore : nat -> Z * Z;
  env_esp_timer_get_time : nat -> Z;
  (** [ctx->should_stop] is written by [face_detect_stop] from another task *)
  env_should_stop : nat -> bool
}.

(** ** Machine state and the state monad the programs run in *)

Record state (G : Type) := mkState {
  clock : nat;
  log : list event;
  globals : G
}.
Arguments mkState {G}.
Arguments clock {G}.
Arguments log {G}.
Arguments globals {G}.

Definition M (G A : Type) : Type := state G -> A * state G.

Definition pure {G A} (a : A) : M G A := fun s => (a, s).

Definition bind {G A B} (m : M G A) (k : A -> M G B) : M G B :=
  fun s => let (a, s') := m s in k a s'.

Declare Scope prog_scope.
Delimit Scope prog_scope with prog.
Notation "x <- m ;; k" := (bind m (fun x => k))
  (at level 20, m at level 99, k at level 200, only parsing) : prog_scope.
Notation "' p <- m ;; k" := (bind m (fun x => match x with p => k end))
  (at level 20, p pattern, m at level 99, k at level 200, only parsing)
  : prog_scope.
Open Scope prog_scope.

Definition get_globals {G} : M G G := fun s => (globals s, s).

Definition put_globals {G} (g : G) : M G unit :=
  fun s => (tt, mkState (clock s) (log s) g).

(** An external call: the answer is read from the environment at the
    current instant, the call is logged, and the clock advances. *)
Definition call {G A} (answer : nat -> A) (ev : A -> event) : M G A :=
  fun s =>
    let a := answer (clock s) in
    (a, mkState (S (clock s)) (log s ++ [ev a]) (globals s)).

(** Reading a variable another task writes. *)
Definition sample {G A} (answer : nat -> A) : M G A :=
  fun s => (answer (clock s), mkState (S (clock s)) (log s) (globals s)).

(** ** External calls shared by both translation units *)

Section Calls.

Context {G : Type}.
Variable env : environment.

(** A C boolean test of an [int] or a pointer. *)
Definition nonzero (x : Z) : bool := negb (x =? 0).

Definition ioctl_G_FMT (fd : Z) (fmt : v4l2_format) : M G (Z * v4l2_format) :=
  call (fun t => env_G_FMT env t fd fmt) (fun r => E_ioctl fd VIDIOC_G_FMT (fst r)).

Definition ioctl_S_FMT (fd : Z) (fmt : v4l2_format) : M G (Z * v4l2_format) :=
  call (fun t => env_S_FMT env t fd fmt) (fun r => E_ioctl fd VIDIOC_S_FMT (fst r)).

Definition ioctl_REQBUFS (fd : Z) (req : v4l2_requestbuffers)
  : M G (Z * v4l2_requestbuffers) :=
  call (fun t => env_REQBUFS env t fd req) (fun r => E_ioctl fd VIDIOC_REQBUFS (fst r)).

Definition ioctl_QUERYBUF (fd : Z) (buf : v4l2_buffer) : M G (Z * v4l2_buffer) :=
  call (fun t => env_QUERYBUF env t fd buf) (fun r => E_ioctl fd VIDIOC_QUERYBUF (fst r)).

Definition ioctl_QBUF (fd : Z) (buf : v4l2_buffer) : M G Z :=
  call (fun t => env_QBUF env t fd buf) (fun r => E_ioctl fd VIDIOC_QBUF r).

Definition ioctl_DQBUF (fd : Z) (buf : v4l2_buffer) : M G (Z * Z * v4l2_buffer) :=
  call (fun t => env_DQBUF env t fd buf)
       (fun r => E_ioctl fd VIDIOC_DQBUF (fst (fst r))).

Definition ioctl_STREAMON (fd : Z) : M G Z :=
  call (fun t => env_STREAMON env t fd) (fun r => E_ioctl fd VIDIOC_STREAMON r).

Definition ioctl_STREAMOFF (fd : Z) : M G Z :=
  call (fun t => env_STREAMOFF env t fd) (fun r => E_ioctl fd VIDIOC_STREAMOFF r).

(** [mmap(NULL, length, PROT_READ | PROT_WRITE, MAP_SHARED, fd, offset)] *)
Definition mmap (length fd offset : Z) : M G Z :=
  call (fun t => env_mmap env t length fd offset) (fun a => E_mmap length offset a).

Definition munmap (addr length : Z) : M G unit :=
  call (fun _ => tt) (fun _ => E_munmap addr length).

Definition effect (e : event) : M G unit :=
  call (fun _ => tt) (fun _ => e).

End Calls.

#[global] Arguments nonzero : simpl never.

(** ** [main/camera_server.c] *)

Module CameraServer.

Definition STREAM_BUFFER_COUNT : nat := 3.
Definition CAMERA_LOCK_TIMEOUT_MS : Z := 10000.
(** [HTTPD_RESP_USE_STRLEN]: the length is that of the string. *)
Definition HTTPD_RESP_USE_STRLEN : Z := -1.
(** [sizeof(part_buf)] in [stream_handler]. *)
Definition PART_BUF_SIZE : Z := 96.

Definition CRLF : string :=
  String (Ascii.ascii_of_nat 13) (String (Ascii.ascii_of_nat 10) EmptyString).
Definition PART_BOUNDARY : string := "123456789000000000000987654321".
Definition STREAM_CONTENT_TYPE : string :=
  "multipart/x-mixed-replace;boundary=" +:+ PART_BOUNDARY.
Definition STREAM_BOUNDARY : string := CRLF +:+ "--" +:+ PART_BOUNDARY +:+ CRLF.
(** [STREAM_PART] with its [%u] filled in. *)
Definition STREAM_PART (n : Z) : string :=
  "Content-Type: image/jpeg" +:+ CRLF +:+ "Content-Length: "
    +:+ NilZero.string_of_uint (N.to_uint (Z.to_N n)) +:+ CRLF +:+ CRLF.
Definition strlen (s : string) : Z := Z.of_nat (String.length s).

(** [len] is the member [length]. *)
Record mapped_buffer_t := {
  addr : Z;
  len : Z
}.

(** A FreeRTOS mutex is a queue of length one that holds one item when
    the mutex is free and none when it is held.  A handle is modelled by
    the state of the mutex it points to; [None] is the [NULL] handle. *)
Inductive mutex_state :=
| mutex_free
| mutex_held.

Definition SemaphoreHandle_t := option mutex_state.

Record camera_stream_state_t := {
  width : Z;
  height : Z;
  pixformat : Z;
  lock : SemaphoreHandle_t
}.

Inductive jpeg_enc_input_format_t :=
| JPEG_ENCODE_IN_FORMAT_RGB888 | JPEG_ENCODE_IN_FORMAT_RGB565
| JPEG_ENCODE_IN_FORMAT_GRAY | JPEG_ENCODE_IN_FORMAT_YUV422.

Inductive jpeg_down_sampling_type_t :=
| JPEG_DOWN_SAMPLING_YUV444 | JPEG_DOWN_SAMPLING_YUV422
| JPEG_DOWN_SAMPLING_YUV420 | JPEG_DOWN_SAMPLING_GRAY.

Record jpeg_encoder_state_t := {
  handle : Z;
  src_format : jpeg_enc_input_format_t;
  sub_sample : jpeg_down_sampling_type_t;
  src_stride : Z;
  out_buf : Z;
  out_buf_size : Z;
  quality : Z;
  initialized : bool
}.

(** The file-scope variables. *)
Record statics := {
  s_server : Z;
  s_camera_fd : Z;
  s_stream_state : camera_stream_state_t;
  s_jpeg_state : jpeg_encoder_state_t
}.

(** The initialisers of the file: [s_jpeg_state = {0}], whose enumeration
    members are their first enumerators. *)
Definition initial_statics : statics :=
  {| s_server := NULL;
     s_camera_fd := -1;
     s_stream_state :=
       {| width := 0; height := 0; pixformat := V4L2_PIX_FMT_JPEG; lock := None |};
     s_jpeg_state :=
       {| handle := NULL; src_format := JPEG_ENCODE_IN_FORMAT_RGB888;
          sub_sample := JPEG_DOWN_SAMPLING_YUV444; src_stride := 0;
          out_buf := NULL; out_buf_size := 0; quality := 0;
          initialized := false |} |}.

Definition set_lock (l : SemaphoreHandle_t) (g : statics) : statics :=
  {| s_server := s_server g; s_camera_fd := s_camera_fd g;
     s_stream_state :=
       {| width := width (s_stream_state g); height := height (s_stream_state g);
          pixformat := pixformat (s_stream_state g); lock := l |};
     s_jpeg_state := s_jpeg_state g |}.

Definition set_format (w h p : Z) (g : statics) : statics :=
  {| s_server := s_server g; s_camera_fd := s_camera_fd g;
     s_stream_state :=
       {| width := w; height := h; pixformat := p; lock := lock (s_stream_state g) |};
     s_jpeg_state := s_jpeg_state g |}.

Definition set_jpeg_state (j : jpeg_encoder_state_t) (g : statics) : statics :=
  {| s_server := s_server g; s_camera_fd := s_camera_fd g;
     s_stream_state := s_stream_state g; s_jpeg_state := j |}.

Definition set_camera_fd (fd : Z) (g : statics) : statics :=
  {| s_server := s_server g; s_camera_fd := fd;
     s_stream_state := s_stream_state g; s_jpeg_state := s_jpeg_state g |}.

Definition set_server (h : Z) (g : statics) : statics :=
  {| s_server := h; s_camera_fd := s_camera_fd g;
     s_stream_state := s_stream_state g; s_jpeg_state := s_jpeg_state g |}.

Definition set_handle (h : Z) (j : jpeg_encoder_state_t) : jpeg_encoder_state_t :=
  {| handle := h; src_format := src_format j; sub_sample := sub_sample j;
     src_stride := src_stride j; out_buf := out_buf j;
     out_buf_size := out_buf_size j; quality := quality j;
     initialized := initialized j |}.

Section Program.

Variable cfg : sdkconfig.
Variable env : environment.

Abbreviation prog := (M statics).

(** *** FreeRTOS mutex *)

Definition xSemaphoreCreateMutex : prog SemaphoreHandle_t :=
  call (fun t => if env_mutex_created env t then Some mutex_free else None)
       (fun h => E_xSemaphoreCreateMutex (bool_decide (is_Some h))).

(** Taking a free mutex succeeds at once; taking a held one blocks, and
    succeeds when the holder gives it before the wait is over.  The
    answer is the result with the new state of the mutex. *)
Definition xSemaphoreTake (m : mutex_state) (ticks : Z) : prog (Z * mutex_state) :=
  call (fun t =>
          match m with
          | mutex_free => (pdTRUE, mutex_held)
          | mutex_held => if env_mutex_handed_over env t ticks
                          then (pdTRUE, mutex_held) else (pdFALSE, mutex_held)
          end)
       (fun r => E_xSemaphoreTake ticks (fst r =? pdTRUE)).

(** Giving a mutex posts to its queue with no block time: when the item
    is already there (the mutex is free) the queue is full, the call
    returns [errQUEUE_FULL] ([pdFALSE]) and nothing changes. *)
Definition xSemaphoreGive (m : mutex_state) : prog (Z * mutex_state) :=
  call (fun _ =>
          match m with
          | mutex_held => (pdTRUE, mutex_free)
          | mutex_free => (pdFALSE, mutex_free)
          end)
       (fun r => E_xSemaphoreGive (fst r =? pdTRUE)).

Definition camera_state_init : prog esp_err_t :=
  g <- get_globals ;;
  if bool_decide (is_Some (lock (s_stream_state g))) then pure ESP_OK
  else
    l <- xSemaphoreCreateMutex ;;
    _ <- put_globals (set_lock l g) ;;
    if negb (bool_decide (is_Some l)) then pure ESP_ERR_NO_MEM
    else pure ESP_OK.

Definition camera_lock_acquire : prog bool :=
  g <- get_globals ;;
  match lock (s_stream_state g) with
  | None => pure false
  | Some m =>
      '(r, m) <- xSemaphoreTake m (pdMS_TO_TICKS cfg CAMERA_LOCK_TIMEOUT_MS) ;;
      _ <- put_globals (set_lock (Some m) g) ;;
      pure (r =? pdTRUE)
  end.

Definition camera_lock_release : prog unit :=
  g <- get_globals ;;
  match lock (s_stream_state g) with
  | None => pure tt
  | Some m =>
      '(_, m) <- xSemaphoreGive m ;;
      put_globals (set_lock (Some m) g)
  end.

(** *** The JPEG encoder adapter *)

(** [jpeg_new_encoder_engine] stores the handle only when it succeeds. *)
Definition jpeg_new_encoder_engine : prog (esp_err_t * Z) :=
  call (env_jpeg_new_encoder_engine env) (fun r => E_jpeg_new_encoder_engine (fst r)).

Definition jpeg_alloc_encoder_mem (size : Z) : prog (Z * Z) :=
  call (fun t => env_jpeg_alloc_encoder_mem env t size)
       (fun r => E_jpeg_alloc_encoder_mem size (fst r)).

Definition jpeg_del_encoder_engine (h : Z) : prog unit :=
  effect (E_jpeg_del_encoder_engine h).

(** The [switch] of [jpeg_encoder_init]: input format, sub-sampling and
    bits per pixel; [None] is the [default] label. *)
Definition encoder_params (pixfmt : Z)
  : option (jpeg_enc_input_format_t * jpeg_down_sampling_type_t * Z) :=
  if pixfmt =? V4L2_PIX_FMT_RGB565 then
    Some (JPEG_ENCODE_IN_FORMAT_RGB565, JPEG_DOWN_SAMPLING_YUV422, 16)
  else if pixfmt =? V4L2_PIX_FMT_RGB24 then
    Some (JPEG_ENCODE_IN_FORMAT_RGB888, JPEG_DOWN_SAMPLING_YUV444, 24)
  else if pixfmt =? V4L2_PIX_FMT_YUV422P then
    Some (JPEG_ENCODE_IN_FORMAT_YUV422, JPEG_DOWN_SAMPLING_YUV422, 16)
  else if pixfmt =? V4L2_PIX_FMT_GREY then
    Some (JPEG_ENCODE_IN_FORMAT_GRAY, JPEG_DOWN_SAMPLING_GRAY, 8)
  else None.

Definition jpeg_encoder_init : prog esp_err_t :=
  g <- get_globals ;;
  if initialized (s_jpeg_state g) then pure ESP_OK
  else
    match encoder_params (pixformat (s_stream_state g)) with
    | None => pure ESP_ERR_NOT_SUPPORTED
    | Some (src_format, sub_sample, src_bpp) =>
        '(err, h) <- jpeg_new_encoder_engine ;;
        if negb (err =? ESP_OK) then pure err
        else
          let g := set_jpeg_state (set_handle h (s_jpeg_state g)) g in
          _ <- put_globals g ;;
          let src_stride :=
            wrap32 (wrap32 (width (s_stream_state g) * height (s_stream_state g))
                    * src_bpp) / 8 in
          let out_size := src_stride in
          '(buf, actual_size) <- jpeg_alloc_encoder_mem out_size ;;
          if negb (nonzero buf) then
            _ <- jpeg_del_encoder_engine (handle (s_jpeg_state g)) ;;
            _ <- put_globals (set_jpeg_state (set_handle NULL (s_jpeg_state g)) g) ;;
            pure ESP_ERR_NO_MEM
          else
            _ <- put_globals
                   (set_jpeg_state
                      {| handle := handle (s_jpeg_state g);
                         src_format := src_format;
                         sub_sample := sub_sample;
                         src_stride := src_stride;
                         out_buf := buf;
                         out_buf_size :=
                           if nonzero actual_size then actual_size else out_size;
                         quality := 75;
                         initialized := true |} g) ;;
            pure ESP_OK
    end.

Definition jpeg_encoder_deinit : prog unit :=
  g <- get_globals ;;
  let j := s_jpeg_state g in
  j <- (if nonzero (out_buf j) then
          _ <- effect E_free ;;
          pure {| handle := handle j; src_format := src_format j;
                  sub_sample := sub_sample j; src_stride := src_stride j;
                  out_buf := NULL; out_buf_size := out_buf_size j;
                  quality := quality j; initialized := initialized j |}
        else pure j) ;;
  j <- (if nonzero (handle j) then
          _ <- jpeg_del_encoder_engine (handle j) ;;
          pure (set_handle NULL j)
        else pure j) ;;
  put_globals
    (set_jpeg_state
       {| handle := handle j; src_format := src_format j;
          sub_sample := sub_sample j; src_stride := src_stride j;
          out_buf := out_buf j; out_buf_size := out_buf_size j;
          quality := quality j; initialized := false |} g).

(** The result, and what is stored through [jpeg_buf] and [jpeg_size]
    (left as the caller initialised them, [NULL] and 0, on failure). *)
Definition jpeg_encode_frame (src src_size : Z) : prog (esp_err_t * Z * Z) :=
  g <- get_globals ;;
  if negb (initialized (s_jpeg_state g)) then pure (ESP_ERR_INVALID_STATE, NULL, 0)
  else
    '(err, out_size) <-
      call (fun t => env_jpeg_encoder_process env t src src_size)
           (fun r => E_jpeg_encoder_process (fst r)) ;;
    if negb (err =? ESP_OK) then pure (err, NULL, 0)
    else pure (ESP_OK, out_buf (s_jpeg_state g), out_size).

(** *** Format negotiation *)

(** [pixelformat = p] and [field = V4L2_FIELD_NONE] on a copy of [fmt]. *)
Definition with_pixelformat (p : Z) (fmt : v4l2_format) : v4l2_format :=
  {| type := type fmt; V4L2.width := V4L2.width fmt;
     V4L2.height := V4L2.height fmt; pixelformat := p;
     field := V4L2_FIELD_NONE |}.

Definition with_size (w h : Z) (fmt : v4l2_format) : v4l2_format :=
  {| type := type fmt; V4L2.width := w; V4L2.height := h;
     pixelformat := pixelformat fmt; field := field fmt |}.

Definition configure_camera_device (camera_fd : Z) : prog esp_err_t :=
  let fmt := {| type := V4L2_BUF_TYPE_VIDEO_CAPTURE; V4L2.width := 0;
                V4L2.height := 0; pixelformat := 0; field := 0 |} in
  '(rc, fmt) <- ioctl_G_FMT env camera_fd fmt ;;
  if rc <? 0 then pure ESP_FAIL
  else
    let desired_width := wrap32 (CONFIG_FACE_DET_ISP_WIDTH cfg) in
    let desired_height := wrap32 (CONFIG_FACE_DET_ISP_HEIGHT cfg) in
    let desired := (0 <? desired_width) && (0 <? desired_height) in
    let fmt := if desired then with_size desired_width desired_height fmt else fmt in
    fmt <-
      (if negb (pixelformat fmt =? V4L2_PIX_FMT_RGB565) then
         let rgb_fmt := with_pixelformat V4L2_PIX_FMT_RGB565 fmt in
         let rgb_fmt :=
           if desired then with_size desired_width desired_height rgb_fmt
           else rgb_fmt in
         '(rc, rgb_fmt) <- ioctl_S_FMT env camera_fd rgb_fmt ;;
         if rc =? 0 then pure rgb_fmt
         else
           let yuv_fmt := with_pixelformat V4L2_PIX_FMT_YUV422P fmt in
           let yuv_fmt :=
             if desired then with_size desired_width desired_height yuv_fmt
             else yuv_fmt in
           '(rc, yuv_fmt) <- ioctl_S_FMT env camera_fd yuv_fmt ;;
           if rc =? 0 then pure yuv_fmt else pure fmt
       else pure fmt) ;;
    g <- get_globals ;;
    _ <- put_globals
           (set_format (V4L2.width fmt) (V4L2.height fmt) (pixelformat fmt) g) ;;
    pure ESP_OK.

(** *** HTTP responses *)

Definition httpd_resp_set_type (t : string) : prog unit :=
  effect (E_httpd_resp_set_type t).

Definition httpd_resp_set_hdr (k v : string) : prog unit :=
  effect (E_httpd_resp_set_hdr k v).

Definition httpd_resp_send_err (status : Z) (msg : string) : prog unit :=
  effect (E_httpd_resp_send_err status msg).

Definition httpd_resp_send_chunk (len : Z) : prog esp_err_t :=
  call (fun t => env_httpd_resp_send_chunk env t len)
       (fun r => E_httpd_resp_send_chunk len r).

Definition httpd_resp_send (len : Z) : prog esp_err_t :=
  call (fun t => env_httpd_resp_send env t len) (fun r => E_httpd_resp_send len r).

Definition calloc (n : nat) : prog bool :=
  call (fun t => env_calloc env t n) (fun ok => E_calloc n ok).

(** *** The index page *)

(** The page itself, [INDEX_HTML], is a constant of the file; the call is
    recorded with the length it is given. *)
Definition index_handler : prog esp_err_t :=
  _ <- httpd_resp_set_type "text/html" ;;
  httpd_resp_send HTTPD_RESP_USE_STRLEN.

(** *** The stream handler *)

Definition capture_buffer (i : nat) : v4l2_buffer :=
  {| index := i; buf_type := V4L2_BUF_TYPE_VIDEO_CAPTURE;
     buf_memory := V4L2_MEMORY_MMAP; flags := 0; bytesused := 0;
     buf_length := 0; offset := 0; tv_sec := 0; tv_usec := 0 |}.

Definition null_buffer : mapped_buffer_t := {| addr := NULL; len := 0 |}.

(** The [for] loop that queries, maps and queues the buffers, over the
    indices still to do.  The result is [ret] ([ESP_OK] when the loop ran
    to its end, otherwise the code jumps to [cleanup]) and the
    descriptors. *)
Fixpoint stream_map_buffers (todo : list nat) (buffers : list mapped_buffer_t)
  : prog (esp_err_t * list mapped_buffer_t) :=
  match todo with
  | [] => pure (ESP_OK, buffers)
  | i :: todo =>
      g <- get_globals ;;
      '(rc, buf) <- ioctl_QUERYBUF env (s_camera_fd g) (capture_buffer i) ;;
      if rc <? 0 then pure (ESP_FAIL, buffers)
      else
        a <- mmap env (buf_length buf) (s_camera_fd g) (offset buf) ;;
        let buffers := <[i := {| addr := a; len := buf_length buf |}]> buffers in
        if a =? MAP_FAILED then
          pure (ESP_FAIL, <[i := {| addr := NULL; len := buf_length buf |}]> buffers)
        else
          rc <- ioctl_QBUF env (s_camera_fd g) buf ;;
          if rc <? 0 then pure (ESP_FAIL, buffers)
          else stream_map_buffers todo buffers
  end.

(** [buffers[buf.index].addr]; the C code does not check the index the
    driver returns, an index outside the array reads as [NULL] here. *)
Definition buffer_addr (buffers : list mapped_buffer_t) (i : nat) : Z :=
  match buffers !! i with
  | Some b => addr b
  | None => NULL
  end.

(** The [while (1)] loop.  [fuel] bounds the number of iterations: [None]
    means the loop was still running when the fuel ran out; [Some ret]
    that it was left by [break] with this value in [ret]. *)
Fixpoint stream_loop (fuel : nat) (buffers : list mapped_buffer_t)
  : prog (option esp_err_t) :=
  match fuel with
  | O => pure None
  | S fuel =>
      g <- get_globals ;;
      let fd := s_camera_fd g in
      '(rc, _, buf) <- ioctl_DQBUF env fd (capture_buffer 0) ;;
      if rc <? 0 then pure (Some ESP_FAIL)
      else if Z.land (flags buf) V4L2_BUF_FLAG_DONE =? 0 then
        _ <- ioctl_QBUF env fd buf ;;
        stream_loop fuel buffers
      else
        '(err, jpeg_buf, jpeg_size) <-
          jpeg_encode_frame (buffer_addr buffers (index buf)) (bytesused buf) ;;
        if negb (err =? ESP_OK) then
          _ <- ioctl_QBUF env fd buf ;;
          pure (Some ESP_FAIL)
        else
          e <- httpd_resp_send_chunk (strlen STREAM_BOUNDARY) ;;
          if negb (e =? ESP_OK) then
            _ <- ioctl_QBUF env fd buf ;;
            pure (Some ESP_FAIL)
          else
            let hdr_len := strlen (STREAM_PART (wrap32 jpeg_size)) in
            failed <-
              (if hdr_len <=? 0 then pure true
               else
                 e <- httpd_resp_send_chunk hdr_len ;;
                 if negb (e =? ESP_OK) then pure true
                 else
                   e <- httpd_resp_send_chunk jpeg_size ;;
                   pure (negb (e =? ESP_OK))) ;;
            if failed : bool then
              _ <- ioctl_QBUF env fd buf ;;
              pure (Some ESP_FAIL)
            else
              rc <- ioctl_QBUF env fd buf ;;
              if rc <? 0 then pure (Some ESP_FAIL)
              else stream_loop fuel buffers
  end.

(** The local variables [cleanup] reads. *)
Record stream_locals := {
  ret : esp_err_t;
  buffers : option (list mapped_buffer_t);
  stream_started : bool;
  req_buf : v4l2_requestbuffers
}.

(** From the first statement after the lock is taken to the [cleanup]
    label. *)
Definition stream_session (fuel : nat) : prog (option stream_locals) :=
  _ <- httpd_resp_set_type STREAM_CONTENT_TYPE ;;
  _ <- httpd_resp_set_hdr "Access-Control-Allow-Origin" "*" ;;
  g <- get_globals ;;
  '(rc, req_buf) <-
    ioctl_REQBUFS env (s_camera_fd g)
      {| count := STREAM_BUFFER_COUNT; req_type := V4L2_BUF_TYPE_VIDEO_CAPTURE;
         req_memory := V4L2_MEMORY_MMAP |} ;;
  if (rc <? 0) || (count req_buf =? 0)%nat then
    _ <- httpd_resp_send_err HTTPD_500_INTERNAL_SERVER_ERROR
           "Unable to alloc buffers" ;;
    pure (Some {| ret := ESP_FAIL; buffers := None; stream_started := false;
                  req_buf := req_buf |})
  else
    ok <- calloc (count req_buf) ;;
    if negb ok then
      _ <- httpd_resp_send_err HTTPD_500_INTERNAL_SERVER_ERROR "Out of memory" ;;
      pure (Some {| ret := ESP_ERR_NO_MEM; buffers := None;
                    stream_started := false; req_buf := req_buf |})
    else
      '(r, bufs) <-
        stream_map_buffers (seq 0 (count req_buf))
          (replicate (count req_buf) null_buffer) ;;
      if negb (r =? ESP_OK) then
        pure (Some {| ret := r; buffers := Some bufs; stream_started := false;
                      req_buf := req_buf |})
      else
        rc <- ioctl_STREAMON env (s_camera_fd g) ;;
        if rc <? 0 then
          pure (Some {| ret := ESP_FAIL; buffers := Some bufs;
                        stream_started := false; req_buf := req_buf |})
        else
          r <- stream_loop fuel bufs ;;
          match r with
          | None => pure None
          | Some r =>
              pure (Some {| ret := r; buffers := Some bufs;
                            stream_started := true; req_buf := req_buf |})
          end.

(** The unmapping loop of [cleanup], over the indices still to do. *)
Fixpoint unmap_buffers (todo : list nat) (buffers : list mapped_buffer_t)
  : prog unit :=
  match todo with
  | [] => pure tt
  | i :: todo =>
      _ <- match buffers !! i with
           | Some b => if nonzero (addr b) then munmap (addr b) (len b) else pure tt
           | None => pure tt
           end ;;
      unmap_buffers todo buffers
  end.

Definition stream_cleanup (l : stream_locals) : prog unit :=
  g <- get_globals ;;
  _ <- (if stream_started l then
          _ <- ioctl_STREAMOFF env (s_camera_fd g) ;; pure tt
        else pure tt) ;;
  _ <- match buffers l with
       | Some bufs =>
           _ <- unmap_buffers (seq 0 (count (req_buf l))) bufs ;;
           effect E_free
       | None => pure tt
       end ;;
  camera_lock_release.

Definition stream_handler (fuel : nat) : prog (option esp_err_t) :=
  granted <- camera_lock_acquire ;;
  if negb granted then
    _ <- httpd_resp_send_err HTTPD_500_INTERNAL_SERVER_ERROR "Camera busy" ;;
    pure (Some ESP_FAIL)
  else
    l <- stream_session fuel ;;
    match l with
    | None => pure None
    | Some l =>
        _ <- stream_cleanup l ;;
        pure (Some (ret l))
    end.

(** *** The single-shot capture handler *)

Record capture_locals := {
  cap_ret : esp_err_t;
  buffer : mapped_buffer_t;
  cap_stream_started : bool
}.

(** From the first statement after the lock is taken to the [cleanup]
    label. *)
Definition capture_session : prog capture_locals :=
  g <- get_globals ;;
  let fd := s_camera_fd g in
  '(rc, req_buf) <-
    ioctl_REQBUFS env fd
      {| count := 1; req_type := V4L2_BUF_TYPE_VIDEO_CAPTURE;
         req_memory := V4L2_MEMORY_MMAP |} ;;
  if (rc <? 0) || (count req_buf =? 0)%nat then
    _ <- httpd_resp_send_err HTTPD_500_INTERNAL_SERVER_ERROR
           "Unable to alloc buffer" ;;
    pure {| cap_ret := ESP_FAIL; buffer := null_buffer;
            cap_stream_started := false |}
  else
    '(rc, buf) <- ioctl_QUERYBUF env fd (capture_buffer 0) ;;
    if rc <? 0 then
      pure {| cap_ret := ESP_FAIL; buffer := null_buffer;
              cap_stream_started := false |}
    else
      a <- mmap env (buf_length buf) fd (offset buf) ;;
      let buffer := {| addr := a; len := buf_length buf |} in
      if a =? MAP_FAILED then
        pure {| cap_ret := ESP_FAIL;
                buffer := {| addr := NULL; len := buf_length buf |};
                cap_stream_started := false |}
      else
        rc <- ioctl_QBUF env fd buf ;;
        if rc <? 0 then
          pure {| cap_ret := ESP_FAIL; buffer := buffer;
                  cap_stream_started := false |}
        else
          rc <- ioctl_STREAMON env fd ;;
          if rc <? 0 then
            pure {| cap_ret := ESP_FAIL; buffer := buffer;
                    cap_stream_started := false |}
          else
            '(rc, _, buf) <- ioctl_DQBUF env fd (capture_buffer 0) ;;
            if rc <? 0 then
              pure {| cap_ret := ESP_FAIL; buffer := buffer;
                      cap_stream_started := true |}
            else
              '(err, jpeg_buf, jpeg_size) <-
                jpeg_encode_frame (addr buffer) (bytesused buf) ;;
              if err =? ESP_OK then
                _ <- httpd_resp_set_type "image/jpeg" ;;
                _ <- httpd_resp_set_hdr "Content-Disposition"
                       "inline; filename=capture.jpg" ;;
                r <- httpd_resp_send jpeg_size ;;
                pure {| cap_ret := r; buffer := buffer;
                        cap_stream_started := true |}
              else
                pure {| cap_ret := ESP_FAIL; buffer := buffer;
                        cap_stream_started := true |}.

Definition capture_cleanup (l : capture_locals) : prog unit :=
  g <- get_globals ;;
  _ <- (if cap_stream_started l then
          _ <- ioctl_STREAMOFF env (s_camera_fd g) ;; pure tt
        else pure tt) ;;
  _ <- (if nonzero (addr (buffer l)) then
          munmap (addr (buffer l)) (len (buffer l))
        else pure tt) ;;
  camera_lock_release.

Definition capture_handler : prog esp_err_t :=
  granted <- camera_lock_acquire ;;
  if negb granted then
    _ <- httpd_resp_send_err HTTPD_500_INTERNAL_SERVER_ERROR "Camera busy" ;;
    pure ESP_FAIL
  else
    l <- capture_session ;;
    _ <- capture_cleanup l ;;
    pure (cap_ret l).

(** *** Starting and stopping the server *)

Definition httpd_start : prog (esp_err_t * Z) :=
  call (env_httpd_start env) (fun r => E_httpd_start (fst r)).

Definition httpd_register_uri_handler (uri : string) : prog unit :=
  effect (E_httpd_register_uri_handler uri).

Definition camera_server_start (camera_fd : Z) : prog esp_err_t :=
  if camera_fd <? 0 then pure ESP_ERR_INVALID_ARG
  else
    g <- get_globals ;;
    _ <- put_globals (set_camera_fd camera_fd g) ;;
    err <- camera_state_init ;;
    if negb (err =? ESP_OK) then pure err
    else
      g <- get_globals ;;
      err <- configure_camera_device (s_camera_fd g) ;;
      if negb (err =? ESP_OK) then pure err
      else
        err <- jpeg_encoder_init ;;
        if negb (err =? ESP_OK) then pure err
        else
          '(err, server) <- httpd_start ;;
          if negb (err =? ESP_OK) then
            _ <- jpeg_encoder_deinit ;;
            pure ESP_FAIL
          else
            g <- get_globals ;;
            _ <- put_globals (set_server server g) ;;
            _ <- httpd_register_uri_handler "/" ;;
            _ <- httpd_register_uri_handler "/stream" ;;
            _ <- httpd_register_uri_handler "/capture" ;;
            pure ESP_OK.

Definition camera_server_stop : prog unit :=
  g <- get_globals ;;
  _ <- (if nonzero (s_server g) then
          _ <- effect E_httpd_stop ;;
          put_globals (set_server NULL g)
        else pure tt) ;;
  g <- get_globals ;;
  _ <- (if bool_decide (is_Some (lock (s_stream_state g))) then
          _ <- effect E_vSemaphoreDelete ;;
          put_globals (set_lock None g)
        else pure tt) ;;
  jpeg_encoder_deinit.

End Program.

End CameraServer.

(** ** [main/face_detect_task.cpp] *)

Module FaceDetect.

(** [len] is the member [length]. *)
Record MappedBuffer := {
  addr : Z;
  len : Z
}.

Record FaceDetectContext := {
  camera_fd : Z;
  should_stop : bool;
  running : bool;
  stream_started : bool;
  width : Z;
  height : Z;
  pixformat : Z;
  task_handle : Z;
  buffers : list MappedBuffer;
  detector : Z;
  mqtt_client : Z
}.

(** The default member initialisers: the value of [s_ctx] at start-up. *)
Definition initial_context : FaceDetectContext :=
  {| camera_fd := -1; should_stop := false; running := false;
     stream_started := false; width := 0; height := 0; pixformat := 0;
     task_handle := NULL; buffers := []; detector := NULL; mqtt_client := NULL |}.

Definition set_format (w h p : Z) (c : FaceDetectContext) : FaceDetectContext :=
  {| camera_fd := camera_fd c; should_stop := should_stop c; running := running c;
     stream_started := stream_started c; width := w; height := h; pixformat := p;
     task_handle := task_handle c; buffers := buffers c; detector := detector c;
     mqtt_client := mqtt_client c |}.

Definition set_buffers (b : list MappedBuffer) (c : FaceDetectContext)
  : FaceDetectContext :=
  {| camera_fd := camera_fd c; should_stop := should_stop c; running := running c;
     stream_started := stream_started c; width := width c; height := height c;
     pixformat := pixformat c; task_handle := task_handle c; buffers := b;
     detector := detector c; mqtt_client := mqtt_client c |}.

Definition set_stream_started (b : bool) (c : FaceDetectContext)
  : FaceDetectContext :=
  {| camera_fd := camera_fd c; should_stop := should_stop c; running := running c;
     stream_started := b; width := width c; height := height c;
     pixformat := pixformat c; task_handle := task_handle c; buffers := buffers c;
     detector := detector c; mqtt_client := mqtt_client c |}.

Definition set_detector (d : Z) (c : FaceDetectContext) : FaceDetectContext :=
  {| camera_fd := camera_fd c; should_stop := should_stop c; running := running c;
     stream_started := stream_started c; width := width c; height := height c;
     pixformat := pixformat c; task_handle := task_handle c; buffers := buffers c;
     detector := d; mqtt_client := mqtt_client c |}.

Definition set_task (h : Z) (r : bool) (c : FaceDetectContext) : FaceDetectContext :=
  {| camera_fd := camera_fd c; should_stop := should_stop c; running := r;
     stream_started := stream_started c; width := width c; height := height c;
     pixformat := pixformat c; task_handle := h; buffers := buffers c;
     detector := detector c; mqtt_client := mqtt_client c |}.

(** The three assignments at the start of [face_detect_start]. *)
Definition set_request (fd mqtt : Z) (c : FaceDetectContext) : FaceDetectContext :=
  {| camera_fd := fd; should_stop := false; running := running c;
     stream_started := stream_started c; width := width c; height := height c;
     pixformat := pixformat c; task_handle := task_handle c; buffers := buffers c;
     detector := detector c; mqtt_client := mqtt |}.

Inductive termination :=
| returned
| terminated_by_exception.

(** How a call of [face_detect_start] ends: it returns a value, or the
    [std::bad_alloc] that [new] throws leaves it (in a build without
    exceptions the program is aborted there). *)
Inductive result :=
| value (err : esp_err_t)
| bad_alloc.

Section Program.

Variable cfg : sdkconfig.
Variable env : environment.

Abbreviation prog := (M FaceDetectContext).

Definition configure_camera_device : prog esp_err_t :=
  ctx <- get_globals ;;
  let fmt := {| type := V4L2_BUF_TYPE_VIDEO_CAPTURE; V4L2.width := 0;
                V4L2.height := 0; pixelformat := 0; field := 0 |} in
  '(rc, fmt) <- ioctl_G_FMT env (camera_fd ctx) fmt ;;
  if rc <? 0 then pure ESP_FAIL
  else
    r <- (if negb (pixelformat fmt =? V4L2_PIX_FMT_RGB565) then
            '(rc, fmt) <-
              ioctl_S_FMT env (camera_fd ctx)
                {| type := type fmt; V4L2.width := V4L2.width fmt;
                   V4L2.height := V4L2.height fmt;
                   pixelformat := V4L2_PIX_FMT_RGB565;
                   field := V4L2_FIELD_NONE |} ;;
            pure (rc <? 0, fmt)
          else pure (false, fmt)) ;;
    let '(failed, fmt) := r in
    if failed : bool then pure ESP_FAIL
    else
      _ <- put_globals
             (set_format (V4L2.width fmt) (V4L2.height fmt) (pixelformat fmt) ctx) ;;
      pure ESP_OK.

Definition capture_buffer (i : nat) : v4l2_buffer :=
  {| index := i; buf_type := V4L2_BUF_TYPE_VIDEO_CAPTURE;
     buf_memory := V4L2_MEMORY_MMAP; flags := 0; bytesused := 0;
     buf_length := 0; offset := 0; tv_sec := 0; tv_usec := 0 |}.

(** The [for] loop of [init_v4l2_buffers], over the indices still to
    do. *)
Fixpoint map_buffers (todo : list nat) : prog esp_err_t :=
  match todo with
  | [] => pure ESP_OK
  | i :: todo =>
      ctx <- get_globals ;;
      '(rc, buf) <- ioctl_QUERYBUF env (camera_fd ctx) (capture_buffer i) ;;
      if rc <? 0 then pure ESP_FAIL
      else
        a <- mmap env (buf_length buf) (camera_fd ctx) (offset buf) ;;
        if a =? MAP_FAILED then
          _ <- put_globals
                 (set_buffers
                    (<[i := {| addr := NULL; len := buf_length buf |}]> (buffers ctx))
                    ctx) ;;
          pure ESP_FAIL
        else
          _ <- put_globals
                 (set_buffers
                    (<[i := {| addr := a; len := buf_length buf |}]> (buffers ctx))
                    ctx) ;;
          rc <- ioctl_QBUF env (camera_fd ctx) buf ;;
          if rc <? 0 then pure ESP_FAIL
          else map_buffers todo
  end.

Definition init_v4l2_buffers : prog esp_err_t :=
  ctx <- get_globals ;;
  '(rc, req) <-
    ioctl_REQBUFS env (camera_fd ctx)
      {| count := CONFIG_FACE_DET_BUFFER_COUNT cfg;
         req_type := V4L2_BUF_TYPE_VIDEO_CAPTURE;
         req_memory := V4L2_MEMORY_MMAP |} ;;
  if (rc <? 0) || (count req =? 0)%nat then pure ESP_FAIL
  else
    _ <- put_globals
           (set_buffers
              (resize (count req) {| addr := NULL; len := 0 |} (buffers ctx)) ctx) ;;
    map_buffers (seq 0 (count req)).

(** The range-[for] of [release_buffers], over the buffers still to
    visit. *)
Fixpoint unmap_buffers (todo : list MappedBuffer) : prog unit :=
  match todo with
  | [] => pure tt
  | b :: todo =>
      _ <- (if nonzero (addr b) && negb (addr b =? MAP_FAILED)
            then munmap (addr b) (len b) else pure tt) ;;
      unmap_buffers todo
  end.

Definition release_buffers : prog unit :=
  ctx <- get_globals ;;
  _ <- unmap_buffers (buffers ctx) ;;
  put_globals (set_buffers [] ctx).

(** *** The detection task *)

Definition detector_run (data : Z) : prog nat :=
  call (fun t => env_detector_run env t data) (fun n => E_detector_run n).

Definition esp_timer_get_time : prog Z :=
  call (env_esp_timer_get_time env) (fun us => E_esp_timer_get_time us).

(** The [while (!ctx->should_stop)] loop.  [ctx->should_stop] is set by
    another task, so each read of it is a [sample] of the environment.
    [fuel] bounds the number of iterations ([None] when it runs out);
    [buffers.at] throws when the index is out of range, which ends the
    program. *)
Fixpoint detection_loop (fuel : nat) (interval : Z)
    (frame_count face_count last_fps_log : Z) : prog (option termination) :=
  match fuel with
  | O => pure None
  | S fuel =>
      stop <- sample (env_should_stop env) ;;
      if stop : bool then pure (Some returned)
      else
        ctx <- get_globals ;;
        '(rc, errno, buf) <- ioctl_DQBUF env (camera_fd ctx) (capture_buffer 0) ;;
        if rc <? 0 then
          if errno =? EINTR then
            detection_loop fuel interval frame_count face_count last_fps_log
          else
            stop <- sample (env_should_stop env) ;;
            if stop : bool then pure (Some returned)
            else pure (Some returned)
        else
          match buffers ctx !! index buf with
          | None => pure (Some terminated_by_exception)
          | Some mapped =>
              results <- detector_run (addr mapped) ;;
              let ts := tv_sec buf * 1000000 + tv_usec buf in
              ts <- (if ts =? 0 then esp_timer_get_time else pure ts) ;;
              let face_count :=
                if (0 <? results)%nat then face_count + 1 else face_count in
              rc <- ioctl_QBUF env (camera_fd ctx) buf ;;
              if rc <? 0 then pure (Some returned)
              else
                let frame_count := frame_count + 1 in
                now <- esp_timer_get_time ;;
                let reset := 1000000 <=? now - last_fps_log in
                _ <- (if 0 <? interval then effect (E_vTaskDelayUntil interval)
                      else pure tt) ;;
                detection_loop fuel interval
                  (if reset then 0 else frame_count)
                  (if reset then 0 else face_count)
                  (if reset then now else last_fps_log)
          end
  end.

(** The [do { ... } while (0)] block. *)
Definition detection_session (fuel : nat) : prog (option termination) :=
  ctx <- get_globals ;;
  if negb (nonzero (detector ctx)) then pure (Some returned)
  else
    err <- configure_camera_device ;;
    if negb (err =? ESP_OK) then pure (Some returned)
    else
      err <- init_v4l2_buffers ;;
      if negb (err =? ESP_OK) then pure (Some returned)
      else
        ctx <- get_globals ;;
        rc <- ioctl_STREAMON env (camera_fd ctx) ;;
        if rc <? 0 then pure (Some returned)
        else
          _ <- put_globals (set_stream_started true ctx) ;;
          let interval :=
            if 0 <? CONFIG_FACE_DET_MIN_INTERVAL_MS cfg
            then pdMS_TO_TICKS cfg (CONFIG_FACE_DET_MIN_INTERVAL_MS cfg) else 0 in
          _ <- effect E_xTaskGetTickCount ;;
          last_fps_log <- esp_timer_get_time ;;
          detection_loop fuel interval 0 0 last_fps_log.

(** The statements after the block. *)
Definition detection_teardown : prog unit :=
  ctx <- get_globals ;;
  _ <- (if stream_started ctx then
          _ <- ioctl_STREAMOFF env (camera_fd ctx) ;;
          put_globals (set_stream_started false ctx)
        else pure tt) ;;
  _ <- release_buffers ;;
  ctx <- get_globals ;;
  _ <- (if nonzero (detector ctx) then
          _ <- effect E_delete_detector ;;
          put_globals (set_detector NULL ctx)
        else pure tt) ;;
  ctx <- get_globals ;;
  _ <- put_globals (set_task NULL false ctx) ;;
  effect E_vTaskDelete.

Definition detection_task (fuel : nat) : prog (option termination) :=
  r <- detection_session fuel ;;
  match r with
  | Some returned =>
      _ <- detection_teardown ;;
      pure (Some returned)
  | other => pure other
  end.

(** *** Starting the task *)

(** [new HumanFaceDetect()] is a plain [new]: it yields the address of
    the object, or throws, in which case nothing is assigned to
    [s_ctx.detector] and the statements that follow do not run. *)
Definition new_HumanFaceDetect : prog (option Z) :=
  call (fun t => Z.pos <$> env_new_HumanFaceDetect env t)
       (fun p => E_new_HumanFaceDetect p).

(** The task that is created runs on its own; [face_detect_start] only
    records the call.  [xTaskCreatePinnedToCore] stores the handle when
    it succeeds. *)
Definition face_detect_start (fd mqtt : Z) : prog result :=
  if negb (CONFIG_APP_ENABLE_FACE_DETECTION cfg) then pure (value ESP_ERR_NOT_SUPPORTED)
  else if fd <? 0 then pure (value ESP_ERR_INVALID_ARG)
  else
    ctx <- get_globals ;;
    if running ctx then pure (value ESP_ERR_INVALID_STATE)
    else
      let ctx := set_request fd mqtt ctx in
      _ <- put_globals ctx ;;
      allocated <- new_HumanFaceDetect ;;
      match allocated with
      | None => pure bad_alloc
      | Some d =>
          let ctx := set_detector d ctx in
          _ <- put_globals ctx ;;
          if negb (nonzero (detector ctx)) then pure (value ESP_ERR_NO_MEM)
          else
            '(rc, h) <-
              call (env_xTaskCreatePinnedToCore env)
                   (fun r => E_xTaskCreatePinnedToCore (fst r)) ;;
            let ctx := if rc =? pdPASS then set_task h (running ctx) ctx else ctx in
            _ <- put_globals ctx ;;
            if negb (rc =? pdPASS) then
              _ <- effect E_delete_detector ;;
              _ <- put_globals (set_detector NULL ctx) ;;
              pure (value ESP_FAIL)
            else
              _ <- put_globals (set_task (task_handle ctx) true ctx) ;;
              pure (value ESP_OK)
      end.

End Program.

End FaceDetect.

(** ** [main/camera_init.c]

    The sensor driver, the I2C and SCCB buses and the video subsystem are
    external.  Every one of them is called at most once in a run of a
    function of this file, so a run takes the answers it will get as a
    record and returns, with its result, the file-scope variables it leaves
    and the calls it made, oldest first. *)

Module CameraInit.

Record camera_config_t := {
  i2c_port : Z;
  scl_pin : Z;
  sda_pin : Z;
  reset_pin : Z;
  pwdn_pin : Z;
  xclk_freq_hz : Z
}.

(** [esp_cam_sensor_format_t], with the members the code reads. *)
Record esp_cam_sensor_format_t := {
  name : string;
  format : Z;
  width : Z;
  height : Z;
  fps : Z
}.

(** Constants of [sdkconfig.h] and of the sensor headers, which are not
    part of the sources. *)
Record constants := {
  CONFIG_CAMERA_FRAME_WIDTH : Z;
  CONFIG_CAMERA_FRAME_HEIGHT : Z;
  ESP_CAM_SENSOR_PIXFORMAT_RAW10 : Z
}.

Inductive action :=
| C_i2c_new_master_bus (port scl sda : Z) (rc : esp_err_t)
| C_sccb_new_i2c_io (bus : Z) (rc : esp_err_t)
| C_ov5647_detect (sccb : Z) (dev : Z)
| C_esp_cam_sensor_query_format (dev : Z) (rc : esp_err_t)
| C_esp_cam_sensor_set_format (dev : Z) (f : esp_cam_sensor_format_t) (rc : esp_err_t)
| C_esp_video_init (rc : esp_err_t)
| C_open (fd : Z)
| C_close (fd : Z)
| C_esp_cam_sensor_del_dev (dev : Z)
| C_esp_sccb_del_i2c_io (h : Z)
| C_i2c_del_master_bus (h : Z)
| C_esp_video_deinit
| C_esp_cam_sensor_get_format (dev : Z) (rc : esp_err_t).

(** What the external functions answer; a function that creates a handle
    stores it only when it succeeds. *)
Record answers := {
  a_i2c_new_master_bus : esp_err_t * Z;
  a_sccb_new_i2c_io : esp_err_t * Z;
  a_ov5647_detect : Z;
  a_query_format : esp_err_t * list esp_cam_sensor_format_t;
  a_set_format : esp_err_t;
  a_esp_video_init : esp_err_t;
  a_open : Z;
  a_get_format : esp_err_t * esp_cam_sensor_format_t
}.

(** The file-scope variables. *)
Record statics := {
  s_cam_dev : Z;
  s_video_fd : Z;
  s_i2c_bus : Z;
  s_sccb_handle : Z;
  s_video_initialized : bool
}.

Definition initial_statics : statics :=
  {| s_cam_dev := NULL; s_video_fd := -1; s_i2c_bus := NULL;
     s_sccb_handle := NULL; s_video_initialized := false |}.

Definition set_cam_dev (d : Z) (st : statics) : statics :=
  {| s_cam_dev := d; s_video_fd := s_video_fd st; s_i2c_bus := s_i2c_bus st;
     s_sccb_handle := s_sccb_handle st;
     s_video_initialized := s_video_initialized st |}.

Definition set_video_fd (fd : Z) (st : statics) : statics :=
  {| s_cam_dev := s_cam_dev st; s_video_fd := fd; s_i2c_bus := s_i2c_bus st;
     s_sccb_handle := s_sccb_handle st;
     s_video_initialized := s_video_initialized st |}.

Definition set_i2c_bus (h : Z) (st : statics) : statics :=
  {| s_cam_dev := s_cam_dev st; s_video_fd := s_video_fd st; s_i2c_bus := h;
     s_sccb_handle := s_sccb_handle st;
     s_video_initialized := s_video_initialized st |}.

Definition set_sccb_handle (h : Z) (st : statics) : statics :=
  {| s_cam_dev := s_cam_dev st; s_video_fd := s_video_fd st;
     s_i2c_bus := s_i2c_bus st; s_sccb_handle := h;
     s_video_initialized := s_video_initialized st |}.

Definition set_video_initialized (b : bool) (st : statics) : statics :=
  {| s_cam_dev := s_cam_dev st; s_video_fd := s_video_fd st;
     s_i2c_bus := s_i2c_bus st; s_sccb_handle := s_sccb_handle st;
     s_video_initialized := b |}.

Section Program.

Variable k : constants.
Variable world : answers.

(** The test of the [for] loop that ends it with [break]. *)
Definition wanted (f : esp_cam_sensor_format_t) : bool :=
  (0 <? CONFIG_CAMERA_FRAME_WIDTH k) && (0 <? CONFIG_CAMERA_FRAME_HEIGHT k)
  && (width f =? CONFIG_CAMERA_FRAME_WIDTH k)
  && (height f =? CONFIG_CAMERA_FRAME_HEIGHT k).

(** The [for] loop over [format_array], from the entries still to visit
    and the value of [selected_format]. *)
Fixpoint select_format (formats : list esp_cam_sensor_format_t)
    (selected : option esp_cam_sensor_format_t)
  : option esp_cam_sensor_format_t :=
  match formats with
  | [] => selected
  | fmt :: formats =>
      if negb (format fmt =? ESP_CAM_SENSOR_PIXFORMAT_RAW10 k) then
        select_format formats selected
      else if wanted fmt then Some fmt
      else
        select_format formats
          (match selected with None => Some fmt | Some _ => selected end)
  end.

(** The [fail] label, with the locals it reads. *)
Definition fail (sccb_handle i2c_bus_handle : Z) (st : statics)
  : statics * list action :=
  let '(st, e1) :=
    if nonzero (s_cam_dev st)
    then (set_cam_dev NULL st, [C_esp_cam_sensor_del_dev (s_cam_dev st)])
    else (st, []) in
  let '(st, e2) :=
    if nonzero sccb_handle
    then (set_sccb_handle NULL st, [C_esp_sccb_del_i2c_io sccb_handle])
    else (st, []) in
  let '(st, e3) :=
    if nonzero i2c_bus_handle
    then (set_i2c_bus NULL st, [C_i2c_del_master_bus i2c_bus_handle])
    else (st, []) in
  (st, e1 ++ e2 ++ e3).

(** The result, the variables afterwards and the calls made. *)
Definition camera_init (config : camera_config_t) (st : statics)
  : Z * statics * list action :=
  if nonzero (s_cam_dev st) then (s_cam_dev st, st, [])
  else
    let '(ret, bus) := a_i2c_new_master_bus world in
    let i2c_bus_handle := if ret =? ESP_OK then bus else NULL in
    let e := [C_i2c_new_master_bus (i2c_port config) (scl_pin config)
                (sda_pin config) ret] in
    if negb (ret =? ESP_OK) then (NULL, st, e)
    else
      let '(ret, sccb) := a_sccb_new_i2c_io world in
      let sccb_handle := if ret =? ESP_OK then sccb else NULL in
      let e := e ++ [C_sccb_new_i2c_io i2c_bus_handle ret] in
      let failed (st : statics) (e : list action) :=
        let '(st, e') := fail sccb_handle i2c_bus_handle st in
        (NULL, st, e ++ e') in
      if negb (ret =? ESP_OK) then failed st e
      else
        let st := set_cam_dev (a_ov5647_detect world) st in
        let e := e ++ [C_ov5647_detect sccb_handle (s_cam_dev st)] in
        if negb (nonzero (s_cam_dev st)) then
          (NULL, st, e ++ [C_i2c_del_master_bus i2c_bus_handle])
        else
          let '(ret, format_array) := a_query_format world in
          let e := e ++ [C_esp_cam_sensor_query_format (s_cam_dev st) ret] in
          if negb (ret =? ESP_OK) then failed st e
          else
            match select_format format_array None with
            | None => failed st e
            | Some selected_format =>
                let ret := a_set_format world in
                let e :=
                  e ++ [C_esp_cam_sensor_set_format (s_cam_dev st)
                          selected_format ret] in
                if negb (ret =? ESP_OK) then failed st e
                else
                  let st := set_sccb_handle sccb_handle
                              (set_i2c_bus i2c_bus_handle st) in
                  let '(ok, st, e) :=
                    if negb (s_video_initialized st) then
                      let ret := a_esp_video_init world in
                      let e := e ++ [C_esp_video_init ret] in
                      if negb (ret =? ESP_OK) then (false, st, e)
                      else (true, set_video_initialized true st, e)
                    else (true, st, e) in
                  if negb ok then failed st e
                  else
                    let st := set_video_fd (a_open world) st in
                    let e := e ++ [C_open (s_video_fd st)] in
                    if s_video_fd st <? 0 then failed st e
                    else (s_cam_dev st, st, e)
            end.

Definition camera_get_fd (st : statics) : Z := s_video_fd st.

(** The result, and what is stored through the three pointers that are
    not [NULL] ([None] where nothing is stored). *)
Definition camera_get_frame_info (want_width want_height want_format : bool)
    (st : statics)
  : esp_err_t * (option Z * option Z * option Z) * list action :=
  if negb (nonzero (s_cam_dev st)) then
    (ESP_ERR_INVALID_STATE, (None, None, None), [])
  else
    let '(ret, current_format) := a_get_format world in
    let stored (wanted : bool) (v : Z) :=
      if (ret =? ESP_OK) && wanted then Some v else None in
    (ret,
     (stored want_width (width current_format),
      stored want_height (height current_format),
      stored want_format (format current_format)),
     [C_esp_cam_sensor_get_format (s_cam_dev st) ret]).

End Program.

Definition camera_deinit (st : statics) : statics * list action :=
  let '(st, e1) :=
    if 0 <=? s_video_fd st
    then (set_video_fd (-1) st, [C_close (s_video_fd st)]) else (st, []) in
  let '(st, e2) :=
    if nonzero (s_cam_dev st)
    then (set_cam_dev NULL st, [C_esp_cam_sensor_del_dev (s_cam_dev st)])
    else (st, []) in
  let '(st, e3) :=
    if nonzero (s_sccb_handle st)
    then (set_sccb_handle NULL st, [C_esp_sccb_del_i2c_io (s_sccb_handle st)])
    else (st, []) in
  let '(st, e4) :=
    if nonzero (s_i2c_bus st)
    then (set_i2c_bus NULL st, [C_i2c_del_master_bus (s_i2c_bus st)])
    else (st, []) in
  let '(st, e5) :=
    if s_video_initialized st
    then (set_video_initialized false st, [C_esp_video_deinit])
    else (st, []) in
  (st, e1 ++ e2 ++ e3 ++ e4 ++ e5).

End CameraInit.

(** ** [main/app_main.c]: the Wi-Fi event handler *)

Module AppMain.

(** [esp_event_base_t] is compared with the two bases the handler is
    registered for; any other base is [other_event_base]. *)
Inductive esp_event_base_t :=
| WIFI_EVENT
| IP_EVENT
| other_event_base.

(** Constants of [sdkconfig.h] and of the Wi-Fi headers, which are not
    part of the sources. *)
Record constants := {
  CONFIG_ESP_MAXIMUM_RETRY : Z;
  WIFI_EVENT_STA_START : Z;
  WIFI_EVENT_STA_DISCONNECTED : Z;
  IP_EVENT_STA_GOT_IP : Z
}.

(** [BIT0] and [BIT1] *)
Definition WIFI_CONNECTED_BIT : Z := 1.
Definition WIFI_FAIL_BIT : Z := 2.

Inductive action :=
| A_esp_wifi_connect
| A_xEventGroupSetBits (bits : Z).

Definition is_base (a b : esp_event_base_t) : bool :=
  match a, b with
  | WIFI_EVENT, WIFI_EVENT | IP_EVENT, IP_EVENT => true
  | _, _ => false
  end.

(** The value of [s_retry_num] afterwards and the calls made. *)
Definition event_handler (k : constants) (event_base : esp_event_base_t)
    (event_id : Z) (s_retry_num : Z) : Z * list action :=
  if is_base event_base WIFI_EVENT && (event_id =? WIFI_EVENT_STA_START k) then
    (s_retry_num, [A_esp_wifi_connect])
  else if is_base event_base WIFI_EVENT
          && (event_id =? WIFI_EVENT_STA_DISCONNECTED k) then
    if s_retry_num <? CONFIG_ESP_MAXIMUM_RETRY k then
      (s_retry_num + 1, [A_esp_wifi_connect])
    else (s_retry_num, [A_xEventGroupSetBits WIFI_FAIL_BIT])
  else if is_base event_base IP_EVENT && (event_id =? IP_EVENT_STA_GOT_IP k) then
    (0, [A_xEventGroupSetBits WIFI_CONNECTED_BIT])
  else (s_retry_num, []).

End AppMain.

(** * Vocabulary of the specification *)

(** The events a computation adds to the log when run from [s]. *)
Definition events_of {G A} (m : M G A) (s : state G) : list event :=
  drop (length (log s)) (log (snd (m s))).

(** A relation every run of the computation respects. *)
Definition respects {G A} (R : state G -> state G -> Prop) (m : M G A) : Prop :=
  forall s, R s (snd (m s)).

(** The computation leaves the globals alone and logs only events that
    satisfy [P]. *)
Definition logs_only {G} (P : event -> Prop) (s s' : state G) : Prop :=
  globals s' = globals s /\
  (clock s <= clock s')%nat /\
  exists evs, log s' = log s ++ evs /\ Forall P evs.

(** ** Event classes *)

Definition no_lock_event (e : event) : Prop :=
  match e with
  | E_xSemaphoreCreateMutex _ | E_xSemaphoreTake _ _
  | E_xSemaphoreGive _ | E_vSemaphoreDelete => False
  | _ => True
  end.

Definition is_ioctl (e : event) : bool :=
  match e with E_ioctl _ _ _ => true | _ => false end.

Definition is_give (e : event) : bool :=
  match e with E_xSemaphoreGive _ => true | _ => false end.

Definition is_take (e : event) : bool :=
  match e with E_xSemaphoreTake _ _ => true | _ => false end.

Definition is_dequeue (e : event) : bool :=
  match e with E_ioctl _ VIDIOC_DQBUF _ => true | _ => false end.

Definition is_set_format (e : event) : bool :=
  match e with E_ioctl _ VIDIOC_S_FMT _ => true | _ => false end.

Definition successful_mmap (e : event) : bool :=
  match e with E_mmap _ _ a => negb (a =? MAP_FAILED) | _ => false end.

Definition is_munmap (e : event) : bool :=
  match e with E_munmap _ _ => true | _ => false end.

(** A [VIDIOC_STREAMON] that succeeded, and any [VIDIOC_STREAMOFF]. *)
Definition is_stream_on (e : event) : bool :=
  match e with E_ioctl _ VIDIOC_STREAMON rc => negb (rc <? 0) | _ => false end.

Definition is_stream_off (e : event) : bool :=
  match e with E_ioctl _ VIDIOC_STREAMOFF _ => true | _ => false end.

(** A set-format call the driver accepted. *)
Definition format_accepted (e : event) : bool :=
  match e with E_ioctl _ VIDIOC_S_FMT rc => rc =? 0 | _ => false end.

(** A [VIDIOC_DQBUF] that delivered a buffer, and any [VIDIOC_QBUF]. *)
Definition successful_dequeue (e : event) : bool :=
  match e with E_ioctl _ VIDIOC_DQBUF rc => negb (rc <? 0) | _ => false end.

Definition is_queue (e : event) : bool :=
  match e with E_ioctl _ VIDIOC_QBUF _ => true | _ => false end.

Definition is_register (e : event) : bool :=
  match e with E_httpd_register_uri_handler _ => true | _ => false end.

(** An encoder output buffer that was obtained, and a [free]. *)
Definition buffer_allocated (e : event) : bool :=
  match e with E_jpeg_alloc_encoder_mem _ buf => nonzero buf | _ => false end.

Definition is_free (e : event) : bool :=
  match e with E_free => true | _ => false end.

(** The one call [jpeg_encode_frame] makes. *)
Definition encoder_call (e : event) : Prop :=
  match e with E_jpeg_encoder_process _ => True | _ => False end.

(** What the loops that query, map and queue the buffers do. *)
Definition mapping_event (e : event) : Prop :=
  match e with
  | E_ioctl _ (VIDIOC_QUERYBUF | VIDIOC_QBUF) _ | E_mmap _ _ _ => True
  | _ => False
  end.

(** What [cleanup] does after it has stopped the stream. *)
Definition release_event (e : event) : Prop :=
  match e with
  | E_munmap _ _ | E_free | E_xSemaphoreGive _ => True
  | _ => False
  end.

(** What [camera_server_start] does before it starts the HTTP server, and
    what it does altogether. *)
Definition preparation_event (e : event) : Prop :=
  match e with
  | E_xSemaphoreCreateMutex _ | E_ioctl _ (VIDIOC_G_FMT | VIDIOC_S_FMT) _
  | E_jpeg_new_encoder_engine _ | E_jpeg_alloc_encoder_mem _ _
  | E_jpeg_del_encoder_engine _ | E_free => True
  | _ => False
  end.

Definition start_event (e : event) : Prop :=
  match e with
  | E_httpd_start _ | E_httpd_register_uri_handler _ => True
  | e => preparation_event e
  end.

(** The URIs for which a handler was registered, in the order of the
    calls. *)
Fixpoint registered (l : list event) : list string :=
  match l with
  | [] => []
  | E_httpd_register_uri_handler uri :: l => uri :: registered l
  | _ :: l => registered l
  end.

(** The picture the capture handler answers with. *)
Definition picture_sent (size : Z) : list event :=
  [E_jpeg_encoder_process ESP_OK; E_httpd_resp_set_type "image/jpeg";
   E_httpd_resp_set_hdr "Content-Disposition" "inline; filename=capture.jpg";
   E_httpd_resp_send size ESP_OK].

(** Every ioctl of the log is issued while the camera lock is held;
    [held] tells whether it is held at the start. *)
Fixpoint ioctls_under_lock (held : bool) (l : list event) : bool :=
  match l with
  | [] => true
  | E_xSemaphoreTake _ granted :: l => ioctls_under_lock (held || granted) l
  | E_xSemaphoreGive given :: l => ioctls_under_lock (held && negb given) l
  | E_ioctl _ _ _ :: l => held && ioctls_under_lock held l
  | _ :: l => ioctls_under_lock held l
  end.

Definition engine_created (e : event) : bool :=
  match e with E_jpeg_new_encoder_engine rc => rc =? ESP_OK | _ => false end.

Definition engine_deleted (e : event) : bool :=
  match e with E_jpeg_del_encoder_engine _ => true | _ => false end.

(** What the steady-state loop of the stream handler does. *)
Definition streaming_event (e : event) : Prop :=
  match e with
  | E_ioctl _ (VIDIOC_DQBUF | VIDIOC_QBUF) _
  | E_jpeg_encoder_process _ | E_httpd_resp_send_chunk _ _ => True
  | _ => False
  end.

(** What a session does between taking and giving the lock: no lock call,
    no unmapping (that is left to [cleanup]). *)
Definition session_event (e : event) : Prop :=
  match e with
  | E_xSemaphoreCreateMutex _ | E_xSemaphoreTake _ _
  | E_xSemaphoreGive _ | E_vSemaphoreDelete | E_munmap _ _ => False
  | _ => True
  end.

Definition count_events (f : event -> bool) (l : list event) : nat :=
  length (List.filter f l).

(** The regions [mmap] returned (a failed call returns none), and the
    regions given to [munmap], in the order of the calls. *)
Fixpoint mapped_regions (l : list event) : list (Z * Z) :=
  match l with
  | [] => []
  | E_mmap len _ a :: l =>
      if a =? MAP_FAILED then mapped_regions l else (a, len) :: mapped_regions l
  | _ :: l => mapped_regions l
  end.

Fixpoint unmapped_regions (l : list event) : list (Z * Z) :=
  match l with
  | [] => []
  | E_munmap a len :: l => (a, len) :: unmapped_regions l
  | _ :: l => unmapped_regions l
  end.

Definition munmap_events (rs : list (Z * Z)) : list event :=
  map (fun r => E_munmap (fst r) (snd r)) rs.


(** The computation logs only events that satisfy [P]; it may change the
    globals. *)
Definition emits_only {G} (P : event -> Prop) (s s' : state G) : Prop :=
  exists evs, log s' = log s ++ evs /\ Forall P evs.

(** What a session does besides mapping and unmapping its buffers and
    taking and giving the lock. *)
Definition quiet_event (e : event) : Prop :=
  match e with
  | E_xSemaphoreCreateMutex _ | E_xSemaphoreTake _ _
  | E_xSemaphoreGive _ | E_vSemaphoreDelete
  | E_mmap _ _ _ | E_munmap _ _ => False
  | _ => True
  end.

(** [mmap] returns [MAP_FAILED] or the address of a mapping, never
    [NULL]. *)
Definition mmap_sane (env : environment) : Prop :=
  forall t length fd offset, env_mmap env t length fd offset <> NULL.

Module CameraServerSpec.
Import CameraServer.

Definition lock_of (s : state statics) : SemaphoreHandle_t :=
  lock (s_stream_state (globals s)).

Definition lock_ticks (cfg : sdkconfig) : Z := pdMS_TO_TICKS cfg CAMERA_LOCK_TIMEOUT_MS.

Definition camera_busy : event :=
  E_httpd_resp_send_err HTTPD_500_INTERNAL_SERVER_ERROR "Camera busy".

(** The shared StreamFormat: width, height and pixel format. *)
Definition stream_format (s : state statics) : Z * Z * Z :=
  (width (s_stream_state (globals s)), height (s_stream_state (globals s)),
   pixformat (s_stream_state (globals s))).

Definition format_of (fmt : v4l2_format) : Z * Z * Z :=
  (V4L2.width fmt, V4L2.height fmt, pixelformat fmt).

(** The argument of the [VIDIOC_G_FMT] call. *)
Definition format_query : v4l2_format :=
  {| type := V4L2_BUF_TYPE_VIDEO_CAPTURE; V4L2.width := 0; V4L2.height := 0;
     pixelformat := 0; field := 0 |}.

Definition supported_pixformat (p : Z) : Prop :=
  p = V4L2_PIX_FMT_RGB565 \/ p = V4L2_PIX_FMT_RGB24 \/
  p = V4L2_PIX_FMT_YUV422P \/ p = V4L2_PIX_FMT_GREY.

(** The regions a descriptor array holds: the entries whose address is
    not [NULL]. *)
Fixpoint regions (bufs : list mapped_buffer_t) : list (Z * Z) :=
  match bufs with
  | [] => []
  | b :: bufs =>
      if nonzero (addr b) then (addr b, len b) :: regions bufs else regions bufs
  end.

(** The regions the descriptors hold when [cleanup] is reached. *)
Definition held_regions (bufs : option (list mapped_buffer_t)) : list (Z * Z) :=
  match bufs with
  | Some bufs => regions bufs
  | None => []
  end.

End CameraServerSpec.

Module FaceDetectSpec.
Import FaceDetect.

(** The regions [release_buffers] unmaps: the entries whose address is
    neither [NULL] nor [MAP_FAILED]. *)
Fixpoint regions (bufs : list MappedBuffer) : list (Z * Z) :=
  match bufs with
  | [] => []
  | b :: bufs =>
      if nonzero (addr b) && negb (addr b =? MAP_FAILED)
      then (addr b, len b) :: regions bufs else regions bufs
  end.

Definition null_buffer : MappedBuffer := {| addr := NULL; len := 0 |}.

(** The format the context holds. *)
Definition context_format (d : state FaceDetectContext) : Z * Z * Z :=
  (width (globals d), height (globals d), pixformat (globals d)).

(** The descriptor of a mapped region. *)
Definition buffer_of (r : Z * Z) : MappedBuffer := {| addr := fst r; len := snd r |}.


(** The dequeue events of [k] interrupted attempts, the first at instant
    [t + 1], one every other instant. *)
Fixpoint interrupted_dequeues (env : environment) (fd : Z) (t k : nat) : list event :=
  match k with
  | O => []
  | S k =>
      E_ioctl fd VIDIOC_DQBUF (fst (fst (env_DQBUF env (S t) fd (capture_buffer 0))))
        :: interrupted_dequeues env fd (S (S t)) k
  end.

End FaceDetectSpec.

Module CameraInitSpec.
Import CameraInit.

Definition is_raw10 (k : constants) (f : esp_cam_sensor_format_t) : bool :=
  format f =? ESP_CAM_SENSOR_PIXFORMAT_RAW10 k.

(** The variables agree: a sensor is registered exactly when the video
    device is open, and without a sensor no bus handle is kept. *)
Definition consistent (st : statics) : Prop :=
  (s_cam_dev st <> NULL <-> 0 <= s_video_fd st) /\
  (s_cam_dev st = NULL -> s_i2c_bus st = NULL /\ s_sccb_handle st = NULL).

Definition bus_created (a : action) : bool :=
  match a with C_i2c_new_master_bus _ _ _ rc => rc =? ESP_OK | _ => false end.
Definition bus_deleted (a : action) : bool :=
  match a with C_i2c_del_master_bus _ => true | _ => false end.
Definition sccb_created (a : action) : bool :=
  match a with C_sccb_new_i2c_io _ rc => rc =? ESP_OK | _ => false end.
Definition sccb_deleted (a : action) : bool :=
  match a with C_esp_sccb_del_i2c_io _ => true | _ => false end.
Definition sensor_detected (a : action) : bool :=
  match a with C_ov5647_detect _ dev => nonzero dev | _ => false end.
Definition sensor_deleted (a : action) : bool :=
  match a with C_esp_cam_sensor_del_dev _ => true | _ => false end.

Definition count_actions (f : action -> bool) (l : list action) : nat :=
  length (List.filter f l).

(** The sensor driver answers with handles that are not [NULL] when it
    reports success. *)
Definition handles_valid (world : answers) : Prop :=
  (fst (a_i2c_new_master_bus world) = ESP_OK -> snd (a_i2c_new_master_bus world) <> NULL) /\
  (fst (a_sccb_new_i2c_io world) = ESP_OK -> snd (a_sccb_new_i2c_io world) <> NULL).

End CameraInitSpec.

Module AppMainSpec.
Import AppMain.

(** The event loop delivers the events to the handler one after the
    other. *)
Fixpoint deliver (k : constants) (events : list (esp_event_base_t * Z))
    (s_retry_num : Z) : Z * list action :=
  match events with
  | [] => (s_retry_num, [])
  | (event_base, event_id) :: events =>
      let '(r, a) := event_handler k event_base event_id s_retry_num in
      let '(r', a') := deliver k events r in
      (r', a ++ a')
  end.

Definition station_started (k : constants) (e : esp_event_base_t * Z) : bool :=
  is_base (fst e) WIFI_EVENT && (snd e =? WIFI_EVENT_STA_START k).

Definition got_ip (k : constants) (e : esp_event_base_t * Z) : bool :=
  is_base (fst e) IP_EVENT && (snd e =? IP_EVENT_STA_GOT_IP k).

Definition is_connect (a : action) : bool :=
  match a with A_esp_wifi_connect => true | _ => false end.

Definition gives_up (a : action) : bool :=
  match a with A_xEventGroupSetBits bits => bits =? WIFI_FAIL_BIT | _ => false end.

Definition count_calls (f : action -> bool) (l : list action) : Z :=
  Z.of_nat (length (List.filter f l)).

End AppMainSpec.

(** * Scenarios

    Concrete environments on which the programs are run: a device at
    640x480 that grants every request, unless the scenario says otherwise. *)

Module Scenario.

Definition sdk : sdkconfig :=
  {| configTICK_RATE_HZ := 100;
     CONFIG_FACE_DET_ISP_WIDTH := 0;
     CONFIG_FACE_DET_ISP_HEIGHT := 0;
     CONFIG_APP_ENABLE_FACE_DETECTION := true;
     CONFIG_FACE_DET_BUFFER_COUNT := 3;
     CONFIG_FACE_DET_MIN_INTERVAL_MS := 0;
     CONFIG_FACE_DET_TASK_STACK_SIZE := 8192;
     CONFIG_FACE_DET_TASK_PRIORITY := 5 |}.

(** The build with a desired ISP resolution of 640x480. *)
Definition sdk_vga : sdkconfig :=
  {| configTICK_RATE_HZ := 100;
     CONFIG_FACE_DET_ISP_WIDTH := 640;
     CONFIG_FACE_DET_ISP_HEIGHT := 480;
     CONFIG_APP_ENABLE_FACE_DETECTION := true;
     CONFIG_FACE_DET_BUFFER_COUNT := 3;
     CONFIG_FACE_DET_MIN_INTERVAL_MS := 0;
     CONFIG_FACE_DET_TASK_STACK_SIZE := 8192;
     CONFIG_FACE_DET_TASK_PRIORITY := 5 |}.

(** The build without face detection. *)
Definition sdk_no_detection : sdkconfig :=
  {| configTICK_RATE_HZ := 100;
     CONFIG_FACE_DET_ISP_WIDTH := 0;
     CONFIG_FACE_DET_ISP_HEIGHT := 0;
     CONFIG_APP_ENABLE_FACE_DETECTION := false;
     CONFIG_FACE_DET_BUFFER_COUNT := 3;
     CONFIG_FACE_DET_MIN_INTERVAL_MS := 0;
     CONFIG_FACE_DET_TASK_STACK_SIZE := 8192;
     CONFIG_FACE_DET_TASK_PRIORITY := 5 |}.

Record scenario := {
  (** is a held camera lock given back within the wait? *)
  sc_handed_over : bool;
  (** the format the device reports, and the result of each set-format *)
  sc_format : v4l2_format;
  sc_S_FMT : Z;
  (** the address [mmap] returns for the buffer at this offset *)
  sc_mmap : Z -> Z;
  sc_DQBUF : nat -> Z * Z * v4l2_buffer;
  sc_encode : nat -> esp_err_t * Z;
  sc_send_chunk : nat -> esp_err_t;
  sc_should_stop : nat -> bool
}.

Definition frame_size : Z := 614400.

(** A filled buffer. *)
Definition frame (i : nat) : v4l2_buffer :=
  {| index := i; buf_type := V4L2_BUF_TYPE_VIDEO_CAPTURE;
     buf_memory := V4L2_MEMORY_MMAP; flags := V4L2_BUF_FLAG_DONE;
     bytesused := frame_size; buf_length := frame_size;
     offset := Z.of_nat i * frame_size; tv_sec := 1; tv_usec := 0 |}.

Definition environment_of (sc : scenario) : environment :=
  {| env_mutex_created := fun _ => true;
     env_mutex_handed_over := fun _ _ => sc_handed_over sc;
     env_G_FMT := fun _ _ _ => (0, sc_format sc);
     env_S_FMT := fun _ _ fmt => (sc_S_FMT sc, fmt);
     env_REQBUFS := fun _ _ req => (0, req);
     env_QUERYBUF := fun _ _ buf => (0, frame (index buf));
     env_QBUF := fun _ _ _ => 0;
     env_DQBUF := fun t _ _ => sc_DQBUF sc t;
     env_STREAMON := fun _ _ => 0;
     env_STREAMOFF := fun _ _ => 0;
     env_mmap := fun _ _ _ off => sc_mmap sc off;
     env_calloc := fun _ _ => true;
     env_jpeg_new_encoder_engine := fun _ => (ESP_OK, 0x4000);
     env_jpeg_alloc_encoder_mem := fun _ size => (0x5000, size);
     env_jpeg_encoder_process := fun t _ _ => sc_encode sc t;
     env_httpd_resp_send_chunk := fun t _ => sc_send_chunk sc t;
     env_httpd_resp_send := fun _ _ => ESP_OK;
     env_httpd_start := fun _ => (ESP_OK, 0x6000);
     env_new_HumanFaceDetect := fun _ => Some 0x7000%positive;
     env_detector_run := fun _ _ => 1%nat;
     env_xTaskCreatePinnedToCore := fun _ => (pdPASS, 0x8000);
     env_esp_timer_get_time := fun t => Z.of_nat t * 1000;
     env_should_stop := sc_should_stop sc |}.

Definition rgb565_vga : v4l2_format :=
  {| type := V4L2_BUF_TYPE_VIDEO_CAPTURE; V4L2.width := 640; V4L2.height := 480;
     pixelformat := V4L2_PIX_FMT_RGB565; field := V4L2_FIELD_NONE |}.

(** 'B' 'G' '1' '0': 10-bit raw Bayer, what the sensor delivers when the
    ISP is bypassed. *)
Definition V4L2_PIX_FMT_SBGGR10 : Z := v4l2_fourcc 66 71 49 48.

Definition raw10_full : v4l2_format :=
  {| type := V4L2_BUF_TYPE_VIDEO_CAPTURE; V4L2.width := 1920; V4L2.height := 1080;
     pixelformat := V4L2_PIX_FMT_SBGGR10; field := V4L2_FIELD_NONE |}.

(** The client goes away after [n] instants: every later send fails. *)
Definition client_leaves_after (n : nat) (t : nat) : esp_err_t :=
  if (t <? n)%nat then ESP_OK else ESP_FAIL.

(** Frames arrive for ever, every picture is encoded, the client leaves
    after 40 instants. *)
Definition streaming : scenario :=
  {| sc_handed_over := false;
     sc_format := rgb565_vga;
     sc_S_FMT := 0;
     sc_mmap := fun off => 0x10000 + Z.abs off;
     sc_DQBUF := fun _ => (0, 0, frame 0);
     sc_encode := fun _ => (ESP_OK, 20000);
     sc_send_chunk := client_leaves_after 40;
     sc_should_stop := fun t => negb (t <? 40)%nat |}.

(** As [streaming], and the third [mmap] fails. *)
Definition third_map_fails : scenario :=
  {| sc_handed_over := false;
     sc_format := rgb565_vga;
     sc_S_FMT := 0;
     sc_mmap := fun off => if off =? 2 * frame_size then MAP_FAILED
                           else 0x10000 + Z.abs off;
     sc_DQBUF := fun _ => (0, 0, frame 0);
     sc_encode := fun _ => (ESP_OK, 20000);
     sc_send_chunk := client_leaves_after 20;
     sc_should_stop := fun t => negb (t <? 20)%nat |}.

(** The client never leaves, and the encoder fails on the pictures it is
    given before instant 30 (the first frame of a session that starts
    at once), not later. *)
Definition encoder_fails_once : scenario :=
  {| sc_handed_over := false;
     sc_format := rgb565_vga;
     sc_S_FMT := 0;
     sc_mmap := fun off => 0x10000 + Z.abs off;
     sc_DQBUF := fun _ => (0, 0, frame 0);
     sc_encode := fun t => if (t <? 30)%nat then (ESP_FAIL, 0) else (ESP_OK, 20000);
     sc_send_chunk := fun _ => ESP_OK;
     sc_should_stop := fun _ => false |}.

(** The client never leaves; dequeueing is interrupted ([EINTR]) before
    instant 30 and delivers frames afterwards. *)
Definition dequeue_interrupted_once : scenario :=
  {| sc_handed_over := false;
     sc_format := rgb565_vga;
     sc_S_FMT := 0;
     sc_mmap := fun off => 0x10000 + Z.abs off;
     sc_DQBUF := fun t => if (t <? 30)%nat then (-1, EINTR, zero_buffer)
                          else (0, 0, frame 0);
     sc_encode := fun _ => (ESP_OK, 20000);
     sc_send_chunk := fun _ => ESP_OK;
     sc_should_stop := fun t => negb (t <? 60)%nat |}.

(** The sensor delivers raw data at full size and refuses every other
    format. *)
Definition format_refused : scenario :=
  {| sc_handed_over := false;
     sc_format := raw10_full;
     sc_S_FMT := -1;
     sc_mmap := fun off => 0x10000 + Z.abs off;
     sc_DQBUF := fun _ => (0, 0, frame 0);
     sc_encode := fun _ => (ESP_OK, 20000);
     sc_send_chunk := client_leaves_after 20;
     sc_should_stop := fun t => negb (t <? 20)%nat |}.

(** The device delivers 8-bit grey pictures at full size and refuses
    every other format. *)
Definition grey_full : v4l2_format :=
  {| type := V4L2_BUF_TYPE_VIDEO_CAPTURE; V4L2.width := 1920; V4L2.height := 1080;
     pixelformat := V4L2_PIX_FMT_GREY; field := V4L2_FIELD_NONE |}.

Definition grey_refused : scenario :=
  {| sc_handed_over := false;
     sc_format := grey_full;
     sc_S_FMT := -1;
     sc_mmap := fun off => 0x10000 + Z.abs off;
     sc_DQBUF := fun _ => (0, 0, frame 0);
     sc_encode := fun _ => (ESP_OK, 20000);
     sc_send_chunk := client_leaves_after 20;
     sc_should_stop := fun t => negb (t <? 20)%nat |}.

(** The device delivers RGB565 at full size. *)
Definition rgb565_full : v4l2_format :=
  {| type := V4L2_BUF_TYPE_VIDEO_CAPTURE; V4L2.width := 1920; V4L2.height := 1080;
     pixelformat := V4L2_PIX_FMT_RGB565; field := V4L2_FIELD_NONE |}.

Definition rgb565_at_full_size : scenario :=
  {| sc_handed_over := false;
     sc_format := rgb565_full;
     sc_S_FMT := 0;
     sc_mmap := fun off => 0x10000 + Z.abs off;
     sc_DQBUF := fun _ => (0, 0, frame 0);
     sc_encode := fun _ => (ESP_OK, 20000);
     sc_send_chunk := client_leaves_after 20;
     sc_should_stop := fun t => negb (t <? 20)%nat |}.

(** As [streaming], and the driver reports buffer 7 of the three it
    granted. *)
Definition index_out_of_range : scenario :=
  {| sc_handed_over := false;
     sc_format := rgb565_vga;
     sc_S_FMT := 0;
     sc_mmap := fun off => 0x10000 + Z.abs off;
     sc_DQBUF := fun _ => (0, 0, frame 7);
     sc_encode := fun _ => (ESP_OK, 20000);
     sc_send_chunk := client_leaves_after 40;
     sc_should_stop := fun t => negb (t <? 40)%nat |}.

Definition boot {G} (g : G) : state G := mkState 0 [] g.

(** The server after a successful [camera_server_start] on descriptor 3. *)
Definition serving (sc : scenario) : state CameraServer.statics :=
  snd (CameraServer.camera_server_start sdk (environment_of sc) 3
         (boot CameraServer.initial_statics)).

(** The same, while another request holds the camera lock. *)
Definition serving_busy (sc : scenario) : state CameraServer.statics :=
  let s := serving sc in
  mkState (clock s) (log s)
    (CameraServer.set_lock (Some CameraServer.mutex_held) (globals s)).

(** The context the detection task starts from: [face_detect_start] has
    stored the descriptor and the detector. *)
Definition detecting (sc : scenario) : state FaceDetect.FaceDetectContext :=
  snd (FaceDetect.face_detect_start sdk (environment_of sc) 3 0
         (boot FaceDetect.initial_context)).

(** [env], except that the driver refuses every request for buffers. *)
Definition buffers_refused (env : environment) : environment :=
  {| env_mutex_created := env_mutex_created env;
     env_mutex_handed_over := env_mutex_handed_over env;
     env_G_FMT := env_G_FMT env;
     env_S_FMT := env_S_FMT env;
     env_REQBUFS := fun _ _ req => (-1, req);
     env_QUERYBUF := env_QUERYBUF env;
     env_QBUF := env_QBUF env;
     env_DQBUF := env_DQBUF env;
     env_STREAMON := env_STREAMON env;
     env_STREAMOFF := env_STREAMOFF env;
     env_mmap := env_mmap env;
     env_calloc := env_calloc env;
     env_jpeg_new_encoder_engine := env_jpeg_new_encoder_engine env;
     env_jpeg_alloc_encoder_mem := env_jpeg_alloc_encoder_mem env;
     env_jpeg_encoder_process := env_jpeg_encoder_process env;
     env_httpd_resp_send_chunk := env_httpd_resp_send_chunk env;
     env_httpd_resp_send := env_httpd_resp_send env;
     env_httpd_start := env_httpd_start env;
     env_new_HumanFaceDetect := env_new_HumanFaceDetect env;
     env_detector_run := env_detector_run env;
     env_xTaskCreatePinnedToCore := env_xTaskCreatePinnedToCore env;
     env_esp_timer_get_time := env_esp_timer_get_time env;
     env_should_stop := env_should_stop env |}.

(** [env], except that the heap is exhausted: [calloc] fails. *)
Definition heap_exhausted (env : environment) : environment :=
  {| env_mutex_created := env_mutex_created env;
     env_mutex_handed_over := env_mutex_handed_over env;
     env_G_FMT := env_G_FMT env;
     env_S_FMT := env_S_FMT env;
     env_REQBUFS := env_REQBUFS env;
     env_QUERYBUF := env_QUERYBUF env;
     env_QBUF := env_QBUF env;
     env_DQBUF := env_DQBUF env;
     env_STREAMON := env_STREAMON env;
     env_STREAMOFF := env_STREAMOFF env;
     env_mmap := env_mmap env;
     env_calloc := fun _ _ => false;
     env_jpeg_new_encoder_engine := env_jpeg_new_encoder_engine env;
     env_jpeg_alloc_encoder_mem := env_jpeg_alloc_encoder_mem env;
     env_jpeg_encoder_process := env_jpeg_encoder_process env;
     env_httpd_resp_send_chunk := env_httpd_resp_send_chunk env;
     env_httpd_resp_send := env_httpd_resp_send env;
     env_httpd_start := env_httpd_start env;
     env_new_HumanFaceDetect := env_new_HumanFaceDetect env;
     env_detector_run := env_detector_run env;
     env_xTaskCreatePinnedToCore := env_xTaskCreatePinnedToCore env;
     env_esp_timer_get_time := env_esp_timer_get_time env;
     env_should_stop := env_should_stop env |}.

(** The client never leaves; the buffers the driver hands out before
    instant 30 are not marked done, the later ones are. *)
Definition unfinished_buffers_first : scenario :=
  {| sc_handed_over := false;
     sc_format := rgb565_vga;
     sc_S_FMT := 0;
     sc_mmap := fun off => 0x10000 + Z.abs off;
     sc_DQBUF := fun t => if (t <? 30)%nat then (0, 0, zero_buffer)
                          else (0, 0, frame 0);
     sc_encode := fun _ => (ESP_OK, 20000);
     sc_send_chunk := fun _ => ESP_OK;
     sc_should_stop := fun _ => false |}.

(** The client never leaves; the device delivers frames before instant 40
    and fails every dequeue afterwards (errno 5, [EIO]). *)
Definition device_stops : scenario :=
  {| sc_handed_over := false;
     sc_format := rgb565_vga;
     sc_S_FMT := 0;
     sc_mmap := fun off => 0x10000 + Z.abs off;
     sc_DQBUF := fun t => if (t <? 40)%nat then (0, 0, frame 0)
                          else (-1, 5, zero_buffer);
     sc_encode := fun _ => (ESP_OK, 20000);
     sc_send_chunk := fun _ => ESP_OK;
     sc_should_stop := fun _ => false |}.

(** *** The sensor *)

(** A build that asks for 800x640 frames. *)
Definition camera_constants : CameraInit.constants :=
  {| CameraInit.CONFIG_CAMERA_FRAME_WIDTH := 800;
     CameraInit.CONFIG_CAMERA_FRAME_HEIGHT := 640;
     CameraInit.ESP_CAM_SENSOR_PIXFORMAT_RAW10 := 9 |}.

Definition board : CameraInit.camera_config_t :=
  {| CameraInit.i2c_port := 0; CameraInit.scl_pin := 8; CameraInit.sda_pin := 7;
     CameraInit.reset_pin := -1; CameraInit.pwdn_pin := -1;
     CameraInit.xclk_freq_hz := 24000000 |}.

Definition raw8_800x640 : CameraInit.esp_cam_sensor_format_t :=
  {| CameraInit.name := "MIPI_2lane_24Minput_RAW8_800x640_50fps";
     CameraInit.format := 8; CameraInit.width := 800; CameraInit.height := 640;
     CameraInit.fps := 50 |}.

Definition raw10_1920x1080 : CameraInit.esp_cam_sensor_format_t :=
  {| CameraInit.name := "MIPI_2lane_24Minput_RAW10_1920x1080_30fps";
     CameraInit.format := 9; CameraInit.width := 1920; CameraInit.height := 1080;
     CameraInit.fps := 30 |}.

Definition raw10_800x640 : CameraInit.esp_cam_sensor_format_t :=
  {| CameraInit.name := "MIPI_2lane_24Minput_RAW10_800x640_50fps";
     CameraInit.format := 9; CameraInit.width := 800; CameraInit.height := 640;
     CameraInit.fps := 50 |}.

(** The sensor answers and everything succeeds. *)
Definition sensor_present : CameraInit.answers :=
  {| CameraInit.a_i2c_new_master_bus := (ESP_OK, 0x100);
     CameraInit.a_sccb_new_i2c_io := (ESP_OK, 0x200);
     CameraInit.a_ov5647_detect := 0x300;
     CameraInit.a_query_format :=
       (ESP_OK, [raw8_800x640; raw10_1920x1080; raw10_800x640]);
     CameraInit.a_set_format := ESP_OK;
     CameraInit.a_esp_video_init := ESP_OK;
     CameraInit.a_open := 3;
     CameraInit.a_get_format := (ESP_OK, raw10_800x640) |}.

(** The sensor answers, and the video device cannot be opened. *)
Definition video_device_missing : CameraInit.answers :=
  {| CameraInit.a_i2c_new_master_bus := (ESP_OK, 0x100);
     CameraInit.a_sccb_new_i2c_io := (ESP_OK, 0x200);
     CameraInit.a_ov5647_detect := 0x300;
     CameraInit.a_query_format :=
       (ESP_OK, [raw8_800x640; raw10_1920x1080; raw10_800x640]);
     CameraInit.a_set_format := ESP_OK;
     CameraInit.a_esp_video_init := ESP_OK;
     CameraInit.a_open := -1;
     CameraInit.a_get_format := (ESP_OK, raw10_800x640) |}.

(** *** The access point *)

(** [WIFI_EVENT_STA_START], [WIFI_EVENT_STA_DISCONNECTED] and
    [IP_EVENT_STA_GOT_IP] as ESP-IDF numbers them, five retries. *)
Definition wifi_constants : AppMain.constants :=
  {| AppMain.CONFIG_ESP_MAXIMUM_RETRY := 5;
     AppMain.WIFI_EVENT_STA_START := 2;
     AppMain.WIFI_EVENT_STA_DISCONNECTED := 5;
     AppMain.IP_EVENT_STA_GOT_IP := 0 |}.

(** The station starts and the access point is never reached. *)
Definition access_point_away : list (AppMain.esp_event_base_t * Z) :=
  (AppMain.WIFI_EVENT, 2) :: replicate 8 (AppMain.WIFI_EVENT, 5).

End Scenario.

(** * Reasoning about runs *)

(** ** Relations every step of a computation respects *)

Section Respects.

Context {G : Type}.
Variable R : state G -> state G -> Prop.
Hypothesis R_refl : forall s, R s s.
Hypothesis R_trans : forall a b c, R a b -> R b c -> R a c.

Lemma respects_pure {A} (a : A) : respects R (pure a).
Proof using R_refl. intros s. apply R_refl. Qed.

Lemma respects_get : respects R get_globals.
Proof using R_refl. intros s. apply R_refl. Qed.

Lemma respects_bind {A B} (m : M G A) (k : A -> M G B) :
  respects R m -> (forall a, respects R (k a)) -> respects R (bind m k).
Proof using R_trans.
  intros Hm Hk s. unfold bind.
  specialize (Hm s). destruct (m s) as [a s1]. simpl in Hm.
  eapply R_trans; [exact Hm | apply Hk].
Qed.

End Respects.

Lemma logs_only_refl {G} P (s : state G) : logs_only P s s.
Proof.
  split; [reflexivity|]. split; [lia|].
  exists []. split; [by rewrite app_nil_r | constructor].
Qed.

Lemma logs_only_trans {G} P (a b c : state G) :
  logs_only P a b -> logs_only P b c -> logs_only P a c.
Proof.
  intros (Hg1 & Hc1 & e1 & Hl1 & Hf1) (Hg2 & Hc2 & e2 & Hl2 & Hf2).
  split; [congruence|]. split; [lia|].
  exists (e1 ++ e2). split.
  - rewrite Hl2, Hl1. by rewrite app_assoc.
  - by apply Forall_app.
Qed.

Lemma logs_only_call {G A} P (answer : nat -> A) (ev : A -> event) :
  (forall a, P (ev a)) -> respects (logs_only (G := G) P) (call answer ev).
Proof.
  intros HP s. unfold logs_only, call. simpl.
  split; [reflexivity|]. split; [lia|].
  eexists. split; [reflexivity|]. constructor; [apply HP | constructor].
Qed.

Lemma logs_only_sample {G A} P (answer : nat -> A) :
  respects (logs_only (G := G) P) (sample answer).
Proof.
  intros s. unfold logs_only, sample. simpl.
  split; [reflexivity|]. split; [lia|].
  exists []. split; [by rewrite app_nil_r | constructor].
Qed.

Lemma logs_only_events {G A} P (m : M G A) s :
  logs_only P s (snd (m s)) -> Forall P (events_of m s).
Proof.
  intros (_ & _ & evs & Hl & Hf). unfold events_of.
  rewrite Hl, drop_app_length. exact Hf.
Qed.

Lemma logs_only_mono {G} (P Q : event -> Prop) (s s' : state G) :
  (forall e, P e -> Q e) -> logs_only P s s' -> logs_only Q s s'.
Proof.
  intros HPQ (Hg & Hc & evs & Hl & Hf).
  split; [exact Hg|]. split; [exact Hc|].
  exists evs. split; [exact Hl|]. eapply Forall_impl; eauto.
Qed.

Lemma lo_pure {G A} P (a : A) : respects (logs_only (G := G) P) (pure a).
Proof. apply respects_pure, logs_only_refl. Qed.

Lemma lo_get {G} P : respects (logs_only (G := G) P) get_globals.
Proof. apply respects_get, logs_only_refl. Qed.

Lemma lo_bind {G A B} P (m : M G A) (k : A -> M G B) :
  respects (logs_only P) m -> (forall a, respects (logs_only P) (k a)) ->
  respects (logs_only P) (bind m k).
Proof. apply respects_bind, logs_only_trans. Qed.

Lemma lo_weaken {G A} (P Q : event -> Prop) (m : M G A) :
  (forall e, P e -> Q e) -> respects (logs_only P) m -> respects (logs_only Q) m.
Proof. intros HPQ Hm s. eapply logs_only_mono; [exact HPQ | apply Hm]. Qed.

(** Running [m] then [k]: the events are those of [m] followed by those of
    the continuation. *)
Lemma events_of_bind {G A B} (m : M G A) (k : A -> M G B) (s : state G) evs :
  log (snd (m s)) = log s ++ evs ->
  (exists evs', log (snd (k (fst (m s)) (snd (m s)))) = log (snd (m s)) ++ evs') ->
  events_of (bind m k) s = evs ++ events_of (k (fst (m s))) (snd (m s)).
Proof.
  intros Hm [evs' Hk]. unfold events_of, bind.
  destruct (m s) as [a s1]. simpl in *.
  rewrite Hk, drop_app_length, Hm, <- app_assoc, drop_app_length. reflexivity.
Qed.

Lemma events_of_extension {G A} (m : M G A) (s : state G) evs :
  log (snd (m s)) = log s ++ evs -> events_of m s = evs.
Proof. intros H. unfold events_of. by rewrite H, drop_app_length. Qed.

(** A log that grew by appending is an extension of the log it grew from. *)
Lemma extension_refl {A} (l : list A) : l = l ++ [].
Proof. by rewrite app_nil_r. Qed.

Lemma extension_app {A} (l l' evs more : list A) :
  l' = l ++ evs -> l' ++ more = l ++ (evs ++ more).
Proof. intros ->. by rewrite app_assoc. Qed.

Ltac log_extension := repeat apply extension_app; apply extension_refl.

(** [Forall P] over a list built from single events, for which [P] computes
    to [True], and lists known to satisfy it. *)
Ltac forall_events :=
  simpl;
  repeat first
    [ assumption
    | apply Forall_nil
    | constructor; [exact I|]
    | apply Forall_app; split ].

Lemma emits_only_refl {G} P (s : state G) : emits_only P s s.
Proof. exists []. split; [by rewrite app_nil_r | constructor]. Qed.

Lemma emits_only_trans {G} P (a b c : state G) :
  emits_only P a b -> emits_only P b c -> emits_only P a c.
Proof.
  intros (e1 & Hl1 & Hf1) (e2 & Hl2 & Hf2).
  exists (e1 ++ e2). split.
  - rewrite Hl2, Hl1. by rewrite app_assoc.
  - by apply Forall_app.
Qed.

Lemma logs_only_emits {G A} P (m : M G A) :
  respects (logs_only P) m -> respects (emits_only P) m.
Proof. intros H s. destruct (H s) as (_ & _ & evs & Hl & Hf). by exists evs. Qed.

Lemma eo_pure {G A} P (a : A) : respects (emits_only (G := G) P) (pure a).
Proof. apply respects_pure, emits_only_refl. Qed.

Lemma eo_get {G} P : respects (emits_only (G := G) P) get_globals.
Proof. apply respects_get, emits_only_refl. Qed.

Lemma eo_put {G} P (g : G) : respects (emits_only P) (put_globals g).
Proof. intros s. exists []. split; [by rewrite app_nil_r | constructor]. Qed.

Lemma eo_bind {G A B} P (m : M G A) (k : A -> M G B) :
  respects (emits_only P) m -> (forall a, respects (emits_only P) (k a)) ->
  respects (emits_only P) (bind m k).
Proof. apply respects_bind, emits_only_trans. Qed.

Lemma eo_call {G A} P (answer : nat -> A) (ev : A -> event) :
  (forall a, P (ev a)) -> respects (emits_only (G := G) P) (call answer ev).
Proof. intros HP. apply logs_only_emits, logs_only_call, HP. Qed.

Lemma eo_sample {G A} P (answer : nat -> A) :
  respects (emits_only (G := G) P) (sample answer).
Proof. apply logs_only_emits, logs_only_sample. Qed.

Lemma emits_only_events {G A} P (m : M G A) s :
  emits_only P s (snd (m s)) -> Forall P (events_of m s).
Proof.
  intros (evs & Hl & Hf). unfold events_of.
  rewrite Hl, drop_app_length. exact Hf.
Qed.

(** Decomposition of a computation by [logs_only_tac]: one rule per
    construct of the programs. *)
Ltac logs_only_step :=
  match goal with
  | H : respects _ ?m |- respects _ ?m => exact H
  | H : _ |- respects _ _ => solve [apply H]
  | |- respects _ (pure _) => first [apply lo_pure | apply eo_pure]
  | |- respects _ get_globals => first [apply lo_get | apply eo_get]
  | |- respects (emits_only _) (put_globals _) => apply eo_put
  | |- respects _ (bind _ _) => first [apply lo_bind | apply eo_bind]; [| intros ?]
  | |- respects _ (call _ _) =>
      first [apply logs_only_call | apply eo_call]; intros; exact I
  | |- respects _ (sample _) => first [apply logs_only_sample | apply eo_sample]
  | |- respects _ (match ?x with _ => _ end) => destruct x
  end.

Ltac unfold_calls :=
  unfold ioctl_G_FMT, ioctl_S_FMT, ioctl_REQBUFS, ioctl_QUERYBUF, ioctl_QBUF,
    ioctl_DQBUF, ioctl_STREAMON, ioctl_STREAMOFF, mmap, munmap, effect.

Ltac logs_only_tac := unfold_calls; repeat logs_only_step.

Lemma mapped_regions_app l1 l2 :
  mapped_regions (l1 ++ l2) = mapped_regions l1 ++ mapped_regions l2.
Proof.
  induction l1 as [|e l1 IH]; [reflexivity|].
  destruct e; simpl; try exact IH.
  match goal with
  | |- context [?a =? MAP_FAILED] => destruct (a =? MAP_FAILED)
  end; simpl; congruence.
Qed.

Lemma unmapped_regions_app l1 l2 :
  unmapped_regions (l1 ++ l2) = unmapped_regions l1 ++ unmapped_regions l2.
Proof.
  induction l1 as [|e l1 IH]; [reflexivity|].
  destruct e; simpl; congruence.
Qed.

Lemma no_mapping_regions (P : event -> Prop) l :
  (forall len off a, ~ P (E_mmap len off a)) -> Forall P l -> mapped_regions l = [].
Proof.
  intros HP. induction 1 as [|e l He _ IH]; [reflexivity|].
  destruct e; simpl; try exact IH. exfalso. eapply HP, He.
Qed.

Lemma no_unmapping_regions (P : event -> Prop) l :
  (forall a len, ~ P (E_munmap a len)) -> Forall P l -> unmapped_regions l = [].
Proof.
  intros HP. induction 1 as [|e l He _ IH]; [reflexivity|].
  destruct e; simpl; try exact IH. exfalso. eapply HP, He.
Qed.

Lemma unmapped_munmap_events rs : unmapped_regions (munmap_events rs) = rs.
Proof. induction rs as [|[a l] rs IH]; simpl; congruence. Qed.

Lemma mapped_munmap_events rs : mapped_regions (munmap_events rs) = [].
Proof. induction rs as [|[a l] rs IH]; simpl; congruence. Qed.

Lemma no_lock_munmap_events rs : Forall no_lock_event (munmap_events rs).
Proof. induction rs; simpl; constructor; auto. exact I. Qed.

(** * Properties of [main/camera_server.c] *)

Module CameraServerProofs.
Import CameraServer CameraServerSpec.

Section Sessions.

Variable cfg : sdkconfig.
Variable env : environment.

Lemma jpeg_encode_frame_streaming src size :
  respects (logs_only streaming_event) (jpeg_encode_frame env src size).
Proof. unfold jpeg_encode_frame. logs_only_tac. Qed.

Lemma stream_loop_streaming fuel bufs :
  respects (logs_only streaming_event) (stream_loop env fuel bufs).
Proof.
  induction fuel as [|fuel IH]; simpl.
  - apply lo_pure.
  - pose proof jpeg_encode_frame_streaming.
    unfold httpd_resp_send_chunk. logs_only_tac.
Qed.

Lemma streaming_is_session e : streaming_event e -> session_event e.
Proof. destruct e; simpl; tauto. Qed.

Lemma stream_map_buffers_session todo bufs :
  respects (logs_only session_event) (stream_map_buffers env todo bufs).
Proof.
  revert bufs. induction todo as [|i todo IH]; intros bufs; simpl.
  - apply lo_pure.
  - logs_only_tac.
Qed.

Lemma stream_session_session fuel :
  respects (logs_only session_event) (stream_session env fuel).
Proof.
  unfold stream_session.
  pose proof (fun b => lo_weaken _ _ _ streaming_is_session
                         (stream_loop_streaming fuel b)) as Hloop.
  pose proof stream_map_buffers_session as Hmap.
  unfold httpd_resp_set_type, httpd_resp_set_hdr, httpd_resp_send_err, calloc.
  logs_only_tac.
Qed.

Lemma capture_session_session :
  respects (logs_only session_event) (capture_session env).
Proof.
  unfold capture_session.
  pose proof (fun a b => lo_weaken _ _ _ streaming_is_session
                         (jpeg_encode_frame_streaming a b)) as Henc.
  unfold httpd_resp_set_type, httpd_resp_set_hdr, httpd_resp_send_err,
    httpd_resp_send.
  logs_only_tac.
Qed.

(** *** The camera lock *)

Lemma set_lock_same g : set_lock (lock (s_stream_state g)) g = g.
Proof. destruct g as [? ? [] ?]; reflexivity. Qed.

Lemma lock_set_lock l g : lock (s_stream_state (set_lock l g)) = l.
Proof. reflexivity. Qed.

(** A refused acquisition: either there is no mutex at all, or the one
    wait of [CAMERA_LOCK_TIMEOUT_MS] expired. *)
Lemma camera_lock_acquire_denied s :
  fst (camera_lock_acquire cfg env s) = false ->
  let s1 := snd (camera_lock_acquire cfg env s) in
  globals s1 = globals s /\
  ((lock_of s = None /\ log s1 = log s) \/
   (lock_of s = Some mutex_held /\
    log s1 = log s ++ [E_xSemaphoreTake (lock_ticks cfg) false])).
Proof.
  unfold camera_lock_acquire, lock_of, bind, get_globals, xSemaphoreTake, call,
    put_globals, pure.
  destruct (lock (s_stream_state (globals s))) as [[|]|] eqn:Hl; simpl.
  - discriminate.
  - destruct (env_mutex_handed_over env (clock s) _); simpl; [discriminate|].
    intros _. split; [|right; split; reflexivity].
    rewrite <- Hl. apply set_lock_same.
  - intros _. split; [reflexivity|]. left. split; reflexivity.
Qed.

(** A granted acquisition: the mutex is now held. *)
Lemma camera_lock_acquire_granted s :
  fst (camera_lock_acquire cfg env s) = true ->
  let s1 := snd (camera_lock_acquire cfg env s) in
  lock_of s1 = Some mutex_held /\
  log s1 = log s ++ [E_xSemaphoreTake (lock_ticks cfg) true].
Proof.
  unfold camera_lock_acquire, lock_of, bind, get_globals, xSemaphoreTake, call,
    put_globals, pure.
  destruct (lock (s_stream_state (globals s))) as [[|]|] eqn:Hl; simpl.
  - intros _. split; reflexivity.
  - destruct (env_mutex_handed_over env (clock s) _); simpl; [|discriminate].
    intros _. split; reflexivity.
  - discriminate.
Qed.

(** Releasing the mutex while holding it gives it back. *)
Lemma camera_lock_release_held s :
  lock_of s = Some mutex_held ->
  let s1 := snd (camera_lock_release s) in
  lock_of s1 = Some mutex_free /\ log s1 = log s ++ [E_xSemaphoreGive true].
Proof.
  unfold camera_lock_release, lock_of, bind, get_globals, xSemaphoreGive, call,
    put_globals, pure.
  intros ->. simpl. split; reflexivity.
Qed.

(** *** Mapping and unmapping *)

Lemma regions_app l1 l2 : regions (l1 ++ l2) = regions l1 ++ regions l2.
Proof.
  induction l1 as [|b l1 IH]; [reflexivity|]. simpl.
  destruct (nonzero (addr b)); simpl; congruence.
Qed.

Lemma regions_null k : regions (replicate k null_buffer) = [].
Proof. induction k; simpl; auto. Qed.

Lemma insert_next (done : list mapped_buffer_t) b b0 rest :
  <[length done := b]> (done ++ b0 :: rest) = done ++ b :: rest.
Proof.
  rewrite insert_app_r_alt by lia. by rewrite Nat.sub_diag.
Qed.

(** The mapping loop fills the descriptors from the first index to do
    onwards; the regions it leaves in them are those [mmap] returned. *)
Lemma stream_map_buffers_spec k :
  forall done s r bufs s',
    stream_map_buffers env (seq (length done) k)
      (done ++ replicate k null_buffer) s = (r, bufs, s') ->
    exists rest evs,
      bufs = done ++ rest /\ length rest = k /\
      globals s' = globals s /\ log s' = log s ++ evs /\
      Forall session_event evs /\
      ((mmap_sane env) -> mapped_regions evs = regions rest).
Proof.
  induction k as [|k IH]; intros done s r bufs s' H.
  - simpl in H. injection H as <- <- <-.
    exists [], []. rewrite !app_nil_r. repeat split; constructor.
  - simpl in H.
    unfold bind, get_globals, ioctl_QUERYBUF, mmap, ioctl_QBUF, call in H.
    simpl in H.
    destruct (env_QUERYBUF env (clock s) _ _) as [rc buf].
    destruct (rc <? 0).
    { injection H as <- <- <-.
      exists (null_buffer :: replicate k null_buffer), [E_ioctl (s_camera_fd (globals s)) VIDIOC_QUERYBUF rc].
      simpl. rewrite regions_null, length_replicate.
      repeat split; repeat constructor. }
    simpl in H. rewrite !insert_next in H.
    set (a := env_mmap env (S (clock s)) _ _ _) in *.
    destruct (a =? MAP_FAILED) eqn:Hfail.
    { injection H as <- <- <-.
      exists ({| addr := NULL; len := buf_length buf |} :: replicate k null_buffer).
      eexists. simpl. rewrite <- app_assoc, regions_null, length_replicate.
      split; [reflexivity|]. split; [reflexivity|]. split; [reflexivity|].
      split; [reflexivity|]. split; [repeat constructor|].
      simpl. rewrite Hfail. reflexivity. }
    assert (Ha : (mmap_sane env) -> nonzero a = true).
    { intros Hsane. unfold nonzero. apply negb_true_iff, Z.eqb_neq. apply Hsane. }
    simpl in H.
    destruct (env_QBUF env _ _ _ <? 0).
    { injection H as <- <- <-.
      exists ({| addr := a; len := buf_length buf |} :: replicate k null_buffer).
      eexists. simpl. rewrite <- !app_assoc, regions_null, length_replicate.
      split; [reflexivity|]. split; [reflexivity|]. split; [reflexivity|].
      split; [reflexivity|]. split; [repeat constructor|].
      intros Hsane. simpl. rewrite Hfail, (Ha Hsane). reflexivity. }
    replace (done ++ {| addr := a; len := buf_length buf |} :: replicate k null_buffer)
      with ((done ++ [{| addr := a; len := buf_length buf |}])
              ++ replicate k null_buffer) in H
      by (by rewrite <- app_assoc).
    replace (S (length done))
      with (length (done ++ [{| addr := a; len := buf_length buf |}])) in H
      by (rewrite length_app; simpl; lia).
    apply IH in H as (rest & evs & -> & Hlen & Hg & Hl & Hf & Hm).
    exists ({| addr := a; len := buf_length buf |} :: rest).
    eexists.
    split; [by rewrite <- app_assoc|]. split; [simpl; lia|].
    split; [exact Hg|].
    split; [rewrite Hl; simpl; rewrite <- !app_assoc; reflexivity|]. split.
    + simpl. repeat (constructor; [exact I|]). exact Hf.
    + intros Hsane. simpl. rewrite Hfail, (Ha Hsane), (Hm Hsane). reflexivity.
Qed.

Lemma unmap_buffers_spec bufs k :
  forall start s,
    (start + k = length bufs)%nat ->
    let s' := snd (unmap_buffers (seq start k) bufs s) in
    globals s' = globals s /\
    log s' = log s ++ munmap_events (regions (drop start bufs)).
Proof.
  induction k as [|k IH]; intros start s Hlen; simpl.
  - rewrite drop_ge by lia. simpl. by rewrite app_nil_r.
  - destruct (lookup_lt_is_Some_2 bufs start) as [b Hb]; [lia|].
    rewrite (drop_S _ _ _ Hb). simpl.
    unfold bind. rewrite Hb.
    destruct (nonzero (addr b)); unfold munmap, call, pure; simpl.
    + match goal with
      | |- context [unmap_buffers _ _ ?s1] =>
          destruct (IH (S start) s1) as [Hg Hl]; [lia|]
      end.
      simpl in *. rewrite Hg, Hl, <- app_assoc. split; reflexivity.
    + apply IH. lia.
Qed.

Lemma stream_session_spec fuel s l s' :
  stream_session env fuel s = (Some l, s') ->
  globals s' = globals s /\
  (forall bufs, buffers l = Some bufs -> length bufs = count (req_buf l)) /\
  exists evs,
    log s' = log s ++ evs /\ Forall session_event evs /\
    ((mmap_sane env) -> mapped_regions evs = held_regions (buffers l)).
Proof.
  intros H.
  unfold stream_session, bind, httpd_resp_set_type, httpd_resp_set_hdr,
    httpd_resp_send_err, calloc, effect, get_globals, ioctl_REQBUFS,
    ioctl_STREAMON, call, pure in H.
  simpl in H.
  destruct (env_REQBUFS env _ _ _) as [rc req].
  destruct ((rc <? 0) || (count req =? 0)%nat).
  { injection H as <- <-. simpl. split; [reflexivity|].
    split; [discriminate|].
    eexists. split; [rewrite <- !app_assoc; reflexivity|].
    split; [simpl; repeat constructor | reflexivity]. }
  simpl in H. destruct (env_calloc env _ _); simpl in H.
  2:{ injection H as <- <-. simpl. split; [reflexivity|].
      split; [discriminate|].
      eexists. split; [rewrite <- !app_assoc; reflexivity|].
      split; [simpl; repeat constructor | reflexivity]. }
  destruct (stream_map_buffers env _ _ _) as [[r bufs] s1] eqn:Hmap.
  apply (stream_map_buffers_spec _ []) in Hmap
    as (rest & evs & -> & Hlen & Hg & Hl & Hf & Hm).
  simpl in Hg, Hl.
  destruct (r =? ESP_OK); simpl in H.
  2:{ injection H as <- <-. simpl. split; [exact Hg|].
      split; [by intros ? [= <-]|].
      eexists. split; [rewrite Hl, <- !app_assoc; reflexivity|].
      split; [simpl; repeat (constructor; [exact I|]); exact Hf|].
      exact Hm. }
  destruct (env_STREAMON env _ _ <? 0).
  { injection H as <- <-. simpl. split; [exact Hg|].
    split; [by intros ? [= <-]|].
    eexists. split; [rewrite Hl, <- !app_assoc; reflexivity|].
    split.
    - simpl. repeat (constructor; [exact I|]).
      apply Forall_app. split; [exact Hf | repeat constructor].
    - intros Hsane. simpl. rewrite mapped_regions_app, (Hm Hsane). simpl.
      by rewrite app_nil_r. }
  match type of H with
  | context [stream_loop env fuel ?b ?s2] =>
      pose proof (stream_loop_streaming fuel b s2) as (Hg2 & _ & evs2 & Hl2 & Hf2);
      destruct (stream_loop env fuel b s2) as [[r2|] s3]
  end; [|discriminate].
  injection H as <- <-. simpl in *. split; [congruence|].
  split; [by intros ? [= <-]|].
  eexists. split; [rewrite Hl2, Hl, <- !app_assoc; reflexivity|].
  split.
  - simpl. repeat (constructor; [exact I|]).
    apply Forall_app. split; [exact Hf|]. constructor; [exact I|].
    eapply Forall_impl; [|exact Hf2]. apply streaming_is_session.
  - intros Hsane. simpl. rewrite !mapped_regions_app, (Hm Hsane). simpl.
    rewrite (no_mapping_regions streaming_event evs2); auto.
    by rewrite app_nil_r.
Qed.

Lemma stream_cleanup_spec l s :
  lock_of s = Some mutex_held ->
  (forall bufs, buffers l = Some bufs -> length bufs = count (req_buf l)) ->
  let s' := snd (stream_cleanup env l s) in
  lock_of s' = Some mutex_free /\
  exists evs,
    log s' = log s ++ evs ++ [E_xSemaphoreGive true] /\
    Forall no_lock_event evs /\
    mapped_regions evs = [] /\
    unmapped_regions evs = held_regions (buffers l).
Proof.
  intros Hlock Hlen.
  unfold stream_cleanup, bind, get_globals, ioctl_STREAMOFF, effect, call, pure.
  destruct (stream_started l), (buffers l) as [bufs|] eqn:Hb; simpl;
    try (match goal with
         | |- context [unmap_buffers _ bufs ?s1] =>
             destruct (unmap_buffers_spec bufs (count (req_buf l)) O s1)
               as [Hg2 Hl2]; [rewrite (Hlen bufs); auto|];
             simpl in Hg2, Hl2; rewrite drop_0 in Hl2;
             destruct (unmap_buffers _ bufs s1) as [[] s2]; simpl in *
         end);
    match goal with
    | |- context [camera_lock_release ?s3] =>
        destruct (camera_lock_release_held s3) as [Hk Hl3];
        [unfold lock_of in *; simpl; congruence|]
    end;
    simpl in Hk, Hl3; (split; [exact Hk|]);
    rewrite Hl3; simpl; try rewrite Hl2.
  - exists ([E_ioctl (s_camera_fd (globals s)) VIDIOC_STREAMOFF
               (env_STREAMOFF env (clock s) (s_camera_fd (globals s)))]
            ++ munmap_events (regions bufs) ++ [E_free]).
    split; [by rewrite <- !app_assoc|].
    rewrite !Forall_app, !mapped_regions_app, !unmapped_regions_app,
      mapped_munmap_events, unmapped_munmap_events. simpl.
    rewrite app_nil_r.
    repeat split; auto using no_lock_munmap_events; repeat constructor.
  - exists [E_ioctl (s_camera_fd (globals s)) VIDIOC_STREAMOFF
              (env_STREAMOFF env (clock s) (s_camera_fd (globals s)))].
    split; [by rewrite <- !app_assoc|].
    repeat split; repeat constructor.
  - exists (munmap_events (regions bufs) ++ [E_free]).
    split; [by rewrite <- !app_assoc|].
    rewrite !Forall_app, !mapped_regions_app, !unmapped_regions_app,
      mapped_munmap_events, unmapped_munmap_events. simpl.
    rewrite app_nil_r.
    repeat split; auto using no_lock_munmap_events; repeat constructor.
  - exists []. repeat split; constructor.
Qed.

Lemma session_no_lock e : session_event e -> no_lock_event e.
Proof. destruct e; simpl; tauto. Qed.

(** A run of the stream handler that got the lock: the take, the
    session and the teardown, then the give. *)
Lemma stream_handler_granted fuel s r s' :
  fst (camera_lock_acquire cfg env s) = true ->
  stream_handler cfg env fuel s = (Some r, s') ->
  lock_of s' = Some mutex_free /\
  exists body,
    log s' = log s ++ [E_xSemaphoreTake (lock_ticks cfg) true] ++ body
               ++ [E_xSemaphoreGive true] /\
    Forall no_lock_event body /\
    ((mmap_sane env) -> mapped_regions body = unmapped_regions body).
Proof.
  intros Hacq H. unfold stream_handler, bind in H.
  pose proof (camera_lock_acquire_granted s Hacq) as [Hk Hl]. simpl in Hk, Hl.
  destruct (camera_lock_acquire cfg env s) as [b s1]. simpl in *. subst b.
  simpl in H.
  destruct (stream_session env fuel s1) as [[l|] s2] eqn:Hs; [|discriminate].
  apply stream_session_spec in Hs as (Hg & Hlen & evs & Hl2 & Hf & Hm).
  destruct (stream_cleanup_spec l s2) as (Hk3 & evs3 & Hl3 & Hf3 & Hm3 & Hu3);
    [unfold lock_of in *; congruence | exact Hlen |].
  destruct (stream_cleanup env l s2) as [[] s3]. simpl in *.
  injection H as <- <-. split; [exact Hk3|].
  exists (evs ++ evs3).
  split; [rewrite Hl3, Hl2, Hl, <- !app_assoc; reflexivity|].
  split.
  - apply Forall_app. split; [|exact Hf3].
    eapply Forall_impl; [|exact Hf]. apply session_no_lock.
  - intros Hsane.
    rewrite mapped_regions_app, unmapped_regions_app, Hm3, Hu3, (Hm Hsane).
    rewrite (no_unmapping_regions session_event evs); auto.
    by rewrite app_nil_r.
Qed.

(** A run of either handler that did not get the lock. *)
Lemma stream_handler_denied fuel s :
  fst (camera_lock_acquire cfg env s) = false ->
  fst (stream_handler cfg env fuel s) = Some ESP_FAIL /\
  events_of (stream_handler cfg env fuel) s
  = events_of (camera_lock_acquire cfg env) s ++ [camera_busy].
Proof.
  intros Hacq. unfold stream_handler, events_of, bind.
  destruct (camera_lock_acquire_denied s Hacq) as [_ Hl]. simpl in Hl.
  destruct (camera_lock_acquire cfg env s) as [b s1]. simpl in *. subst b.
  simpl. split; [reflexivity|].
  destruct Hl as [[_ Hl]|[_ Hl]]; rewrite Hl.
  - rewrite !drop_app_length, drop_all. reflexivity.
  - rewrite <- app_assoc, !drop_app_length. reflexivity.
Qed.

Lemma capture_handler_denied s :
  fst (camera_lock_acquire cfg env s) = false ->
  fst (capture_handler cfg env s) = ESP_FAIL /\
  events_of (capture_handler cfg env) s
  = events_of (camera_lock_acquire cfg env) s ++ [camera_busy].
Proof.
  intros Hacq. unfold capture_handler, events_of, bind.
  destruct (camera_lock_acquire_denied s Hacq) as [_ Hl]. simpl in Hl.
  destruct (camera_lock_acquire cfg env s) as [b s1]. simpl in *. subst b.
  simpl. split; [reflexivity|].
  destruct Hl as [[_ Hl]|[_ Hl]]; rewrite Hl.
  - rewrite !drop_app_length, drop_all. reflexivity.
  - rewrite <- app_assoc, !drop_app_length. reflexivity.
Qed.

Lemma capture_session_spec s :
  let l := fst (capture_session env s) in
  let s' := snd (capture_session env s) in
  globals s' = globals s /\
  exists evs,
    log s' = log s ++ evs /\ Forall session_event evs /\
    ((mmap_sane env) -> mapped_regions evs = regions [buffer l]).
Proof.
  unfold capture_session, bind, httpd_resp_set_type, httpd_resp_set_hdr,
    httpd_resp_send_err, httpd_resp_send, effect, get_globals,
    ioctl_REQBUFS, ioctl_QUERYBUF, ioctl_QBUF, ioctl_STREAMON, ioctl_DQBUF,
    mmap, call, pure.
  simpl.
  destruct (env_REQBUFS env _ _ _) as [rc req].
  destruct ((rc <? 0) || (count req =? 0)%nat); simpl.
  { split; [reflexivity|]. eexists. split; [log_extension|].
    split; [simpl; repeat constructor | reflexivity]. }
  destruct (env_QUERYBUF env _ _ _) as [rc1 buf]. destruct (rc1 <? 0); simpl.
  { split; [reflexivity|]. eexists. split; [log_extension|].
    split; [simpl; repeat constructor | reflexivity]. }
  set (a := env_mmap env _ _ _ _).
  assert (Ha : (mmap_sane env) -> nonzero a = true).
  { intros Hsane. unfold nonzero. apply negb_true_iff, Z.eqb_neq. apply Hsane. }
  destruct (a =? MAP_FAILED) eqn:Hfail; simpl.
  { split; [reflexivity|]. eexists. split; [log_extension|].
    split; [simpl; repeat constructor|].
    intros _. simpl. rewrite Hfail. reflexivity. }
  destruct (env_QBUF env _ _ _ <? 0); simpl.
  { split; [reflexivity|]. eexists. split; [log_extension|].
    split; [simpl; repeat constructor|].
    intros Hsane. simpl. rewrite Hfail, (Ha Hsane). reflexivity. }
  destruct (env_STREAMON env _ _ <? 0); simpl.
  { split; [reflexivity|]. eexists. split; [log_extension|].
    split; [simpl; repeat constructor|].
    intros Hsane. simpl. rewrite Hfail, (Ha Hsane). reflexivity. }
  destruct (env_DQBUF env _ _ _) as [[rc2 errno] buf2]. simpl.
  destruct (rc2 <? 0); simpl.
  { split; [reflexivity|]. eexists. split; [log_extension|].
    split; [simpl; repeat constructor|].
    intros Hsane. simpl. rewrite Hfail, (Ha Hsane). reflexivity. }
  match goal with
  | |- context [jpeg_encode_frame env ?src ?size ?s1] =>
      pose proof (jpeg_encode_frame_streaming src size s1)
        as (Hg & _ & evs & Hl & Hf);
      destruct (jpeg_encode_frame env src size s1) as [[[err jb] js] s2]
  end.
  simpl in Hg, Hl.
  assert (Hm : mapped_regions evs = [])
    by (apply (no_mapping_regions streaming_event); auto).
  assert (Hf' : Forall session_event evs)
    by (eapply Forall_impl; [|exact Hf]; apply streaming_is_session).
  destruct (err =? ESP_OK); simpl.
  - split; [exact Hg|]. eexists. split; [rewrite Hl; log_extension|].
    split; [forall_events|].
    intros Hsane. simpl. rewrite Hfail, (Ha Hsane).
    rewrite !mapped_regions_app, Hm. reflexivity.
  - split; [exact Hg|]. eexists. split; [rewrite Hl; log_extension|].
    split; [forall_events|].
    intros Hsane. simpl. rewrite Hfail, (Ha Hsane), Hm. reflexivity.
Qed.

Lemma capture_cleanup_spec l s :
  lock_of s = Some mutex_held ->
  let s' := snd (capture_cleanup env l s) in
  lock_of s' = Some mutex_free /\
  exists evs,
    log s' = log s ++ evs ++ [E_xSemaphoreGive true] /\
    Forall no_lock_event evs /\
    mapped_regions evs = [] /\
    unmapped_regions evs = regions [buffer l].
Proof.
  intros Hlock.
  unfold capture_cleanup, bind, get_globals, ioctl_STREAMOFF, munmap, call, pure.
  simpl.
  destruct (cap_stream_started l), (nonzero (addr (buffer l))); simpl;
    match goal with
    | |- context [camera_lock_release ?s3] =>
        destruct (camera_lock_release_held s3) as [Hk Hl3];
        [unfold lock_of in *; simpl; congruence|]
    end;
    simpl in Hk, Hl3; (split; [exact Hk|]); rewrite Hl3.
  - exists [E_ioctl (s_camera_fd (globals s)) VIDIOC_STREAMOFF
              (env_STREAMOFF env (clock s) (s_camera_fd (globals s)));
            E_munmap (addr (buffer l)) (len (buffer l))].
    split; [by rewrite <- !app_assoc|]. repeat split; repeat constructor.
  - exists [E_ioctl (s_camera_fd (globals s)) VIDIOC_STREAMOFF
              (env_STREAMOFF env (clock s) (s_camera_fd (globals s)))].
    split; [by rewrite <- !app_assoc|]. repeat split; repeat constructor.
  - exists [E_munmap (addr (buffer l)) (len (buffer l))].
    split; [by rewrite <- !app_assoc|]. repeat split; repeat constructor.
  - exists []. repeat split; constructor.
Qed.

Lemma capture_handler_granted s :
  fst (camera_lock_acquire cfg env s) = true ->
  let s' := snd (capture_handler cfg env s) in
  lock_of s' = Some mutex_free /\
  exists body,
    log s' = log s ++ [E_xSemaphoreTake (lock_ticks cfg) true] ++ body
               ++ [E_xSemaphoreGive true] /\
    Forall no_lock_event body /\
    ((mmap_sane env) -> mapped_regions body = unmapped_regions body).
Proof.
  intros Hacq. unfold capture_handler, bind.
  pose proof (camera_lock_acquire_granted s Hacq) as [Hk Hl]. simpl in Hk, Hl.
  destruct (camera_lock_acquire cfg env s) as [b s1]. simpl in *. subst b.
  simpl.
  pose proof (capture_session_spec s1) as (Hg & evs & Hl2 & Hf & Hm).
  destruct (capture_session env s1) as [l s2]. simpl in *.
  destruct (capture_cleanup_spec l s2) as (Hk3 & evs3 & Hl3 & Hf3 & Hm3 & Hu3);
    [unfold lock_of in *; congruence |].
  destruct (capture_cleanup env l s2) as [[] s3]. simpl in *.
  split; [exact Hk3|].
  exists (evs ++ evs3).
  split; [rewrite Hl3, Hl2, Hl, <- !app_assoc; reflexivity|].
  split.
  - apply Forall_app. split; [|exact Hf3].
    eapply Forall_impl; [|exact Hf]. apply session_no_lock.
  - intros Hsane.
    rewrite mapped_regions_app, unmapped_regions_app, Hm3, Hu3, (Hm Hsane).
    rewrite (no_unmapping_regions session_event evs); auto.
    by rewrite app_nil_r.
Qed.

End Sessions.

End CameraServerProofs.


(** * Properties of [main/face_detect_task.cpp] *)

Module FaceDetectProofs.
Import FaceDetect FaceDetectSpec.

Section Task.

Variable cfg : sdkconfig.
Variable env : environment.

(** The task never touches a semaphore. *)
Lemma detection_loop_quiet fuel :
  forall interval frame_count face_count last_fps_log,
    respects (logs_only quiet_event)
      (detection_loop env fuel interval frame_count face_count last_fps_log).
Proof.
  induction fuel as [|fuel IH]; intros; simpl.
  - apply lo_pure.
  - unfold detector_run, esp_timer_get_time. logs_only_tac.
Qed.

Lemma quiet_no_lock e : quiet_event e -> no_lock_event e.
Proof. destruct e; simpl; tauto. Qed.

Lemma session_event_no_lock e : session_event e -> no_lock_event e.
Proof. destruct e; simpl; tauto. Qed.

Lemma map_buffers_no_lock todo :
  respects (emits_only no_lock_event) (map_buffers env todo).
Proof. induction todo as [|i todo IH]; simpl; logs_only_tac. Qed.

Lemma unmap_buffers_no_lock todo :
  respects (emits_only no_lock_event) (unmap_buffers todo).
Proof. induction todo as [|b todo IH]; simpl; logs_only_tac. Qed.

Lemma detection_task_no_lock fuel :
  respects (emits_only no_lock_event) (detection_task cfg env fuel).
Proof.
  pose proof (fun i a b c =>
                logs_only_emits _ _
                  (lo_weaken _ _ _ quiet_no_lock
                     (detection_loop_quiet fuel i a b c))) as Hloop.
  pose proof map_buffers_no_lock as Hmap.
  pose proof unmap_buffers_no_lock as Hunmap.
  unfold detection_task, detection_session, detection_teardown,
    configure_camera_device, init_v4l2_buffers, release_buffers,
    esp_timer_get_time.
  logs_only_tac.
Qed.

(** *** Mapping and unmapping *)

Lemma regions_null_buffers k : regions (replicate k null_buffer) = [].
Proof. induction k; simpl; auto. Qed.

Lemma insert_next_mapped (done : list MappedBuffer) b b0 rest :
  <[length done := b]> (done ++ b0 :: rest) = done ++ b :: rest.
Proof.
  rewrite insert_app_r_alt by lia. by rewrite Nat.sub_diag.
Qed.

Lemma map_buffers_spec k :
  forall done s r s',
    buffers (globals s) = done ++ replicate k null_buffer ->
    map_buffers env (seq (length done) k) s = (r, s') ->
    exists rest evs,
      buffers (globals s') = done ++ rest /\ length rest = k /\
      log s' = log s ++ evs /\ Forall session_event evs /\
      (mmap_sane env -> mapped_regions evs = regions rest).
Proof.
  induction k as [|k IH]; intros done s r s' Hb H.
  - simpl in H. injection H as <- <-.
    exists [], []. rewrite !app_nil_r. simpl in Hb. rewrite app_nil_r in Hb.
    repeat split; auto.
  - simpl in H.
    unfold bind, get_globals, put_globals, ioctl_QUERYBUF, mmap, ioctl_QBUF,
      call, pure in H.
    simpl in H.
    destruct (env_QUERYBUF env (clock s) _ _) as [rc buf].
    destruct (rc <? 0).
    { injection H as <- <-.
      exists (null_buffer :: replicate k null_buffer). eexists.
      simpl. rewrite regions_null_buffers, length_replicate.
      split; [exact Hb|]. split; [reflexivity|]. split; [reflexivity|].
      split; [repeat constructor | reflexivity]. }
    simpl in H. rewrite Hb in H. simpl in H. rewrite !insert_next_mapped in H.
    set (a := env_mmap env (S (clock s)) _ _ _) in *.
    destruct (a =? MAP_FAILED) eqn:Hfail; simpl in H.
    { injection H as <- <-.
      exists ({| addr := NULL; len := buf_length buf |} :: replicate k null_buffer).
      eexists. simpl. rewrite regions_null_buffers, length_replicate.
      split; [reflexivity|]. split; [reflexivity|].
      split; [log_extension|]. split; [forall_events|].
      intros _. simpl. rewrite Hfail. reflexivity. }
    assert (Ha : mmap_sane env -> nonzero a = true).
    { intros Hsane. unfold nonzero. apply negb_true_iff, Z.eqb_neq. apply Hsane. }
    destruct (env_QBUF env _ _ _ <? 0).
    { injection H as <- <-.
      exists ({| addr := a; len := buf_length buf |} :: replicate k null_buffer).
      eexists. simpl. rewrite regions_null_buffers, length_replicate.
      split; [reflexivity|]. split; [reflexivity|].
      split; [log_extension|]. split; [forall_events|].
      intros Hsane. simpl. rewrite Hfail, (Ha Hsane). reflexivity. }
    replace (S (length done))
      with (length (done ++ [{| addr := a; len := buf_length buf |}])) in H
      by (rewrite length_app; simpl; lia).
    apply IH in H as (rest & evs & Hb' & Hlen & Hl & Hf & Hm);
      [|simpl; by rewrite <- app_assoc].
    exists ({| addr := a; len := buf_length buf |} :: rest). eexists.
    split; [rewrite Hb'; by rewrite <- app_assoc|]. split; [simpl; lia|].
    split; [rewrite Hl; simpl; log_extension|]. split; [forall_events|].
    intros Hsane. simpl. rewrite Hfail, (Ha Hsane), (Hm Hsane). reflexivity.
Qed.

Lemma release_unmap_buffers_spec todo :
  forall s,
    let s' := snd (unmap_buffers todo s) in
    globals s' = globals s /\ log s' = log s ++ munmap_events (regions todo).
Proof.
  induction todo as [|b todo IH]; intros s; simpl.
  - by rewrite app_nil_r.
  - unfold bind.
    destruct (nonzero (addr b) && negb (addr b =? MAP_FAILED));
      unfold munmap, call, pure; simpl.
    + match goal with
      | |- context [unmap_buffers todo ?s1] => destruct (IH s1) as [Hg Hl]
      end.
      simpl in *. rewrite Hg, Hl, <- app_assoc. split; reflexivity.
    + apply IH.
Qed.

Lemma configure_camera_device_spec s :
  let s' := snd (configure_camera_device env s) in
  buffers (globals s') = buffers (globals s) /\
  detector (globals s') = detector (globals s) /\
  exists evs, log s' = log s ++ evs /\ Forall quiet_event evs.
Proof.
  unfold configure_camera_device, bind, get_globals, put_globals, ioctl_G_FMT,
    ioctl_S_FMT, call, pure.
  simpl.
  destruct (env_G_FMT env _ _ _) as [rc fmt]. destruct (rc <? 0); simpl.
  { split; [reflexivity|]. split; [reflexivity|]. eexists.
    split; [log_extension | forall_events]. }
  destruct (negb (pixelformat fmt =? V4L2_PIX_FMT_RGB565)); simpl.
  - destruct (env_S_FMT env _ _ _) as [rc1 fmt1]. simpl.
    destruct (rc1 <? 0); simpl;
      (split; [reflexivity|]; split; [reflexivity|]; eexists;
       split; [log_extension | forall_events]).
  - split; [reflexivity|]. split; [reflexivity|]. eexists.
    split; [log_extension | forall_events].
Qed.

Lemma init_v4l2_buffers_spec s :
  buffers (globals s) = [] ->
  let s' := snd (init_v4l2_buffers cfg env s) in
  exists evs,
    log s' = log s ++ evs /\ Forall session_event evs /\
    (mmap_sane env -> mapped_regions evs = regions (buffers (globals s'))).
Proof.
  intros Hb.
  unfold init_v4l2_buffers, bind, get_globals, put_globals, ioctl_REQBUFS, call,
    pure.
  simpl.
  destruct (env_REQBUFS env _ _ _) as [rc req].
  destruct ((rc <? 0) || (count req =? 0)%nat); simpl.
  { eexists. split; [log_extension|]. split; [forall_events|].
    intros _. rewrite Hb. reflexivity. }
  rewrite Hb. rewrite resize_nil.
  match goal with
  | |- context [map_buffers env _ ?s1] =>
      destruct (map_buffers env (seq 0 (count req)) s1) as [r s2] eqn:Hmap;
      apply (map_buffers_spec _ []) in Hmap
        as (rest & evs & Hb' & Hlen & Hl & Hf & Hm); [|reflexivity]
  end.
  simpl in *. eexists. split; [rewrite Hl; log_extension|].
  split; [forall_events|].
  intros Hsane. rewrite Hb'. simpl. exact (Hm Hsane).
Qed.

Lemma quiet_session e : quiet_event e -> session_event e.
Proof. destruct e; simpl; tauto. Qed.

Lemma detection_session_spec fuel s t s' :
  buffers (globals s) = [] ->
  detection_session cfg env fuel s = (Some t, s') ->
  exists evs,
    log s' = log s ++ evs /\ Forall session_event evs /\
    (mmap_sane env -> mapped_regions evs = regions (buffers (globals s'))).
Proof.
  intros Hb H. unfold detection_session, bind, get_globals in H.
  destruct (negb (nonzero (detector (globals s)))).
  { injection H as <- <-. exists []. rewrite app_nil_r, Hb.
    repeat split. constructor. }
  pose proof (configure_camera_device_spec s) as (Hb1 & _ & e1 & Hl1 & Hf1).
  destruct (configure_camera_device env s) as [err s1]. simpl in Hb1, Hl1.
  assert (Hm1 : mapped_regions e1 = [])
    by (apply (no_mapping_regions quiet_event); auto).
  assert (Hf1' : Forall session_event e1)
    by (eapply Forall_impl; [|exact Hf1]; apply quiet_session).
  destruct (negb (err =? ESP_OK)).
  { injection H as <- <-. exists e1. rewrite Hb1, Hb. auto. }
  pose proof (init_v4l2_buffers_spec s1) as (e2 & Hl2 & Hf2 & Hm2);
    [congruence|].
  destruct (init_v4l2_buffers cfg env s1) as [err2 s2]. simpl in Hl2, Hm2.
  destruct (negb (err2 =? ESP_OK)).
  { injection H as <- <-. exists (e1 ++ e2).
    split; [rewrite Hl2, Hl1; by rewrite app_assoc|].
    split; [by apply Forall_app|].
    intros Hsane. rewrite mapped_regions_app, Hm1. exact (Hm2 Hsane). }
  unfold ioctl_STREAMON, put_globals, effect, esp_timer_get_time, call, pure in H.
  simpl in H.
  destruct (env_STREAMON env _ _ <? 0).
  { injection H as <- <-. eexists.
    split; [simpl; rewrite Hl2, Hl1; log_extension|].
    split; [forall_events|].
    intros Hsane. simpl. rewrite !mapped_regions_app, Hm1, (Hm2 Hsane). simpl.
    by rewrite app_nil_r. }
  match type of H with
  | context [detection_loop env fuel ?i ?a ?b ?c ?s3] =>
      pose proof (detection_loop_quiet fuel i a b c s3)
        as (Hg3 & _ & e3 & Hl3 & Hf3);
      destruct (detection_loop env fuel i a b c s3) as [r3 s4]
  end.
  simpl in *. injection H as -> <-.
  assert (Hm3 : mapped_regions e3 = [])
    by (apply (no_mapping_regions quiet_event); auto).
  assert (Hf3' : Forall session_event e3)
    by (eapply Forall_impl; [|exact Hf3]; apply quiet_session).
  eexists. split; [rewrite Hl3, Hl2, Hl1; log_extension|].
  split; [forall_events|].
  intros Hsane. rewrite Hg3. simpl.
  rewrite !mapped_regions_app, Hm1, Hm3, (Hm2 Hsane). simpl.
  by rewrite !app_nil_r.
Qed.

Lemma detection_teardown_spec s :
  let s' := snd (detection_teardown env s) in
  exists evs,
    log s' = log s ++ evs /\ Forall no_lock_event evs /\
    mapped_regions evs = [] /\
    unmapped_regions evs = regions (buffers (globals s)).
Proof.
  unfold detection_teardown, release_buffers, bind, get_globals, put_globals,
    ioctl_STREAMOFF, effect, call, pure.
  destruct (stream_started (globals s)); simpl;
    match goal with
    | |- context [unmap_buffers ?todo ?s1] =>
        destruct (release_unmap_buffers_spec todo s1) as [Hg Hl];
        destruct (unmap_buffers todo s1) as [[] s2]
    end;
    simpl in *;
    destruct (nonzero (detector (globals s))); simpl;
    (eexists; split; [rewrite Hl; log_extension|]);
    (split; [forall_events; apply no_lock_munmap_events|]);
    simpl; rewrite ?mapped_regions_app, ?unmapped_regions_app,
             ?mapped_munmap_events, ?unmapped_munmap_events; simpl;
    rewrite ?app_nil_r; split; reflexivity.
Qed.

(** A run of the detection task that reaches its teardown. *)
Lemma detection_task_returned fuel s s' :
  buffers (globals s) = [] ->
  detection_task cfg env fuel s = (Some returned, s') ->
  exists evs,
    log s' = log s ++ evs /\
    (mmap_sane env -> mapped_regions evs = unmapped_regions evs).
Proof.
  intros Hb H. unfold detection_task, bind in H.
  destruct (detection_session cfg env fuel s) as [[[|]|] s1] eqn:Hs;
    try discriminate.
  apply detection_session_spec in Hs as (e1 & Hl1 & Hf1 & Hm1); [|exact Hb].
  pose proof (detection_teardown_spec s1) as (e2 & Hl2 & Hf2 & Hm2 & Hu2).
  destruct (detection_teardown env s1) as [[] s2]. simpl in *.
  injection H as <-.
  exists (e1 ++ e2). split; [rewrite Hl2, Hl1; by rewrite app_assoc|].
  intros Hsane.
  rewrite mapped_regions_app, unmapped_regions_app, Hm2, Hu2, (Hm1 Hsane).
  rewrite (no_unmapping_regions session_event e1); auto.
  by rewrite app_nil_r.
Qed.

End Task.

End FaceDetectProofs.

(** * The claims *)

Import CameraServer CameraServerSpec CameraServerProofs Scenario.

Lemma count_events_app f l1 l2 :
  count_events f (l1 ++ l2) = (count_events f l1 + count_events f l2)%nat.
Proof. unfold count_events. by rewrite List.filter_app, length_app. Qed.

Lemma count_events_none f (P : event -> Prop) l :
  (forall e, P e -> f e = false) -> Forall P l -> count_events f l = O.
Proof.
  intros HP. induction 1 as [|e l He _ IH]; [reflexivity|].
  unfold count_events in *. simpl. rewrite (HP e He). exact IH.
Qed.

Lemma count_successful_mmap l :
  count_events successful_mmap l = length (mapped_regions l).
Proof.
  unfold count_events.
  induction l as [|e l IH]; [reflexivity|].
  destruct e; simpl; try exact IH.
  match goal with
  | |- context [?a =? MAP_FAILED] => destruct (a =? MAP_FAILED)
  end; simpl; congruence.
Qed.

Lemma count_munmap l : count_events is_munmap l = length (unmapped_regions l).
Proof.
  unfold count_events.
  induction l as [|e l IH]; [reflexivity|].
  destruct e; simpl; congruence.
Qed.

(** The events of a run that took the lock, worked, and gave it back. *)
Lemma released_once (l0 l1 body : list event) ticks :
  l1 = l0 ++ [E_xSemaphoreTake ticks true] ++ body ++ [E_xSemaphoreGive true] ->
  Forall no_lock_event body ->
  let evs := drop (length l0) l1 in
  count_events is_give evs = 1%nat /\ list.last evs = Some (E_xSemaphoreGive true).
Proof.
  intros -> Hf. simpl. rewrite drop_app_length. split.
  - change (E_xSemaphoreTake ticks true :: body ++ [E_xSemaphoreGive true])
      with ([E_xSemaphoreTake ticks true] ++ body ++ [E_xSemaphoreGive true]).
    rewrite !count_events_app.
    rewrite (count_events_none is_give no_lock_event body); auto.
    intros []; simpl; tauto.
  - rewrite app_comm_cons. apply last_snoc.
Qed.

(** C1: in every run of the stream handler or of the capture handler that
    acquires the camera lock, the lock is given back exactly once, as the last
    thing the handler does before it returns, whatever the device, the
    encoder and the client answer on the way (every ioctl failure, encode
    failure and failed send is a possible answer of the environment); the
    mutex is free afterwards. *)
Theorem C1_lock_released_exactly_once cfg env fuel s r s' :
  fst (camera_lock_acquire cfg env s) = true ->
  stream_handler cfg env fuel s = (Some r, s') ->
  let stream := events_of (stream_handler cfg env fuel) s in
  let capture := events_of (capture_handler cfg env) s in
  (count_events is_give stream = 1%nat /\
   list.last stream = Some (E_xSemaphoreGive true) /\
   lock_of s' = Some mutex_free) /\
  (count_events is_give capture = 1%nat /\
   list.last capture = Some (E_xSemaphoreGive true) /\
   lock_of (snd (capture_handler cfg env s)) = Some mutex_free).
Proof.
  intros Hacq Hrun. simpl. split.
  - destruct (stream_handler_granted cfg env fuel s r s' Hacq Hrun)
      as (Hfree & body & Hl & Hf & _).
    unfold events_of. rewrite Hrun. simpl.
    destruct (released_once _ _ _ _ Hl Hf) as [H1 H2]. auto.
  - destruct (capture_handler_granted cfg env s Hacq) as (Hfree & body & Hl & Hf & _).
    unfold events_of.
    destruct (released_once _ _ _ _ Hl Hf) as [H1 H2]. auto.
Qed.

Lemma C1_witness :
  let env := environment_of streaming in
  let s := serving streaming in
  let stream := events_of (stream_handler sdk env 30) s in
  let capture := events_of (capture_handler sdk env) s in
  (count_events is_give stream = 1%nat /\
   list.last stream = Some (E_xSemaphoreGive true) /\
   lock_of (snd (stream_handler sdk env 30 s)) = Some mutex_free) /\
  (count_events is_give capture = 1%nat /\
   list.last capture = Some (E_xSemaphoreGive true) /\
   lock_of (snd (capture_handler sdk env s)) = Some mutex_free).
Proof.
  apply (C1_lock_released_exactly_once sdk
           (environment_of streaming) 30
           (serving streaming) ESP_FAIL
           (snd (stream_handler sdk (environment_of streaming) 30
                   (serving streaming)))).
  - reflexivity.
  - vm_compute. reflexivity.
Defined.

(** The events of a run that was refused the lock. *)
Lemma refused_events cfg env s :
  fst (camera_lock_acquire cfg env s) = false ->
  events_of (camera_lock_acquire cfg env) s = [] \/
  events_of (camera_lock_acquire cfg env) s
  = [E_xSemaphoreTake (pdMS_TO_TICKS cfg 10000) false].
Proof.
  intros Hacq. destruct (camera_lock_acquire_denied cfg env s Hacq) as [_ Hl].
  unfold events_of. simpl in Hl.
  destruct Hl as [[_ Hl]|[_ Hl]]; rewrite Hl.
  - left. apply drop_all.
  - right. apply drop_app_length.
Qed.

(** C8: when the camera lock is not obtained (the one wait of
    [CAMERA_LOCK_TIMEOUT_MS] = 10000 ms expired, or there is no mutex), the
    stream handler and the capture handler answer 500 "Camera busy" and
    return [ESP_FAIL]: their whole run is at most one take, which failed,
    followed by that answer; no ioctl is issued and the take is not
    repeated. *)
Theorem C8_camera_busy cfg env fuel s :
  fst (camera_lock_acquire cfg env s) = false ->
  CAMERA_LOCK_TIMEOUT_MS = 10000 /\
  fst (stream_handler cfg env fuel s) = Some ESP_FAIL /\
  fst (capture_handler cfg env s) = ESP_FAIL /\
  forall evs,
    evs = events_of (stream_handler cfg env fuel) s \/
    evs = events_of (capture_handler cfg env) s ->
    (evs = [E_httpd_resp_send_err 500 "Camera busy"] \/
     evs = [E_xSemaphoreTake (pdMS_TO_TICKS cfg 10000) false;
            E_httpd_resp_send_err 500 "Camera busy"]) /\
    count_events is_ioctl evs = O /\
    (count_events is_take evs <= 1)%nat.
Proof.
  intros Hacq. split; [reflexivity|].
  destruct (stream_handler_denied cfg env fuel s Hacq) as [Hr1 He1].
  destruct (capture_handler_denied cfg env s Hacq) as [Hr2 He2].
  split; [exact Hr1|]. split; [exact Hr2|].
  intros evs Hevs.
  assert (He : evs = events_of (camera_lock_acquire cfg env) s ++ [camera_busy])
    by (destruct Hevs; congruence).
  destruct (refused_events cfg env s Hacq) as [H0|H0]; rewrite H0 in He; subst evs.
  - split; [left; reflexivity|]. split; [reflexivity|].
    unfold count_events. simpl. lia.
  - split; [right; reflexivity|]. split; [reflexivity|].
    unfold count_events. simpl. lia.
Qed.

Lemma C8_witness :
  let env := environment_of streaming in
  let s := serving_busy streaming in
  CAMERA_LOCK_TIMEOUT_MS = 10000 /\
  fst (stream_handler sdk env 30 s) = Some ESP_FAIL /\
  fst (capture_handler sdk env s) = ESP_FAIL /\
  forall evs,
    evs = events_of (stream_handler sdk env 30) s \/
    evs = events_of (capture_handler sdk env) s ->
    (evs = [E_httpd_resp_send_err 500 "Camera busy"] \/
     evs = [E_xSemaphoreTake (pdMS_TO_TICKS sdk 10000) false;
            E_httpd_resp_send_err 500 "Camera busy"]) /\
    count_events is_ioctl evs = O /\
    (count_events is_take evs <= 1)%nat.
Proof.
  apply (C8_camera_busy sdk (environment_of streaming) 30 (serving_busy streaming)).
  reflexivity.
Defined.

(** C9: releasing the camera lock while it is not held (the mutex is free,
    or was never created) changes nothing: the file-scope variables, the
    mutex among them, are as before; at most [xSemaphoreGive] was called on
    the free mutex, and it reported that nothing was given. *)
Theorem C9_release_when_not_held (s : state statics) :
  lock_of s = None \/ lock_of s = Some mutex_free ->
  globals (snd (camera_lock_release s)) = globals s /\
  lock_of (snd (camera_lock_release s)) = lock_of s /\
  (events_of camera_lock_release s = [] \/
   events_of camera_lock_release s = [E_xSemaphoreGive false]).
Proof.
  unfold lock_of, events_of, camera_lock_release, bind, get_globals, xSemaphoreGive,
    call, put_globals, pure.
  intros [H|H]; rewrite H; simpl.
  - split; [reflexivity|]. split; [exact H|]. left. apply drop_all.
  - assert (Hg : set_lock (Some mutex_free) (globals s) = globals s)
      by (rewrite <- H; apply set_lock_same).
    rewrite Hg. split; [reflexivity|]. split; [reflexivity|].
    right. apply drop_app_length.
Qed.

Lemma C9_witness :
  let s := serving streaming in
  globals (snd (camera_lock_release s)) = globals s /\
  lock_of (snd (camera_lock_release s)) = lock_of s /\
  (events_of camera_lock_release s = [] \/
   events_of camera_lock_release s = [E_xSemaphoreGive false]).
Proof.
  apply (C9_release_when_not_held (serving streaming)).
  right. reflexivity.
Defined.

(** The regions mapped and unmapped by any run of the handlers. *)
Lemma stream_handler_regions cfg env fuel s r s' :
  mmap_sane env ->
  stream_handler cfg env fuel s = (Some r, s') ->
  let evs := events_of (stream_handler cfg env fuel) s in
  unmapped_regions evs = mapped_regions evs.
Proof.
  intros Hsane Hrun. simpl.
  destruct (fst (camera_lock_acquire cfg env s)) eqn:Hacq.
  - destruct (stream_handler_granted cfg env fuel s r s' Hacq Hrun)
      as (_ & body & Hl & _ & Hm).
    unfold events_of. rewrite Hrun. simpl. rewrite Hl, drop_app_length.
    change (E_xSemaphoreTake (lock_ticks cfg) true :: body ++ [E_xSemaphoreGive true])
      with ([E_xSemaphoreTake (lock_ticks cfg) true] ++ body
              ++ [E_xSemaphoreGive true]).
    rewrite !mapped_regions_app, !unmapped_regions_app, (Hm Hsane). reflexivity.
  - destruct (stream_handler_denied cfg env fuel s Hacq) as [_ He].
    rewrite He.
    destruct (refused_events cfg env s Hacq) as [H0|H0]; rewrite H0; reflexivity.
Qed.

Lemma capture_handler_regions cfg env s :
  mmap_sane env ->
  let evs := events_of (capture_handler cfg env) s in
  unmapped_regions evs = mapped_regions evs.
Proof.
  intros Hsane. simpl.
  destruct (fst (camera_lock_acquire cfg env s)) eqn:Hacq.
  - destruct (capture_handler_granted cfg env s Hacq) as (_ & body & Hl & _ & Hm).
    unfold events_of. rewrite Hl, drop_app_length.
    change (E_xSemaphoreTake (lock_ticks cfg) true :: body ++ [E_xSemaphoreGive true])
      with ([E_xSemaphoreTake (lock_ticks cfg) true] ++ body
              ++ [E_xSemaphoreGive true]).
    rewrite !mapped_regions_app, !unmapped_regions_app, (Hm Hsane). reflexivity.
  - destruct (capture_handler_denied cfg env s Hacq) as [_ He].
    rewrite He.
    destruct (refused_events cfg env s Hacq) as [H0|H0]; rewrite H0; reflexivity.
Qed.

(** C3: in every run of a session (the stream handler, the capture handler,
    the detection task that reaches its teardown) the regions given to
    [munmap] are exactly the regions [mmap] returned, in the same order: a
    failed [mmap] is followed by no [munmap] of it, every mapped region is
    unmapped once, and so the number of [munmap] calls is the number of
    successful [mmap] calls, wherever setup or the loop was left.  [mmap]
    is taken to return [MAP_FAILED] or a non-null address, and the buffer
    vector of the detection context to be empty when the task starts, as it
    is initially and after every teardown. *)
Theorem C3_unmaps_match_maps cfg env fuel s r s' d d' :
  let balanced evs :=
    unmapped_regions evs = mapped_regions evs /\
    count_events is_munmap evs = count_events successful_mmap evs in
  mmap_sane env ->
  stream_handler cfg env fuel s = (Some r, s') ->
  FaceDetect.buffers (globals d) = [] ->
  FaceDetect.detection_task cfg env fuel d = (Some FaceDetect.returned, d') ->
  balanced (events_of (stream_handler cfg env fuel) s) /\
  balanced (events_of (capture_handler cfg env) s) /\
  balanced (events_of (FaceDetect.detection_task cfg env fuel) d).
Proof.
  intros balanced Hsane Hrun Hb Htask.
  assert (Hcount : forall evs,
             unmapped_regions evs = mapped_regions evs -> balanced evs).
  { intros evs H. split; [exact H|].
    by rewrite count_munmap, count_successful_mmap, H. }
  split; [|split]; apply Hcount.
  - eapply stream_handler_regions; eauto.
  - by apply capture_handler_regions.
  - destruct (FaceDetectProofs.detection_task_returned cfg env fuel d d' Hb Htask)
      as (e & Hl & Hm).
    unfold events_of. rewrite Htask. simpl. rewrite Hl, drop_app_length.
    symmetry. exact (Hm Hsane).
Qed.

Lemma third_map_fails_sane : mmap_sane (environment_of third_map_fails).
Proof.
  intros t l fd off. unfold NULL. simpl.
  destruct (off =? 2 * frame_size); [discriminate | lia].
Qed.

Lemma C3_witness :
  let env := environment_of third_map_fails in
  let balanced evs :=
    unmapped_regions evs = mapped_regions evs /\
    count_events is_munmap evs = count_events successful_mmap evs in
  balanced (events_of (stream_handler sdk env 30) (serving third_map_fails)) /\
  balanced (events_of (capture_handler sdk env) (serving third_map_fails)) /\
  balanced (events_of (FaceDetect.detection_task sdk env 30)
              (detecting third_map_fails)).
Proof.
  apply (C3_unmaps_match_maps sdk (environment_of third_map_fails) 30
           (serving third_map_fails) ESP_FAIL
           (snd (stream_handler sdk (environment_of third_map_fails) 30
                   (serving third_map_fails)))
           (detecting third_map_fails)
           (snd (FaceDetect.detection_task sdk (environment_of third_map_fails) 30
                   (detecting third_map_fails)))).
  - exact third_map_fails_sane.
  - vm_compute. reflexivity.
  - reflexivity.
  - vm_compute. reflexivity.
Defined.

(** C2 (the part the code does not keep): no run of the detection task
    ever takes, gives, creates or deletes a semaphore, although it issues
    ioctls on the capture device: on a device that delivers frames until the
    task is stopped, 20 ioctls and no take. *)
Theorem C2_detection_task_takes_no_lock :
  (forall cfg env fuel d,
      Forall no_lock_event (events_of (FaceDetect.detection_task cfg env fuel) d)) /\
  (let evs := events_of (FaceDetect.detection_task sdk (environment_of streaming) 30)
                (detecting streaming) in
   count_events is_ioctl evs = 20%nat /\ count_events is_take evs = O).
Proof.
  split.
  - intros cfg env fuel d. apply emits_only_events.
    apply FaceDetectProofs.detection_task_no_lock.
  - vm_compute. split; reflexivity.
Qed.

Lemma ioctls_under_lock_body body rest :
  Forall no_lock_event body ->
  ioctls_under_lock true (body ++ rest) = ioctls_under_lock true rest.
Proof.
  induction 1 as [|e body He _ IH]; [reflexivity|].
  destruct e; simpl in *; try exact IH; tauto.
Qed.

(** The part of C2 the code keeps: the stream handler and the capture
    handler issue every ioctl between a granted take of the camera lock and
    its give. *)
Lemma handlers_ioctls_under_lock cfg env fuel s r s' :
  stream_handler cfg env fuel s = (Some r, s') ->
  ioctls_under_lock false (events_of (stream_handler cfg env fuel) s) = true /\
  ioctls_under_lock false (events_of (capture_handler cfg env) s) = true.
Proof.
  intros Hrun.
  destruct (fst (camera_lock_acquire cfg env s)) eqn:Hacq.
  - destruct (stream_handler_granted cfg env fuel s r s' Hacq Hrun)
      as (_ & b1 & Hl1 & Hf1 & _).
    destruct (capture_handler_granted cfg env s Hacq) as (_ & b2 & Hl2 & Hf2 & _).
    unfold events_of. rewrite Hrun. simpl.
    rewrite Hl1, Hl2, !drop_app_length. simpl.
    rewrite !ioctls_under_lock_body by assumption. split; reflexivity.
  - destruct (stream_handler_denied cfg env fuel s Hacq) as [_ He1].
    destruct (capture_handler_denied cfg env s Hacq) as [_ He2].
    rewrite He1, He2.
    destruct (refused_events cfg env s Hacq) as [H0|H0]; rewrite H0;
      split; reflexivity.
Qed.

(** The detection task on a device that delivers frames: ioctls, and the
    lock is never held. *)
Lemma detection_task_ioctls_without_lock :
  ioctls_under_lock false
    (events_of (FaceDetect.detection_task sdk (environment_of streaming) 30)
       (detecting streaming)) = false.
Proof. vm_compute. reflexivity. Qed.

(** Any failure of the dequeue ends the loop of the stream handler. *)
Lemma stream_loop_dequeue_failure env fuel bufs s :
  fst (fst (env_DQBUF env (clock s) (s_camera_fd (globals s)) (capture_buffer 0))) < 0 ->
  stream_loop env (S fuel) bufs s
  = (Some ESP_FAIL,
     snd (ioctl_DQBUF env (s_camera_fd (globals s)) (capture_buffer 0) s)).
Proof.
  intros H. simpl. unfold bind, get_globals, ioctl_DQBUF, call, pure. simpl.
  destruct (env_DQBUF env _ _ _) as [[rc errno] buf]. simpl in *.
  apply Z.ltb_lt in H. rewrite H. reflexivity.
Qed.

(** C7 (what the stream handler does): a dequeue that fails with [EINTR]
    is not retried; the loop is left at once with [ESP_FAIL], having issued
    that one dequeue, like for any other failure. *)
Theorem C7_stream_loop_ends_on_EINTR env fuel bufs s :
  let fd := s_camera_fd (globals s) in
  let reply := env_DQBUF env (clock s) fd (capture_buffer 0) in
  fst (fst reply) < 0 ->
  snd (fst reply) = EINTR ->
  fst (stream_loop env (S fuel) bufs s) = Some ESP_FAIL /\
  events_of (stream_loop env (S fuel) bufs) s
  = [E_ioctl fd VIDIOC_DQBUF (fst (fst reply))].
Proof.
  intros fd reply Hrc _. unfold events_of.
  rewrite (stream_loop_dequeue_failure env fuel bufs s Hrc).
  split; [reflexivity|]. unfold ioctl_DQBUF, call. simpl.
  apply drop_app_length.
Qed.

Lemma C7_witness :
  let env := environment_of dequeue_interrupted_once in
  let s := serving dequeue_interrupted_once in
  fst (stream_loop env 10 [] s) = Some ESP_FAIL /\
  events_of (stream_loop env 10 []) s = [E_ioctl 3 VIDIOC_DQBUF (-1)].
Proof.
  apply (C7_stream_loop_ends_on_EINTR (environment_of dequeue_interrupted_once) 9 []
           (serving dequeue_interrupted_once)).
  - vm_compute. reflexivity.
  - reflexivity.
Defined.

(** The same interruption in a whole session: the stream handler gives up
    after one dequeue, the detection task dequeues again until a frame
    arrives and goes on to process six frames. *)
Lemma interrupted_dequeue_in_both_sessions :
  let env := environment_of dequeue_interrupted_once in
  (fst (stream_handler sdk env 30 (serving dequeue_interrupted_once)) = Some ESP_FAIL /\
   count_events is_dequeue
     (events_of (stream_handler sdk env 30) (serving dequeue_interrupted_once))
   = 1%nat) /\
  (fst (FaceDetect.detection_task sdk env 100 (detecting dequeue_interrupted_once))
   = Some FaceDetect.returned /\
   count_events is_dequeue
     (events_of (FaceDetect.detection_task sdk env 100)
        (detecting dequeue_interrupted_once))
   = 13%nat).
Proof. vm_compute. repeat split; reflexivity. Qed.

(** What the detection task does with a failed dequeue: on [EINTR] it goes
    back to the test of the loop without processing anything; any other
    failure ends the loop. *)
Lemma detection_loop_retries_on_EINTR env fuel interval fc faces last (d : state FaceDetect.FaceDetectContext) :
  let fd := FaceDetect.camera_fd (globals d) in
  let reply := env_DQBUF env (S (clock d)) fd (FaceDetect.capture_buffer 0) in
  env_should_stop env (clock d) = false ->
  fst (fst reply) < 0 ->
  snd (fst reply) = EINTR ->
  FaceDetect.detection_loop env (S fuel) interval fc faces last d
  = FaceDetect.detection_loop env fuel interval fc faces last
      (mkState (S (S (clock d)))
         (log d ++ [E_ioctl fd VIDIOC_DQBUF (fst (fst reply))]) (globals d)).
Proof.
  intros fd reply Hstop Hrc Herr. subst fd reply. simpl.
  unfold bind, sample, get_globals, ioctl_DQBUF, call, pure. simpl.
  rewrite Hstop.
  destruct (env_DQBUF env _ _ _) as [[rc errno] buf]. simpl in *.
  apply Z.ltb_lt in Hrc. rewrite Hrc. subst errno. reflexivity.
Qed.

Lemma detection_loop_ends_on_other_failure env fuel interval fc faces last (d : state FaceDetect.FaceDetectContext) :
  let fd := FaceDetect.camera_fd (globals d) in
  let reply := env_DQBUF env (S (clock d)) fd (FaceDetect.capture_buffer 0) in
  env_should_stop env (clock d) = false ->
  fst (fst reply) < 0 ->
  snd (fst reply) <> EINTR ->
  fst (FaceDetect.detection_loop env (S fuel) interval fc faces last d)
  = Some FaceDetect.returned /\
  events_of (FaceDetect.detection_loop env (S fuel) interval fc faces last) d
  = [E_ioctl fd VIDIOC_DQBUF (fst (fst reply))].
Proof.
  intros fd reply Hstop Hrc Herr. subst fd reply. unfold events_of. simpl.
  unfold bind, sample, get_globals, ioctl_DQBUF, call, pure. simpl.
  rewrite Hstop.
  destruct (env_DQBUF env _ _ _) as [[rc errno] buf]. simpl in *.
  apply Z.ltb_lt in Hrc. rewrite Hrc.
  apply Z.eqb_neq in Herr. rewrite Herr. simpl.
  destruct (env_should_stop env (S (S (clock d)))); simpl;
    (split; [reflexivity|]); apply drop_app_length.
Qed.

(** C4, as the code has it: when the encoder fails on a dequeued frame (the
    encoder not being configured is one such failure), the stream handler
    queues the buffer again and leaves its loop with [ESP_FAIL]: the
    dequeue, the encoder call and the re-queue are all the loop does, and no
    further frame is dequeued. *)
Theorem C4_encoder_error_ends_stream env fuel bufs s :
  let fd := s_camera_fd (globals s) in
  let dq := ioctl_DQBUF env fd (capture_buffer 0) s in
  let buf := snd (fst dq) in
  let encode := jpeg_encode_frame env (buffer_addr bufs (index buf)) (bytesused buf) in
  0 <= fst (fst (fst dq)) ->
  Z.land (flags buf) V4L2_BUF_FLAG_DONE <> 0 ->
  fst (fst (fst (encode (snd dq)))) <> ESP_OK ->
  fst (stream_loop env (S fuel) bufs s) = Some ESP_FAIL /\
  events_of (stream_loop env (S fuel) bufs) s
  = [E_ioctl fd VIDIOC_DQBUF (fst (fst (fst dq)))]
      ++ events_of encode (snd dq)
      ++ [E_ioctl fd VIDIOC_QBUF (env_QBUF env (clock (snd (encode (snd dq)))) fd buf)].
Proof.
  intros fd dq buf encode Hrc Hdone Henc. subst fd dq buf encode.
  unfold events_of. simpl.
  unfold bind, get_globals, ioctl_DQBUF, ioctl_QBUF, call, pure in *. simpl in *.
  destruct (env_DQBUF env _ _ _) as [[rc errno] buf]. simpl in *.
  apply Z.ltb_ge in Hrc. rewrite Hrc.
  apply Z.eqb_neq in Hdone. rewrite Hdone.
  match goal with
  | |- context [jpeg_encode_frame env ?src ?size ?s1] =>
      pose proof (jpeg_encode_frame_streaming env src size s1)
        as (_ & _ & evs & Hl & _);
      destruct (jpeg_encode_frame env src size s1) as [[[err jb] js] s2]
  end.
  simpl in *. apply Z.eqb_neq in Henc. rewrite Henc. simpl.
  split; [reflexivity|].
  rewrite Hl, drop_app_length, <- !app_assoc, drop_app_length. reflexivity.
Qed.

(** An encoder that was never configured fails every frame. *)
Lemma jpeg_encode_frame_unconfigured env src size (s : state statics) :
  initialized (s_jpeg_state (globals s)) = false ->
  jpeg_encode_frame env src size s = (ESP_ERR_INVALID_STATE, NULL, 0, s).
Proof.
  intros H. unfold jpeg_encode_frame, bind, get_globals, pure. simpl.
  rewrite H. reflexivity.
Qed.

Lemma C4_witness :
  let env := environment_of encoder_fails_once in
  let s := serving encoder_fails_once in
  let dq := ioctl_DQBUF env 3 (capture_buffer 0) s in
  let encode := jpeg_encode_frame env NULL frame_size in
  fst (stream_loop env 10 [] s) = Some ESP_FAIL /\
  events_of (stream_loop env 10 []) s
  = [E_ioctl 3 VIDIOC_DQBUF 0]
      ++ events_of encode (snd dq)
      ++ [E_ioctl 3 VIDIOC_QBUF 0].
Proof.
  apply (C4_encoder_error_ends_stream (environment_of encoder_fails_once) 9 []
           (serving encoder_fails_once)).
  - vm_compute. discriminate.
  - vm_compute. discriminate.
  - vm_compute. discriminate.
Defined.

(** C4 as it is stated fails: the device would deliver frames for ever, the
    client never leaves, and the encoder fails on the first frame only; the
    stream handler, with fuel for thirty frames, dequeues one frame, queues it
    again after the encoder error, and then stops the stream, unmaps the
    buffers, gives the lock and returns [ESP_FAIL]. *)
Lemma C4_counterexample :
  let env := environment_of encoder_fails_once in
  let s := serving encoder_fails_once in
  fst (stream_handler sdk env 30 s) = Some ESP_FAIL /\
  count_events is_dequeue (events_of (stream_handler sdk env 30) s) = 1%nat /\
  drop 15 (events_of (stream_handler sdk env 30) s)
  = [E_ioctl 3 VIDIOC_DQBUF 0; E_jpeg_encoder_process ESP_FAIL;
     E_ioctl 3 VIDIOC_QBUF 0; E_ioctl 3 VIDIOC_STREAMOFF 0;
     E_munmap 0x10000 frame_size; E_munmap (0x10000 + frame_size) frame_size;
     E_munmap (0x10000 + 2 * frame_size) frame_size; E_free;
     E_xSemaphoreGive true].
Proof. vm_compute. repeat split; reflexivity. Qed.

(** What the format negotiation of the server does, case by case.  It
    reads the current format; the width and height it goes on with are the
    configured desired ones when both are positive, the reported ones
    otherwise.  When the reported pixel format is already RGB565 no
    set-format call is made.  Otherwise RGB565 is tried, then YUV422P if that
    failed, and the format the first successful call leaves is stored.  When
    none succeeds, the pixel format stored is the one the device reported,
    with the width and height above. *)
Lemma configure_camera_device_cases cfg env fd (s : state statics) :
  let query := env_G_FMT env (clock s) fd format_query in
  let reported := snd query in
  let dw := wrap32 (CONFIG_FACE_DET_ISP_WIDTH cfg) in
  let dh := wrap32 (CONFIG_FACE_DET_ISP_HEIGHT cfg) in
  let desired := (0 <? dw) && (0 <? dh) in
  let w := if desired then dw else V4L2.width reported in
  let h := if desired then dh else V4L2.height reported in
  let request p :=
    {| type := type reported; V4L2.width := w; V4L2.height := h;
       pixelformat := p; field := V4L2_FIELD_NONE |} in
  let rgb := env_S_FMT env (S (clock s)) fd (request V4L2_PIX_FMT_RGB565) in
  let yuv := env_S_FMT env (S (S (clock s))) fd (request V4L2_PIX_FMT_YUV422P) in
  let run := configure_camera_device cfg env fd s in
  let evs := events_of (configure_camera_device cfg env fd) s in
  0 <= fst query ->
  fst run = ESP_OK /\
  (pixelformat reported = V4L2_PIX_FMT_RGB565 ->
   evs = [E_ioctl fd VIDIOC_G_FMT (fst query)] /\
   stream_format (snd run) = (w, h, V4L2_PIX_FMT_RGB565)) /\
  (pixelformat reported <> V4L2_PIX_FMT_RGB565 ->
   (fst rgb = 0 ->
    evs = [E_ioctl fd VIDIOC_G_FMT (fst query); E_ioctl fd VIDIOC_S_FMT 0] /\
    stream_format (snd run) = format_of (snd rgb)) /\
   (fst rgb <> 0 -> fst yuv = 0 ->
    evs = [E_ioctl fd VIDIOC_G_FMT (fst query); E_ioctl fd VIDIOC_S_FMT (fst rgb);
           E_ioctl fd VIDIOC_S_FMT 0] /\
    stream_format (snd run) = format_of (snd yuv)) /\
   (fst rgb <> 0 -> fst yuv <> 0 ->
    evs = [E_ioctl fd VIDIOC_G_FMT (fst query); E_ioctl fd VIDIOC_S_FMT (fst rgb);
           E_ioctl fd VIDIOC_S_FMT (fst yuv)] /\
    stream_format (snd run) = (w, h, pixelformat reported))).
Proof.
  intros query reported dw dh desired w h request rgb yuv run evs Hrc.
  subst query reported w h request rgb yuv run evs desired dw dh.
  unfold events_of, stream_format, format_of, configure_camera_device, format_query,
    with_pixelformat, with_size, bind, get_globals, put_globals, ioctl_G_FMT,
    ioctl_S_FMT, call, pure in *.
  simpl in *.
  destruct (env_G_FMT env (clock s) fd _) as [rc fmt]. simpl in *.
  apply Z.ltb_ge in Hrc. rewrite Hrc.
  destruct ((0 <? wrap32 (CONFIG_FACE_DET_ISP_WIDTH cfg))
            && (0 <? wrap32 (CONFIG_FACE_DET_ISP_HEIGHT cfg))); simpl;
    (destruct (Z.eqb_spec (pixelformat fmt) V4L2_PIX_FMT_RGB565) as [Hp|Hp]; simpl;
     [ split; [reflexivity|]; split; [|tauto];
       intros _; rewrite drop_app_length, Hp; split; reflexivity
     | split;
       [ destruct (env_S_FMT env (S (clock s)) fd _) as [rc1 f1]; simpl;
         destruct (rc1 =? 0); simpl; [reflexivity|];
         destruct (env_S_FMT env (S (S (clock s))) fd _) as [rc2 f2]; simpl;
         destruct (rc2 =? 0); reflexivity
       | split; [tauto|]; intros _;
         destruct (env_S_FMT env (S (clock s)) fd _) as [rc1 f1]; simpl;
         destruct (Z.eqb_spec rc1 0) as [H1|H1]; simpl;
         [ split; [|split; tauto]; intros _; subst rc1;
           rewrite <- !app_assoc, drop_app_length; split; reflexivity
         | split; [tauto|];
           destruct (env_S_FMT env (S (S (clock s))) fd _) as [rc2 f2]; simpl;
           destruct (Z.eqb_spec rc2 0) as [H2|H2]; simpl;
           [ split; [|tauto]; intros _ _; subst rc2;
             rewrite <- !app_assoc, drop_app_length; split; reflexivity
           | split; [tauto|]; intros _ _;
             rewrite <- !app_assoc, drop_app_length; split; reflexivity ] ] ] ]).
Qed.

(** The part of C5 the code keeps: RGB565 is tried, then YUV422P, the first
    call that succeeds is accepted, and in a build without a desired
    resolution the format stored when none succeeds is exactly the one the
    device reported. *)
Lemma negotiation_without_desired_size cfg env fd (s : state statics) :
  let query := env_G_FMT env (clock s) fd format_query in
  let reported := snd query in
  let request p :=
    {| type := type reported; V4L2.width := V4L2.width reported;
       V4L2.height := V4L2.height reported; pixelformat := p;
       field := V4L2_FIELD_NONE |} in
  let rgb := env_S_FMT env (S (clock s)) fd (request V4L2_PIX_FMT_RGB565) in
  let yuv := env_S_FMT env (S (S (clock s))) fd (request V4L2_PIX_FMT_YUV422P) in
  let run := configure_camera_device cfg env fd s in
  0 <= fst query ->
  (0 <? wrap32 (CONFIG_FACE_DET_ISP_WIDTH cfg))
  && (0 <? wrap32 (CONFIG_FACE_DET_ISP_HEIGHT cfg)) = false ->
  pixelformat reported = V4L2_PIX_FMT_RGB565 \/ (fst rgb <> 0 /\ fst yuv <> 0) ->
  stream_format (snd run) = format_of reported.
Proof.
  intros query reported request rgb yuv run Hrc Hnone Hcase.
  destruct (configure_camera_device_cases cfg env fd s Hrc) as (_ & Hsame & Hother).
  cbv zeta in Hsame, Hother. rewrite Hnone in Hsame, Hother.
  unfold format_of.
  destruct (Z.eq_dec (pixelformat (snd (env_G_FMT env (clock s) fd format_query)))
              V4L2_PIX_FMT_RGB565) as [Hp|Hp].
  - destruct (Hsame Hp) as [_ Hfmt]. subst run reported query.
    rewrite Hfmt, Hp. reflexivity.
  - destruct Hcase as [Hp'|[Hrgb Hyuv]]; [contradiction|].
    destruct (Hother Hp) as (_ & _ & Hnone').
    destruct (Hnone' Hrgb Hyuv) as [_ Hfmt]. exact Hfmt.
Qed.

(** C5 (the part the code does not keep).  In a build with a desired
    resolution the negotiation overwrites the width and height it has read
    with the desired ones before it looks at the pixel format (lines
    259-263).  When no set-format call succeeds after that, because both are
    refused or because none is made (the device is already in RGB565), it
    still returns [ESP_OK] and what it stores is the desired size with the
    reported pixel format: a size the device neither reported nor accepted.
    It is the reported format only when the device happened to report the
    desired size. *)
Theorem C5_stores_a_size_never_accepted cfg env fd (s : state statics) :
  let query := env_G_FMT env (clock s) fd format_query in
  let reported := snd query in
  let dw := wrap32 (CONFIG_FACE_DET_ISP_WIDTH cfg) in
  let dh := wrap32 (CONFIG_FACE_DET_ISP_HEIGHT cfg) in
  let request p :=
    {| type := type reported; V4L2.width := dw; V4L2.height := dh;
       pixelformat := p; field := V4L2_FIELD_NONE |} in
  let rgb := env_S_FMT env (S (clock s)) fd (request V4L2_PIX_FMT_RGB565) in
  let yuv := env_S_FMT env (S (S (clock s))) fd (request V4L2_PIX_FMT_YUV422P) in
  let run := configure_camera_device cfg env fd s in
  let evs := events_of (configure_camera_device cfg env fd) s in
  0 <= fst query ->
  0 < dw -> 0 < dh ->
  pixelformat reported = V4L2_PIX_FMT_RGB565 \/ (fst rgb <> 0 /\ fst yuv <> 0) ->
  fst run = ESP_OK /\
  count_events format_accepted evs = O /\
  stream_format (snd run) = (dw, dh, pixelformat reported) /\
  (stream_format (snd run) = format_of reported <->
   V4L2.width reported = dw /\ V4L2.height reported = dh).
Proof.
  intros query reported dw dh request rgb yuv run evs Hrc Hw Hh Hcase.
  destruct (configure_camera_device_cases cfg env fd s Hrc) as (Hret & Hsame & Hother).
  cbv zeta in Hsame, Hother.
  fold dw dh in Hsame, Hother.
  rewrite (proj2 (Z.ltb_lt 0 dw) Hw), (proj2 (Z.ltb_lt 0 dh) Hh) in Hsame, Hother.
  simpl in Hsame, Hother.
  assert (Hstored : count_events format_accepted evs = O /\
                    stream_format (snd run) = (dw, dh, pixelformat reported)).
  { destruct (Z.eq_dec (pixelformat reported) V4L2_PIX_FMT_RGB565) as [Hp|Hp].
    - destruct (Hsame Hp) as [Hevs Hfmt]. subst evs run.
      rewrite Hevs, Hfmt, Hp. split; reflexivity.
    - destruct Hcase as [Hp'|[Hrgb Hyuv]]; [contradiction|].
      destruct (Hother Hp) as (_ & _ & Hnone).
      destruct (Hnone Hrgb Hyuv) as [Hevs Hfmt]. subst evs run.
      rewrite Hevs, Hfmt. split; [|reflexivity].
      apply Z.eqb_neq in Hrgb, Hyuv.
      unfold rgb, yuv, request, reported, query in Hrgb, Hyuv.
      unfold count_events. cbn [List.filter format_accepted].
      rewrite Hrgb, Hyuv. reflexivity. }
  destruct Hstored as [Hnone Hfmt].
  split; [exact Hret|]. split; [exact Hnone|]. split; [exact Hfmt|].
  rewrite Hfmt. unfold format_of. split.
  - intros [= Hw' Hh']. auto.
  - intros [-> ->]. reflexivity.
Qed.

(** The build asks for 640x480; the sensor delivers raw data at 1920x1080
    and refuses both set-format calls. *)
Lemma C5_witness :
  let env := environment_of format_refused in
  let run := configure_camera_device sdk_vga env 3 (boot initial_statics) in
  let evs := events_of (configure_camera_device sdk_vga env 3) (boot initial_statics) in
  fst run = ESP_OK /\
  count_events format_accepted evs = O /\
  stream_format (snd run) = (640, 480, V4L2_PIX_FMT_SBGGR10) /\
  (stream_format (snd run) = (1920, 1080, V4L2_PIX_FMT_SBGGR10) <->
   1920 = 640 /\ 1080 = 480).
Proof.
  apply (C5_stores_a_size_never_accepted sdk_vga (environment_of format_refused) 3
           (boot initial_statics)).
  - discriminate.
  - reflexivity.
  - reflexivity.
  - right. split; discriminate.
Defined.

(** What this leads to, in the build that asks for 640x480.  A device
    already in RGB565 at 1920x1080 is not sent any set-format call, and
    640x480 is stored.  A device that delivers grey pictures at 1920x1080
    and refuses both calls lets [camera_server_start] succeed with the
    encoder configured for 640x480: a stride of 307200 bytes, where a
    picture of the device has 2073600. *)
Lemma unaccepted_size_reaches_the_encoder :
  let negotiated :=
    configure_camera_device sdk_vga (environment_of rgb565_at_full_size) 3
      (boot initial_statics) in
  let started :=
    camera_server_start sdk_vga (environment_of grey_refused) 3
      (boot initial_statics) in
  (fst negotiated = ESP_OK /\
   events_of (configure_camera_device sdk_vga (environment_of rgb565_at_full_size) 3)
     (boot initial_statics)
   = [E_ioctl 3 VIDIOC_G_FMT 0] /\
   stream_format (snd negotiated) = (640, 480, V4L2_PIX_FMT_RGB565)) /\
  (fst started = ESP_OK /\
   stream_format (snd started) = (640, 480, V4L2_PIX_FMT_GREY) /\
   src_stride (s_jpeg_state (globals (snd started))) = 307200 /\
   1920 * 1080 * 8 / 8 = 2073600).
Proof. vm_compute. repeat split; reflexivity. Qed.

Lemma encoder_params_supported p :
  supported_pixformat p <-> encoder_params p <> None.
Proof.
  unfold supported_pixformat, encoder_params.
  destruct (Z.eqb_spec p V4L2_PIX_FMT_RGB565); [split; [discriminate|tauto]|].
  destruct (Z.eqb_spec p V4L2_PIX_FMT_RGB24); [split; [discriminate|tauto]|].
  destruct (Z.eqb_spec p V4L2_PIX_FMT_YUV422P); [split; [discriminate|tauto]|].
  destruct (Z.eqb_spec p V4L2_PIX_FMT_GREY); [split; [discriminate|tauto]|].
  split; [tauto | congruence].
Qed.

(** C6, as the code has it.  An encoder that is already configured is left
    as it is: [jpeg_encoder_init] returns [ESP_OK] at once, without looking
    at the pixel format.  For an encoder that is not configured: a pixel
    format other than the four supported ones gives [ESP_ERR_NOT_SUPPORTED]
    with nothing done; for each of the four, with the parameters the
    [switch] gives it, the engine is created and the output buffer
    allocated for [width * height * bpp / 8] bytes, and when both succeed
    the result is [ESP_OK] and the encoder state is exactly the handle, the
    parameters, the stride, the buffer, its size, quality 75 and the flag;
    when the engine cannot be created its error is returned with nothing
    changed; when the buffer cannot be allocated the engine is deleted
    again, the handle reset to [NULL] and [ESP_ERR_NO_MEM] returned.
    Whenever configuration of an unconfigured encoder without an engine
    fails, the flag is still false, the handle is [NULL], no output buffer
    was stored, and every engine created was deleted. *)
Theorem C6_encoder_configuration env (s : state statics) :
  let g := globals s in
  let j := s_jpeg_state g in
  let pf := pixformat (s_stream_state g) in
  let run := jpeg_encoder_init env s in
  let j' := s_jpeg_state (globals (snd run)) in
  let evs := events_of (jpeg_encoder_init env) s in
  let engine := env_jpeg_new_encoder_engine env (clock s) in
  (initialized j = true -> run = (ESP_OK, s)) /\
  (initialized j = false ->
   (supported_pixformat pf <-> exists params, encoder_params pf = Some params) /\
   (~ supported_pixformat pf -> run = (ESP_ERR_NOT_SUPPORTED, s)) /\
   (forall sf ss bpp,
       encoder_params pf = Some (sf, ss, bpp) ->
       let stride :=
         wrap32 (wrap32 (width (s_stream_state g) * height (s_stream_state g)) * bpp)
         / 8 in
       let mem := env_jpeg_alloc_encoder_mem env (S (clock s)) stride in
       (fst engine <> ESP_OK ->
        fst run = fst engine /\ globals (snd run) = g /\
        evs = [E_jpeg_new_encoder_engine (fst engine)]) /\
       (fst engine = ESP_OK -> fst mem = NULL ->
        fst run = ESP_ERR_NO_MEM /\ j' = set_handle NULL j /\
        evs = [E_jpeg_new_encoder_engine ESP_OK; E_jpeg_alloc_encoder_mem stride NULL;
               E_jpeg_del_encoder_engine (snd engine)]) /\
       (fst engine = ESP_OK -> fst mem <> NULL ->
        fst run = ESP_OK /\
        j' = {| handle := snd engine; src_format := sf; sub_sample := ss;
                src_stride := stride; out_buf := fst mem;
                out_buf_size := if nonzero (snd mem) then snd mem else stride;
                quality := 75; initialized := true |} /\
        evs = [E_jpeg_new_encoder_engine ESP_OK;
               E_jpeg_alloc_encoder_mem stride (fst mem)])) /\
   (fst run <> ESP_OK -> handle j = NULL ->
    initialized j' = false /\ handle j' = NULL /\ out_buf j' = out_buf j /\
    count_events engine_created evs = count_events engine_deleted evs)).
Proof.
  intros g j pf run j' evs engine. subst g j pf run j' evs engine.
  unfold events_of, jpeg_encoder_init, bind, get_globals, put_globals,
    jpeg_new_encoder_engine, jpeg_alloc_encoder_mem, jpeg_del_encoder_engine,
    effect, call, pure.
  simpl.
  destruct (initialized (s_jpeg_state (globals s))) eqn:Hinit;
    (split; [intros H; try discriminate|intros H; try discriminate]).
  { reflexivity. }
  clear H.
  pose proof (encoder_params_supported (pixformat (s_stream_state (globals s))))
    as Hsup.
  destruct (encoder_params (pixformat (s_stream_state (globals s))))
    as [[[sf0 ss0] bpp0]|] eqn:Hparams.
  2:{ simpl. rewrite drop_all.
      split; [split; [intros H; apply Hsup in H; congruence
                     |intros [? H]; discriminate]|].
      split; [reflexivity|]. split; [intros ? ? ? H; discriminate|].
      intros _ Hnull. rewrite Hinit. auto. }
  split; [split; [eauto | intros _; apply Hsup; discriminate]|].
  split; [intros H; exfalso; apply H, Hsup; discriminate|].
  destruct (env_jpeg_new_encoder_engine env (clock s)) as [err h]. simpl.
  destruct (Z.eqb_spec err ESP_OK) as [He|He]; simpl.
  - destruct (env_jpeg_alloc_encoder_mem env (S (clock s)) _) as [buf actual] eqn:Hmem.
    simpl.
    assert (Hnz : nonzero buf = negb (buf =? 0)) by reflexivity.
    destruct (Z.eqb_spec buf 0) as [Hb|Hb]; simpl in Hnz; rewrite Hnz; simpl.
    + split.
      * intros sf ss bpp [= <- <- <-]. rewrite Hmem. simpl.
        split; [intros; contradiction|]. split; [|intros _ H; contradiction].
        intros _ _. rewrite <- !app_assoc, drop_app_length, He, Hb.
        repeat split.
      * intros _ Hnull. rewrite <- !app_assoc, drop_app_length.
        unfold count_events. simpl. rewrite He, Hinit. auto.
    + split.
      * intros sf ss bpp [= <- <- <-]. rewrite Hmem. simpl.
        split; [intros; contradiction|]. split; [intros _ H; contradiction|].
        intros _ _. rewrite <- !app_assoc, drop_app_length, He.
        repeat split.
      * intros H. exfalso. apply H. reflexivity.
  - split.
    + intros sf ss bpp [= <- <- <-].
      split; [|split; intros H; contradiction].
      intros _. rewrite drop_app_length. repeat split.
    + intros _ Hnull. rewrite drop_app_length. unfold count_events. simpl.
      apply Z.eqb_neq in He. rewrite He, Hinit. auto.
Qed.

(** Negotiation at 640x480 RGB565, then configuration. *)
Lemma C6_witness :
  let env := environment_of streaming in
  let s := snd (configure_camera_device sdk env 3 (boot initial_statics)) in
  let run := jpeg_encoder_init env s in
  fst run = ESP_OK /\
  s_jpeg_state (globals (snd run))
  = {| handle := 0x4000; src_format := JPEG_ENCODE_IN_FORMAT_RGB565;
       sub_sample := JPEG_DOWN_SAMPLING_YUV422; src_stride := 614400;
       out_buf := 0x5000; out_buf_size := 614400; quality := 75;
       initialized := true |} /\
  events_of (jpeg_encoder_init env) s
  = [E_jpeg_new_encoder_engine ESP_OK; E_jpeg_alloc_encoder_mem 614400 0x5000].
Proof.
  destruct (C6_encoder_configuration (environment_of streaming)
              (snd (configure_camera_device sdk (environment_of streaming) 3
                      (boot initial_statics))))
    as (_ & Hfresh).
  destruct (Hfresh eq_refl) as (_ & _ & Hsupported & _).
  destruct (Hsupported JPEG_ENCODE_IN_FORMAT_RGB565 JPEG_DOWN_SAMPLING_YUV422 16
              eq_refl) as (_ & _ & Hok).
  apply Hok; [reflexivity | discriminate].
Defined.

(** C6 as it is stated fails: the server is started on a device at 640x480
    RGB565, so the encoder is configured; the device is then found
    delivering raw data and refusing every other format, and a second
    negotiation stores that format.  Configuration does not fail with
    [ESP_ERR_NOT_SUPPORTED] for this unsupported format: it returns [ESP_OK]
    and leaves the encoder configured for 640x480 RGB565. *)
Lemma C6_counterexample :
  let s := snd (configure_camera_device sdk (environment_of format_refused) 3
                  (serving streaming)) in
  stream_format s = (1920, 1080, V4L2_PIX_FMT_SBGGR10) /\
  ~ supported_pixformat V4L2_PIX_FMT_SBGGR10 /\
  jpeg_encoder_init (environment_of format_refused) s = (ESP_OK, s) /\
  src_format (s_jpeg_state (globals s)) = JPEG_ENCODE_IN_FORMAT_RGB565 /\
  src_stride (s_jpeg_state (globals s)) = 614400.
Proof.
  split; [vm_compute; reflexivity|].
  split; [intros [H|[H|[H|H]]]; vm_compute in H; discriminate|].
  split; [vm_compute; reflexivity|].
  split; vm_compute; reflexivity.
Qed.

(** The four supported formats are configured on a device that grants the
    engine and the buffer, and a raw format is refused. *)
Lemma encoder_configuration_runs :
  let env := environment_of streaming in
  let at_format p := mkState 0 [] (set_format 640 480 p initial_statics) in
  fst (jpeg_encoder_init env (at_format V4L2_PIX_FMT_RGB565)) = ESP_OK /\
  fst (jpeg_encoder_init env (at_format V4L2_PIX_FMT_RGB24)) = ESP_OK /\
  fst (jpeg_encoder_init env (at_format V4L2_PIX_FMT_YUV422P)) = ESP_OK /\
  fst (jpeg_encoder_init env (at_format V4L2_PIX_FMT_GREY)) = ESP_OK /\
  jpeg_encoder_init env (at_format V4L2_PIX_FMT_SBGGR10)
  = (ESP_ERR_NOT_SUPPORTED, at_format V4L2_PIX_FMT_SBGGR10).
Proof. cbv zeta. repeat split; vm_compute; reflexivity. Qed.

(** C10, as the code has it.  For every state of the server and of the
    detection context, running or not, a negative descriptor is rejected by
    both entry points with nothing done (the state, log included, is the
    one before the call): [camera_server_start] returns
    [ESP_ERR_INVALID_ARG]; [face_detect_start] returns
    [ESP_ERR_INVALID_ARG] in a build with face detection and
    [ESP_ERR_NOT_SUPPORTED] in a build without it.  With a descriptor that
    is not negative, [face_detect_start] returns [ESP_ERR_NOT_SUPPORTED] in
    a build without face detection, and [ESP_ERR_INVALID_STATE] in a build
    with it when a detection task is already running, again with nothing
    done. *)
Theorem C10_start_rejects cfg env fd fd' mqtt
    (s : state statics) (c : state FaceDetect.FaceDetectContext) :
  fd < 0 ->
  0 <= fd' ->
  camera_server_start cfg env fd s = (ESP_ERR_INVALID_ARG, s) /\
  FaceDetect.face_detect_start cfg env fd mqtt c
  = (FaceDetect.value
       (if CONFIG_APP_ENABLE_FACE_DETECTION cfg
        then ESP_ERR_INVALID_ARG else ESP_ERR_NOT_SUPPORTED), c) /\
  (CONFIG_APP_ENABLE_FACE_DETECTION cfg = false ->
   FaceDetect.face_detect_start cfg env fd' mqtt c
   = (FaceDetect.value ESP_ERR_NOT_SUPPORTED, c)) /\
  (CONFIG_APP_ENABLE_FACE_DETECTION cfg = true ->
   FaceDetect.running (globals c) = true ->
   FaceDetect.face_detect_start cfg env fd' mqtt c
   = (FaceDetect.value ESP_ERR_INVALID_STATE, c)).
Proof.
  intros Hfd Hfd'.
  unfold camera_server_start, FaceDetect.face_detect_start, bind, get_globals, pure.
  apply Z.ltb_lt in Hfd. apply Z.ltb_ge in Hfd'.
  rewrite Hfd, Hfd'.
  split; [reflexivity|]. split.
  - destruct (CONFIG_APP_ENABLE_FACE_DETECTION cfg); reflexivity.
  - split.
    + intros Hcfg. rewrite Hcfg. reflexivity.
    + intros Hcfg Hrun. rewrite Hcfg. simpl. rewrite Hrun. reflexivity.
Qed.

(** The first call, on the context as it is at start-up, with a negative
    descriptor; and a second call while the task of the first runs. *)
Lemma C10_witness :
  let env := environment_of streaming in
  camera_server_start sdk env (-1) (boot initial_statics)
  = (ESP_ERR_INVALID_ARG, boot initial_statics) /\
  FaceDetect.face_detect_start sdk env (-1) 0 (boot FaceDetect.initial_context)
  = (FaceDetect.value ESP_ERR_INVALID_ARG, boot FaceDetect.initial_context) /\
  FaceDetect.face_detect_start sdk env (-1) 0 (detecting streaming)
  = (FaceDetect.value ESP_ERR_INVALID_ARG, detecting streaming) /\
  FaceDetect.face_detect_start sdk env 3 0 (detecting streaming)
  = (FaceDetect.value ESP_ERR_INVALID_STATE, detecting streaming).
Proof.
  destruct (C10_start_rejects sdk (environment_of streaming) (-1) 3 0
              (boot initial_statics) (boot FaceDetect.initial_context))
    as (Hserver & Hfirst & _); [reflexivity | discriminate |].
  destruct (C10_start_rejects sdk (environment_of streaming) (-1) 3 0
              (boot initial_statics) (detecting streaming))
    as (_ & Hneg & _ & Hrunning); [reflexivity | discriminate |].
  split; [exact Hserver|]. split; [exact Hfirst|]. split; [exact Hneg|].
  apply Hrunning; reflexivity.
Defined.

(** C10 as it is stated fails in a build without face detection:
    [face_detect_start] answers a negative descriptor with
    [ESP_ERR_NOT_SUPPORTED], not with [ESP_ERR_INVALID_ARG]. *)
Lemma C10_counterexample :
  FaceDetect.face_detect_start sdk_no_detection (environment_of streaming) (-1) 0
    (boot FaceDetect.initial_context)
  = (FaceDetect.value ESP_ERR_NOT_SUPPORTED, boot FaceDetect.initial_context) /\
  FaceDetect.value ESP_ERR_NOT_SUPPORTED <> FaceDetect.value ESP_ERR_INVALID_ARG.
Proof. split; [reflexivity | discriminate]. Qed.

(** ** Termination of the stream handler

    The loop of the stream handler ends as soon as a dequeue fails: when the
    device delivers nothing from instant [n] on, fuel [n + 1] is enough for
    the handler to return. *)
Lemma stream_loop_returns env n :
  (forall t fd b, (n <= t)%nat -> fst (fst (env_DQBUF env t fd b)) < 0) ->
  forall fuel bufs s,
    (n < clock s + fuel)%nat -> (0 < fuel)%nat ->
    exists r, fst (stream_loop env fuel bufs s) = Some r.
Proof.
  intros Hend. induction fuel as [|fuel IH]; intros bufs s Hn Hpos; [lia|].
  simpl.
  unfold bind, get_globals, ioctl_DQBUF, ioctl_QBUF, httpd_resp_send_chunk, call,
    pure.
  simpl.
  pose proof (Hend (clock s) (s_camera_fd (globals s)) (capture_buffer 0)) as Hnow.
  destruct (env_DQBUF env (clock s) _ _) as [[rc errno] buf]. simpl in *.
  destruct (Z.ltb_spec rc 0) as [Hrc|Hrc]; [eexists; reflexivity|].
  assert (Hlt : (clock s < n)%nat).
  { destruct (Nat.le_gt_cases n (clock s)) as [H|H]; [|exact H].
    specialize (Hnow H). lia. }
  destruct (Z.land (flags buf) V4L2_BUF_FLAG_DONE =? 0).
  { apply IH; simpl; lia. }
  match goal with
  | |- context [jpeg_encode_frame env ?src ?size ?s1] =>
      pose proof (jpeg_encode_frame_streaming env src size s1) as (_ & Hclock & _);
      destruct (jpeg_encode_frame env src size s1) as [[[err jb] js] s2]
  end.
  simpl in *.
  repeat match goal with
         | |- context [if ?c then _ else _] => destruct c; simpl
         end;
    try (eexists; reflexivity);
    apply IH; simpl; lia.
Qed.

Lemma stream_handler_returns cfg env n fuel s :
  (forall t fd b, (n <= t)%nat -> fst (fst (env_DQBUF env t fd b)) < 0) ->
  (n < fuel)%nat ->
  exists r, fst (stream_handler cfg env fuel s) = Some r.
Proof.
  intros Hend Hfuel. unfold stream_handler, bind.
  destruct (camera_lock_acquire cfg env s) as [[|] s1]; simpl;
    [|eexists; reflexivity].
  unfold stream_session, bind, httpd_resp_set_type, httpd_resp_set_hdr,
    httpd_resp_send_err, calloc, effect, get_globals, ioctl_REQBUFS,
    ioctl_STREAMON, call, pure.
  simpl.
  destruct (env_REQBUFS env _ _ _) as [rc req].
  destruct ((rc <? 0) || (count req =? 0)%nat); simpl.
  { destruct (stream_cleanup env _ _). eexists; reflexivity. }
  destruct (env_calloc env _ _); simpl.
  2:{ destruct (stream_cleanup env _ _). eexists; reflexivity. }
  destruct (stream_map_buffers env _ _ _) as [[r bufs] s2]. simpl.
  destruct (r =? ESP_OK); simpl.
  2:{ destruct (stream_cleanup env _ _). eexists; reflexivity. }
  destruct (env_STREAMON env _ _ <? 0).
  { destruct (stream_cleanup env _ _). eexists; reflexivity. }
  match goal with
  | |- context [stream_loop env fuel ?b ?s3] =>
      destruct (stream_loop_returns env n Hend fuel b s3) as [r3 Hr3];
      [lia | lia |];
      destruct (stream_loop env fuel b s3) as [o s4]
  end.
  simpl in Hr3. subst o.
  destruct (stream_cleanup env _ _). eexists; reflexivity.
Qed.



(** * Further properties of [main/camera_server.c] *)

Lemma count_events_cons f e l :
  count_events f (e :: l) = ((if f e then 1 else 0) + count_events f l)%nat.
Proof. unfold count_events. simpl. destruct (f e); reflexivity. Qed.

(** ** The camera lock *)

(** X1: [camera_state_init] creates the camera lock once.  When the lock
    exists nothing is called and nothing changes; otherwise
    [xSemaphoreCreateMutex] is called once, and the result is [ESP_OK] with
    a free mutex stored, or [ESP_ERR_NO_MEM] with the lock still [NULL].
    In every case the result is [ESP_OK] exactly when a lock exists
    afterwards. *)
Theorem camera_state_init_creates_the_lock_once env (s : state statics) :
  let run := camera_state_init env s in
  let evs := events_of (camera_state_init env) s in
  (is_Some (lock_of s) -> run = (ESP_OK, s)) /\
  (lock_of s = None ->
   evs = [E_xSemaphoreCreateMutex (env_mutex_created env (clock s))] /\
   lock_of (snd run)
   = (if env_mutex_created env (clock s) then Some mutex_free else None) /\
   fst run = (if env_mutex_created env (clock s) then ESP_OK else ESP_ERR_NO_MEM)) /\
  (fst run = ESP_OK <-> is_Some (lock_of (snd run))).
Proof.
  unfold events_of, lock_of, camera_state_init, bind, get_globals, put_globals,
    xSemaphoreCreateMutex, call, pure.
  simpl.
  destruct (lock (s_stream_state (globals s))) as [m|] eqn:Hl; simpl.
  - rewrite Hl. split; [reflexivity|]. split; [discriminate|].
    split; [eauto | reflexivity].
  - split; [intros [? H]; discriminate|].
    destruct (env_mutex_created env (clock s)); simpl.
    + split.
      * intros _. rewrite drop_app_length. repeat split; reflexivity.
      * split; [eauto | reflexivity].
    + split.
      * intros _. rewrite drop_app_length. repeat split; reflexivity.
      * split; [discriminate | intros [? H]; discriminate].
Qed.

(** X2: taking the camera lock and giving it back is a round trip.  From a
    free mutex the take is granted, the two calls are all that happens, and
    the file-scope variables are afterwards what they were; without a mutex
    the take is refused and nothing is called. *)
Theorem camera_lock_acquire_release_round_trip cfg env (s : state statics) :
  let session :=
    (granted <- camera_lock_acquire cfg env ;; _ <- camera_lock_release ;; pure granted) in
  (lock_of s = Some mutex_free ->
   fst (session s) = true /\ globals (snd (session s)) = globals s /\
   events_of session s
   = [E_xSemaphoreTake (lock_ticks cfg) true; E_xSemaphoreGive true]) /\
  (lock_of s = None -> session s = (false, s)).
Proof.
  unfold lock_of, events_of, camera_lock_acquire, camera_lock_release, bind,
    get_globals, put_globals, xSemaphoreTake, xSemaphoreGive, call, pure.
  split; intros Hl; rewrite Hl; simpl.
  - assert (Hg : set_lock (Some mutex_free)
                   (set_lock (Some mutex_held) (globals s)) = globals s).
    { rewrite <- Hl. destruct (globals s) as [? ? [] ?]. reflexivity. }
    rewrite Hg. split; [reflexivity|]. split; [reflexivity|].
    rewrite <- app_assoc, drop_app_length. reflexivity.
  - rewrite Hl. reflexivity.
Qed.

Lemma camera_lock_acquire_release_round_trip_witness :
  let s := serving streaming in
  let session :=
    (granted <- camera_lock_acquire sdk (environment_of streaming) ;;
     _ <- camera_lock_release ;; pure granted) in
  fst (session s) = true /\ globals (snd (session s)) = globals s /\
  events_of session s
  = [E_xSemaphoreTake (lock_ticks sdk) true; E_xSemaphoreGive true].
Proof.
  apply (camera_lock_acquire_release_round_trip sdk (environment_of streaming)
           (serving streaming)).
  reflexivity.
Defined.

(** ** The JPEG encoder adapter *)

Lemma jpeg_encoder_deinit_spec (s : state statics) :
  let j := s_jpeg_state (globals s) in
  let s' := snd (jpeg_encoder_deinit s) in
  globals s'
  = set_jpeg_state
      {| handle := NULL; src_format := src_format j; sub_sample := sub_sample j;
         src_stride := src_stride j; out_buf := NULL;
         out_buf_size := out_buf_size j; quality := quality j;
         initialized := false |} (globals s) /\
  log s'
  = log s ++ (if nonzero (out_buf j) then [E_free] else [])
          ++ (if nonzero (handle j) then [E_jpeg_del_encoder_engine (handle j)]
              else []).
Proof.
  unfold jpeg_encoder_deinit, jpeg_del_encoder_engine, effect, bind, get_globals,
    put_globals, call, pure.
  simpl.
  destruct (nonzero (out_buf (s_jpeg_state (globals s)))) eqn:Hb;
    destruct (nonzero (handle (s_jpeg_state (globals s)))) eqn:Hh; simpl;
    rewrite ?Hh; simpl.
  all: unfold nonzero in Hb, Hh.
  all: try (apply negb_false_iff, Z.eqb_eq in Hb).
  all: try (apply negb_false_iff, Z.eqb_eq in Hh).
  all: rewrite ?Hb, ?Hh, ?app_nil_r, <- ?app_assoc; split; reflexivity.
Qed.

(** X3: [jpeg_encoder_deinit] releases what the encoder holds, once.
    Afterwards the flag is false and the handle and the output buffer are
    [NULL], the other file-scope variables are untouched; the buffer is
    freed and the engine deleted exactly when they were there; a second call
    does nothing; and [jpeg_encode_frame] then fails with
    [ESP_ERR_INVALID_STATE] without calling the encoder. *)
Theorem jpeg_encoder_deinit_releases_everything_once (s : state statics) :
  let j := s_jpeg_state (globals s) in
  let s' := snd (jpeg_encoder_deinit s) in
  let j' := s_jpeg_state (globals s') in
  (initialized j' = false /\ handle j' = NULL /\ out_buf j' = NULL) /\
  (s_server (globals s') = s_server (globals s) /\
   s_camera_fd (globals s') = s_camera_fd (globals s) /\
   s_stream_state (globals s') = s_stream_state (globals s)) /\
  events_of jpeg_encoder_deinit s
  = (if nonzero (out_buf j) then [E_free] else [])
      ++ (if nonzero (handle j) then [E_jpeg_del_encoder_engine (handle j)] else []) /\
  events_of jpeg_encoder_deinit s' = [] /\
  (forall env src size,
      jpeg_encode_frame env src size s' = (ESP_ERR_INVALID_STATE, NULL, 0, s')).
Proof.
  destruct (jpeg_encoder_deinit_spec s) as [Hg Hl].
  destruct (jpeg_encoder_deinit_spec (snd (jpeg_encoder_deinit s))) as [_ Hl2].
  simpl in *. rewrite Hg in Hl2. simpl in Hl2.
  split; [rewrite Hg; repeat split|].
  split; [rewrite Hg; repeat split|].
  split; [|split].
  - unfold events_of. rewrite Hl, drop_app_length. reflexivity.
  - unfold events_of. rewrite Hl2. simpl. rewrite app_nil_r. apply drop_all.
  - intros env src size.
    unfold jpeg_encode_frame, bind, get_globals, pure. simpl.
    rewrite Hg. reflexivity.
Qed.

(** X4: configuring the encoder and releasing it again balances.  From an
    unconfigured encoder, whatever [jpeg_encoder_init] returns, a following
    [jpeg_encoder_deinit] leaves the encoder unconfigured, every engine that
    was created has been deleted and every output buffer that was obtained
    has been freed.  The engine handle is taken not to be [NULL] when its
    creation succeeds. *)
Theorem jpeg_encoder_init_then_deinit_balances env (s : state statics) :
  let j := s_jpeg_state (globals s) in
  let session := (err <- jpeg_encoder_init env ;; _ <- jpeg_encoder_deinit ;; pure err) in
  let evs := events_of session s in
  let j' := s_jpeg_state (globals (snd (session s))) in
  initialized j = false -> handle j = NULL -> out_buf j = NULL ->
  (fst (env_jpeg_new_encoder_engine env (clock s)) = ESP_OK ->
   snd (env_jpeg_new_encoder_engine env (clock s)) <> NULL) ->
  (initialized j' = false /\ handle j' = NULL /\ out_buf j' = NULL) /\
  count_events engine_created evs = count_events engine_deleted evs /\
  count_events buffer_allocated evs = count_events is_free evs.
Proof.
  intros j session evs j' Hinit Hnull Hbuf Hengine. subst j session evs j'.
  unfold events_of, bind.
  destruct (jpeg_encoder_init env s) as [err s1] eqn:Hrun.
  destruct (jpeg_encoder_deinit_spec s1) as [Hg Hl]. simpl in Hg, Hl.
  destruct (jpeg_encoder_deinit s1) as [[] s2]. simpl in *.
  split; [rewrite Hg; repeat split|].
  rewrite Hl. clear Hg Hl s2.
  revert Hrun.
  unfold jpeg_encoder_init, bind, get_globals, put_globals,
    jpeg_new_encoder_engine, jpeg_alloc_encoder_mem, jpeg_del_encoder_engine,
    effect, call, pure.
  simpl. rewrite Hinit.
  destruct (encoder_params (pixformat (s_stream_state (globals s))))
    as [[[sf ss] bpp]|].
  2:{ intros [= <- <-]. rewrite Hbuf, Hnull. simpl.
      rewrite app_nil_r, drop_all. split; reflexivity. }
  destruct (env_jpeg_new_encoder_engine env (clock s)) as [rc h]. simpl in *.
  destruct (Z.eqb_spec rc ESP_OK) as [He|He]; simpl.
  2:{ intros [= <- <-]. simpl. rewrite Hbuf, Hnull. simpl.
      rewrite app_nil_r, drop_app_length. unfold count_events. simpl.
      apply Z.eqb_neq in He. rewrite He. split; reflexivity. }
  destruct (env_jpeg_alloc_encoder_mem env _ _) as [buf actual]. simpl.
  destruct (nonzero buf) eqn:Hb; simpl.
  - intros [= <- <-]. simpl. rewrite Hb.
    assert (Hh : nonzero h = true).
    { unfold nonzero. apply negb_true_iff, Z.eqb_neq. auto. }
    rewrite Hh, <- !app_assoc, drop_app_length. unfold count_events. simpl.
    rewrite Hb, He. split; reflexivity.
  - intros [= <- <-]. simpl. rewrite Hbuf. simpl.
    rewrite app_nil_r, <- !app_assoc, drop_app_length. unfold count_events. simpl.
    rewrite Hb, He. split; reflexivity.
Qed.

Lemma jpeg_encoder_init_then_deinit_balances_witness :
  let env := environment_of streaming in
  let s := snd (configure_camera_device sdk env 3 (boot initial_statics)) in
  let session := (err <- jpeg_encoder_init env ;; _ <- jpeg_encoder_deinit ;; pure err) in
  let evs := events_of session s in
  let j' := s_jpeg_state (globals (snd (session s))) in
  (initialized j' = false /\ handle j' = NULL /\ out_buf j' = NULL) /\
  count_events engine_created evs = count_events engine_deleted evs /\
  count_events buffer_allocated evs = count_events is_free evs.
Proof.
  apply (jpeg_encoder_init_then_deinit_balances (environment_of streaming)
           (snd (configure_camera_device sdk (environment_of streaming) 3
                   (boot initial_statics)))).
  - reflexivity.
  - reflexivity.
  - reflexivity.
  - intros _. discriminate.
Defined.

(** ** The loop of the stream handler *)

Lemma jpeg_encode_frame_calls env src size :
  respects (logs_only encoder_call) (jpeg_encode_frame env src size).
Proof. unfold jpeg_encode_frame. logs_only_tac. Qed.

Lemma encoder_call_not_queue l :
  Forall encoder_call l ->
  count_events is_queue l = O /\ count_events successful_dequeue l = O.
Proof.
  intros H. split; apply (count_events_none _ encoder_call); auto;
    intros []; simpl; tauto.
Qed.

(** The loop of the stream handler is only left with [ESP_FAIL], and every
    buffer it took from the driver was given back to it. *)
Lemma stream_loop_spec env bufs fuel :
  forall s r s',
    stream_loop env fuel bufs s = (Some r, s') ->
    r = ESP_FAIL /\
    exists evs,
      log s' = log s ++ evs /\
      count_events is_queue evs = count_events successful_dequeue evs.
Proof.
  induction fuel as [|fuel IH]; intros s r s' H; [discriminate|].
  simpl in H.
  unfold bind, get_globals, ioctl_DQBUF, ioctl_QBUF, httpd_resp_send_chunk, call,
    pure in H.
  simpl in H.
  destruct (env_DQBUF env (clock s) _ _) as [[rc errno] buf]. simpl in H.
  destruct (rc <? 0) eqn:Hrc.
  { injection H as <- <-. split; [reflexivity|]. eexists.
    split; [reflexivity|]. simpl. rewrite !count_events_cons. simpl.
    rewrite Hrc. reflexivity. }
  assert (Hstep : forall (tail : list event) n m,
             n = S m ->
             count_events is_queue tail = n ->
             count_events successful_dequeue tail = m ->
             count_events is_queue
               (E_ioctl (s_camera_fd (globals s)) VIDIOC_DQBUF rc :: tail)
             = count_events successful_dequeue
                 (E_ioctl (s_camera_fd (globals s)) VIDIOC_DQBUF rc :: tail)).
  { intros tail n m -> Hq Hd. rewrite !count_events_cons. simpl.
    rewrite Hrc, Hq, Hd. reflexivity. }
  destruct (Z.land (flags buf) V4L2_BUF_FLAG_DONE =? 0).
  { apply IH in H as (-> & evs & Hl & Hc). split; [reflexivity|].
    simpl in Hl. eexists. split; [rewrite Hl, <- !app_assoc; reflexivity|].
    simpl. eapply Hstep; [reflexivity| |reflexivity].
    rewrite count_events_cons. simpl. rewrite Hc. reflexivity. }
  match type of H with
  | context [jpeg_encode_frame env ?src ?size ?s1] =>
      pose proof (jpeg_encode_frame_calls env src size s1)
        as (Hg & _ & e1 & Hl1 & Hf1);
      destruct (jpeg_encode_frame env src size s1) as [[[err jb] js] s2]
  end.
  simpl in Hg, Hl1, H.
  destruct (encoder_call_not_queue e1 Hf1) as [Hq1 Hd1].
  assert (Hend : forall (sent : list event) rc',
             count_events is_queue sent = O ->
             count_events successful_dequeue sent = O ->
             count_events is_queue
               (E_ioctl (s_camera_fd (globals s)) VIDIOC_DQBUF rc
                  :: e1 ++ sent ++ [E_ioctl (s_camera_fd (globals s)) VIDIOC_QBUF rc'])
             = count_events successful_dequeue
                 (E_ioctl (s_camera_fd (globals s)) VIDIOC_DQBUF rc
                    :: e1 ++ sent ++ [E_ioctl (s_camera_fd (globals s)) VIDIOC_QBUF rc'])).
  { intros sent rc' Hsq Hsd.
    eapply Hstep; [reflexivity| |].
    - rewrite !count_events_app, Hq1, Hsq. reflexivity.
    - rewrite !count_events_app, Hd1, Hsd. reflexivity. }
  destruct (negb (err =? ESP_OK)); simpl in H.
  { injection H as <- <-. split; [reflexivity|]. eexists.
    split; [simpl; rewrite Hl1, <- !app_assoc; reflexivity|].
    simpl. apply (Hend []); reflexivity. }
  destruct (negb (env_httpd_resp_send_chunk env _ _ =? ESP_OK)); simpl in H.
  { injection H as <- <-. split; [reflexivity|]. eexists.
    split; [simpl; rewrite Hl1, <- !app_assoc; reflexivity|].
    simpl. apply (Hend [_]); reflexivity. }
  destruct (negb (env_httpd_resp_send_chunk env _ _ =? ESP_OK)); simpl in H.
  { injection H as <- <-. split; [reflexivity|]. eexists.
    split; [simpl; rewrite Hl1, <- !app_assoc; reflexivity|].
    simpl. apply (Hend [_; _]); reflexivity. }
  destruct (negb (env_httpd_resp_send_chunk env _ _ =? ESP_OK)); simpl in H.
  { injection H as <- <-. split; [reflexivity|]. eexists.
    split; [simpl; rewrite Hl1, <- !app_assoc; reflexivity|].
    simpl. apply (Hend [_; _; _]); reflexivity. }
  destruct (env_QBUF env _ _ _ <? 0).
  { injection H as <- <-. split; [reflexivity|]. eexists.
    split; [simpl; rewrite Hl1, <- !app_assoc; reflexivity|].
    simpl. apply (Hend [_; _; _]); reflexivity. }
  apply IH in H as (-> & evs & Hl & Hc). split; [reflexivity|].
  simpl in Hl. eexists.
  split; [rewrite Hl, Hl1, <- !app_assoc; reflexivity|].
  simpl. eapply Hstep; [reflexivity| |reflexivity].
  rewrite !count_events_app, Hq1, Hd1. simpl.
  rewrite !count_events_cons. simpl. rewrite Hc. reflexivity.
Qed.

(** X5: the loop of the stream handler gives back what it takes.  When the
    loop is left, it is left with [ESP_FAIL], and it has issued
    [VIDIOC_QBUF] once for every [VIDIOC_DQBUF] that succeeded, also for the
    frame at which encoding or sending failed. *)
Theorem stream_loop_requeues_every_buffer env fuel bufs (s : state statics) r :
  fst (stream_loop env fuel bufs s) = Some r ->
  let evs := events_of (stream_loop env fuel bufs) s in
  r = ESP_FAIL /\
  count_events is_queue evs = count_events successful_dequeue evs.
Proof.
  intros H. simpl.
  destruct (stream_loop env fuel bufs s) as [o s'] eqn:Hrun.
  simpl in H. subst o.
  destruct (stream_loop_spec env bufs fuel s r s' Hrun) as (Hr & evs & Hl & Hc).
  split; [exact Hr|].
  unfold events_of. rewrite Hrun. simpl. rewrite Hl, drop_app_length. exact Hc.
Qed.

Lemma stream_loop_requeues_every_buffer_witness :
  let env := environment_of streaming in
  let s := serving streaming in
  let evs := events_of (stream_loop env 30 []) s in
  fst (stream_loop env 30 [] s) = Some ESP_FAIL /\
  count_events is_queue evs = count_events successful_dequeue evs.
Proof.
  split; [vm_compute; reflexivity|].
  apply (proj2 (stream_loop_requeues_every_buffer (environment_of streaming) 30 []
                  (serving streaming) ESP_FAIL eq_refl)).
Defined.

(** X6: a buffer dequeued without [V4L2_BUF_FLAG_DONE] is queued again at
    once and the loop goes on: nothing is encoded or sent for it, and the
    result of that [VIDIOC_QBUF] is not looked at. *)
Theorem stream_loop_requeues_an_unfinished_buffer env fuel bufs (s : state statics) :
  let fd := s_camera_fd (globals s) in
  let reply := env_DQBUF env (clock s) fd (capture_buffer 0) in
  let buf := snd reply in
  0 <= fst (fst reply) ->
  Z.land (flags buf) V4L2_BUF_FLAG_DONE = 0 ->
  stream_loop env (S fuel) bufs s
  = stream_loop env fuel bufs
      (mkState (S (S (clock s)))
         (log s ++ [E_ioctl fd VIDIOC_DQBUF (fst (fst reply));
                    E_ioctl fd VIDIOC_QBUF (env_QBUF env (S (clock s)) fd buf)])
         (globals s)).
Proof.
  intros fd reply buf Hrc Hdone. subst fd reply buf. simpl.
  unfold bind, get_globals, ioctl_DQBUF, ioctl_QBUF, call, pure. simpl.
  destruct (env_DQBUF env (clock s) _ _) as [[rc errno] buf]. simpl in *.
  apply Z.ltb_ge in Hrc. rewrite Hrc, Hdone. simpl.
  rewrite <- app_assoc. reflexivity.
Qed.

Lemma stream_loop_requeues_an_unfinished_buffer_witness :
  let env := environment_of unfinished_buffers_first in
  let s := serving unfinished_buffers_first in
  stream_loop env 10 [] s
  = stream_loop env 9 []
      (mkState (S (S (clock s)))
         (log s ++ [E_ioctl 3 VIDIOC_DQBUF 0; E_ioctl 3 VIDIOC_QBUF 0])
         (globals s)).
Proof.
  apply (stream_loop_requeues_an_unfinished_buffer
           (environment_of unfinished_buffers_first) 9 []
           (serving unfinished_buffers_first)).
  - vm_compute. discriminate.
  - reflexivity.
Defined.

(** ** The part header of the multipart stream *)

Lemma string_of_uint_length d :
  String.length (NilEmpty.string_of_uint d) = Decimal.nb_digits d.
Proof. induction d; simpl; congruence. Qed.

Lemma of_uint_acc_lower d :
  forall acc,
    Z.pos acc * 10 ^ Z.of_nat (Decimal.nb_digits d) <= Z.pos (Pos.of_uint_acc d acc).
Proof.
  induction d as [|d IH|d IH|d IH|d IH|d IH|d IH|d IH|d IH|d IH|d IH]; intros acc;
    [simpl; lia|..];
    cbn [Pos.of_uint_acc Decimal.nb_digits];
    rewrite Nat2Z.inj_succ, Z.pow_succ_r by lia;
    match goal with
    | |- _ <= Z.pos (Pos.of_uint_acc d ?a) => specialize (IH a)
    end;
    assert (0 < 10 ^ Z.of_nat (Decimal.nb_digits d)) by (apply Z.pow_pos_nonneg; lia);
    nia.
Qed.

(** A number written without leading zeros is at least the power of ten
    its digits reach. *)
Lemma nzhead_lower d :
  Decimal.nzhead d = Decimal.Nil \/
  10 ^ (Z.of_nat (Decimal.nb_digits (Decimal.nzhead d)) - 1) <= Z.of_N (N.of_uint d).
Proof.
  unfold N.of_uint.
  induction d as [|d IH|d IH|d IH|d IH|d IH|d IH|d IH|d IH|d IH|d IH];
    [left; reflexivity | exact IH |..];
    right; cbn [Decimal.nzhead Pos.of_uint Decimal.nb_digits Z.of_N];
    rewrite Nat2Z.inj_succ;
    replace (Z.succ (Z.of_nat (Decimal.nb_digits d)) - 1)
      with (Z.of_nat (Decimal.nb_digits d)) by lia;
    match goal with
    | |- _ <= Z.pos (Pos.of_uint_acc d ?a) => pose proof (of_uint_acc_lower d a)
    end;
    assert (0 < 10 ^ Z.of_nat (Decimal.nb_digits d)) by (apply Z.pow_pos_nonneg; lia);
    nia.
Qed.

Lemma decimal_digits_32 (n : Z) :
  0 <= n < 2 ^ 32 ->
  (1 <= String.length (NilZero.string_of_uint (N.to_uint (Z.to_N n))) <= 10)%nat.
Proof.
  intros Hn.
  set (d := N.to_uint (Z.to_N n)).
  assert (Hnorm : d = Decimal.unorm d).
  { unfold d. rewrite <- (DecimalN.Unsigned.of_to (Z.to_N n)) at 1.
    apply DecimalN.Unsigned.to_of. }
  assert (Hval : Z.of_N (N.of_uint d) = n).
  { unfold d. rewrite DecimalN.Unsigned.of_to. lia. }
  assert (Hlen : String.length (NilZero.string_of_uint d)
                 = Nat.max 1 (Decimal.nb_digits d)).
  { unfold NilZero.string_of_uint. destruct d; try reflexivity;
      rewrite string_of_uint_length; simpl; lia. }
  rewrite Hlen.
  destruct (nzhead_lower d) as [Hnil|Hlow].
  - unfold Decimal.unorm in Hnorm. rewrite Hnil in Hnorm. rewrite Hnorm.
    simpl. lia.
  - unfold Decimal.unorm in Hnorm.
    destruct (Decimal.nzhead d) eqn:Hz;
      [rewrite Hnorm; simpl; lia | rewrite <- Hnorm in Hlow..].
    all: rewrite Hval in Hlow.
    all: destruct (Nat.le_gt_cases (Decimal.nb_digits d) 10) as [Hle|Hgt]; [lia|].
    all: exfalso.
    all: assert (10 ^ 10 <= 10 ^ (Z.of_nat (Decimal.nb_digits d) - 1))
           by (apply Z.pow_le_mono_r; lia).
    all: lia.
Qed.

Lemma string_length_app (s1 s2 : string) :
  String.length (s1 +:+ s2) = (String.length s1 + String.length s2)%nat.
Proof.
  induction s1 as [|c s1 IH]; [reflexivity|].
  change (String.length (String c (s1 +:+ s2))
          = S (String.length s1 + String.length s2)).
  simpl. by rewrite IH.
Qed.

Lemma wrap32_range x : 0 <= wrap32 x < 2 ^ 32.
Proof. unfold wrap32. apply Z.mod_pos_bound. lia. Qed.

(** X7: the part header written with [snprintf] fits [part_buf].  For
    every 32-bit length the header has between 47 and 56 characters, so
    it is never cut at the 96 characters of [part_buf], and the test
    [hdr_len <= 0] of the loop never fires. *)
Theorem stream_part_header_fits_the_buffer (jpeg_size : Z) :
  let hdr_len := strlen (STREAM_PART (wrap32 jpeg_size)) in
  47 <= hdr_len <= 56 /\ 0 < hdr_len < PART_BUF_SIZE.
Proof.
  pose proof (decimal_digits_32 (wrap32 jpeg_size) (wrap32_range jpeg_size)) as Hd.
  unfold strlen, STREAM_PART, PART_BUF_SIZE, CRLF. simpl.
  rewrite !string_length_app. simpl. lia.
Qed.

(** ** The two handlers that use the camera *)

Lemma stream_map_buffers_mapping env todo bufs :
  respects (logs_only mapping_event) (stream_map_buffers env todo bufs).
Proof.
  revert bufs. induction todo as [|i todo IH]; intros bufs; simpl.
  - apply lo_pure.
  - logs_only_tac.
Qed.

Lemma stream_map_buffers_result env todo :
  forall bufs (s : state statics),
    let r := fst (fst (stream_map_buffers env todo bufs s)) in
    r = ESP_OK \/ r = ESP_FAIL.
Proof.
  induction todo as [|i todo IH]; intros bufs s; simpl; [by left|].
  unfold bind, get_globals, ioctl_QUERYBUF, mmap, ioctl_QBUF, call, pure. simpl.
  destruct (env_QUERYBUF env (clock s) _ _) as [rc buf]. simpl.
  destruct (rc <? 0); [by right|]. simpl.
  match goal with
  | |- context [?a =? MAP_FAILED] => destruct (a =? MAP_FAILED)
  end; [by right|]. simpl.
  destruct (env_QBUF env _ _ _ <? 0); [by right|]. apply IH.
Qed.

Lemma no_switch_mapping l :
  Forall mapping_event l ->
  count_events is_stream_on l = O /\ count_events is_stream_off l = O.
Proof.
  intros H. split; apply (count_events_none _ mapping_event); auto;
    intros [| | | |? []| | | | | | | | | | | | | | | | | | | | | | | |]; simpl; tauto.
Qed.

Lemma no_switch_streaming l :
  Forall streaming_event l ->
  count_events is_stream_on l = O /\ count_events is_stream_off l = O.
Proof.
  intros H. split; apply (count_events_none _ streaming_event); auto;
    intros [| | | |? []| | | | | | | | | | | | | | | | | | | | | | | |]; simpl; tauto.
Qed.

(** What a session of the stream handler leaves for [cleanup]: an error
    code in [ret], and the stream started exactly when [stream_started]
    says so. *)
Lemma stream_session_outcome env fuel (s : state statics) l s' :
  stream_session env fuel s = (Some l, s') ->
  (ret l = ESP_FAIL \/ ret l = ESP_ERR_NO_MEM) /\
  exists evs,
    log s' = log s ++ evs /\
    count_events is_stream_on evs = (if stream_started l then 1 else 0)%nat /\
    count_events is_stream_off evs = O.
Proof.
  intros H.
  unfold stream_session, bind, httpd_resp_set_type, httpd_resp_set_hdr,
    httpd_resp_send_err, calloc, effect, get_globals, ioctl_REQBUFS,
    ioctl_STREAMON, call, pure in H.
  simpl in H.
  destruct (env_REQBUFS env _ _ _) as [rc req].
  destruct ((rc <? 0) || (count req =? 0)%nat).
  { injection H as <- <-. simpl. split; [by left|].
    eexists. split; [rewrite <- !app_assoc; reflexivity|]. split; reflexivity. }
  simpl in H. destruct (env_calloc env _ _); simpl in H.
  2:{ injection H as <- <-. simpl. split; [by right|].
      eexists. split; [rewrite <- !app_assoc; reflexivity|]. split; reflexivity. }
  match type of H with
  | context [stream_map_buffers env ?todo ?b ?s1] =>
      pose proof (stream_map_buffers_result env todo b s1) as Hr;
      pose proof (stream_map_buffers_mapping env todo b s1)
        as (_ & _ & e1 & Hl1 & Hf1);
      destruct (stream_map_buffers env todo b s1) as [[r bufs] s2]
  end.
  simpl in Hr, Hl1. destruct (no_switch_mapping e1 Hf1) as [Hon1 Hoff1].
  destruct (Z.eqb_spec r ESP_OK) as [->|Hne]; simpl in H.
  2:{ injection H as <- <-. simpl. split; [left; tauto|].
      eexists. split; [rewrite Hl1, <- !app_assoc; reflexivity|].
      change (?a :: ?b :: ?c :: ?d :: e1) with ([a; b; c; d] ++ e1).
      rewrite !count_events_app, Hon1, Hoff1. split; reflexivity. }
  destruct (env_STREAMON env _ _ <? 0) eqn:Hon.
  { injection H as <- <-. simpl. split; [by left|].
    eexists. split; [rewrite Hl1, <- !app_assoc; reflexivity|].
    change (?a :: ?b :: ?c :: ?d :: e1 ++ ?t) with ([a; b; c; d] ++ e1 ++ t).
    rewrite !count_events_app, Hon1, Hoff1. unfold count_events. simpl.
    rewrite Hon. split; reflexivity. }
  match type of H with
  | context [stream_loop env fuel ?b ?s3] =>
      pose proof (stream_loop_streaming env fuel b s3) as (_ & _ & e2 & Hl2 & Hf2);
      destruct (stream_loop env fuel b s3) as [[r2|] s4] eqn:Hloop
  end; [|discriminate].
  apply stream_loop_spec in Hloop as [-> _].
  destruct (no_switch_streaming e2 Hf2) as [Hon2 Hoff2].
  injection H as <- <-. simpl in *. split; [by left|].
  eexists. split; [rewrite Hl2, Hl1, <- !app_assoc; reflexivity|].
  change (?a :: ?b :: ?c :: ?d :: e1 ++ ?t :: e2) with ([a; b; c; d] ++ e1 ++ [t] ++ e2).
  rewrite !count_events_app, Hon1, Hoff1, Hon2, Hoff2. unfold count_events. simpl.
  rewrite Hon. split; reflexivity.
Qed.

Lemma unmap_buffers_release todo bufs :
  respects (emits_only release_event) (unmap_buffers todo bufs).
Proof. induction todo as [|i todo IH]; simpl; logs_only_tac. Qed.

Lemma camera_lock_release_release :
  respects (emits_only release_event) camera_lock_release.
Proof. unfold camera_lock_release, xSemaphoreGive. logs_only_tac. Qed.

Lemma no_switch_release l :
  Forall release_event l ->
  count_events is_stream_on l = O /\ count_events is_stream_off l = O.
Proof.
  intros H. split; apply (count_events_none _ release_event); auto;
    intros []; simpl; tauto.
Qed.

Lemma stream_cleanup_switch env l (s : state statics) :
  exists evs,
    log (snd (stream_cleanup env l s)) = log s ++ evs /\
    count_events is_stream_off evs = (if stream_started l then 1 else 0)%nat /\
    count_events is_stream_on evs = O.
Proof.
  assert (Hrest : respects (emits_only release_event)
            (_ <- match buffers l with
                  | Some bufs =>
                      _ <- unmap_buffers (seq 0 (count (req_buf l))) bufs ;;
                      effect E_free
                  | None => pure tt
                  end ;;
             camera_lock_release)).
  { pose proof unmap_buffers_release. pose proof camera_lock_release_release.
    logs_only_tac. }
  unfold stream_cleanup.
  unfold bind at 1 2. unfold get_globals, ioctl_STREAMOFF, call.
  destruct (stream_started l); simpl.
  - match goal with
    | |- context [bind ?m ?k ?s1] => destruct (Hrest s1) as (evs & Hl & Hf)
    end.
    simpl in Hl. destruct (no_switch_release evs Hf) as [Hon Hoff].
    eexists. split; [rewrite Hl, <- app_assoc; reflexivity|].
    rewrite !count_events_app, Hon, Hoff. split; reflexivity.
  - destruct (Hrest s) as (evs & Hl & Hf).
    destruct (no_switch_release evs Hf) as [Hon Hoff].
    exists evs. split; [|split]; [|exact Hoff | exact Hon].
    rewrite <- Hl. destruct s; reflexivity.
Qed.

Lemma jpeg_encode_frame_success env src size (s : state statics) :
  let run := jpeg_encode_frame env src size s in
  fst (fst (fst run)) = ESP_OK ->
  log (snd run) = log s ++ [E_jpeg_encoder_process ESP_OK].
Proof.
  unfold jpeg_encode_frame, bind, get_globals, call, pure. simpl.
  destruct (initialized (s_jpeg_state (globals s))); simpl; [|discriminate].
  destruct (env_jpeg_encoder_process env (clock s) src size) as [err n]. simpl.
  destruct (Z.eqb_spec err ESP_OK) as [->|He]; simpl; [reflexivity|].
  intros H. contradiction.
Qed.

Lemma no_switch_encoder l :
  Forall encoder_call l ->
  count_events is_stream_on l = O /\ count_events is_stream_off l = O.
Proof.
  intros H. split; apply (count_events_none _ encoder_call); auto;
    intros []; simpl; tauto.
Qed.

Lemma capture_session_outcome env (s : state statics) :
  let l := fst (capture_session env s) in
  let s' := snd (capture_session env s) in
  exists evs,
    log s' = log s ++ evs /\
    count_events is_stream_on evs = (if cap_stream_started l then 1 else 0)%nat /\
    count_events is_stream_off evs = O /\
    (cap_ret l = ESP_OK -> exists pre size, evs = pre ++ picture_sent size).
Proof.
  unfold capture_session, bind, httpd_resp_set_type, httpd_resp_set_hdr,
    httpd_resp_send_err, httpd_resp_send, effect, get_globals,
    ioctl_REQBUFS, ioctl_QUERYBUF, ioctl_QBUF, ioctl_STREAMON, ioctl_DQBUF,
    mmap, call, pure.
  simpl.
  destruct (env_REQBUFS env _ _ _) as [rc req].
  destruct ((rc <? 0) || (count req =? 0)%nat); simpl.
  { eexists. split; [log_extension|]. repeat split; discriminate. }
  destruct (env_QUERYBUF env _ _ _) as [rc1 buf]. destruct (rc1 <? 0); simpl.
  { eexists. split; [log_extension|]. repeat split; discriminate. }
  match goal with
  | |- context [?a =? MAP_FAILED] => destruct (a =? MAP_FAILED)
  end; simpl.
  { eexists. split; [log_extension|]. repeat split; discriminate. }
  destruct (env_QBUF env _ _ _ <? 0); simpl.
  { eexists. split; [log_extension|]. repeat split; discriminate. }
  destruct (env_STREAMON env _ _ <? 0) eqn:Hon; simpl.
  { eexists. split; [log_extension|]. unfold count_events. simpl. rewrite Hon.
    repeat split; discriminate. }
  destruct (env_DQBUF env _ _ _) as [[rc2 errno] buf2]. simpl.
  destruct (rc2 <? 0); simpl.
  { eexists. split; [log_extension|]. unfold count_events. simpl. rewrite Hon.
    repeat split; discriminate. }
  match goal with
  | |- context [jpeg_encode_frame env ?src ?size ?s1] =>
      pose proof (jpeg_encode_frame_calls env src size s1)
        as (_ & _ & evs & Hl & Hf);
      pose proof (jpeg_encode_frame_success env src size s1) as Hok;
      destruct (jpeg_encode_frame env src size s1) as [[[err jb] js] s2]
  end.
  simpl in Hl, Hok.
  destruct (no_switch_encoder evs Hf) as [Hon1 Hoff1].
  destruct (Z.eqb_spec err ESP_OK) as [->|He]; simpl.
  - eexists. split; [rewrite Hl; log_extension|].
    change (?a :: ?b :: ?c :: ?d :: ?e :: ?f :: evs ++ ?t)
      with ([a; b; c; d; e; f] ++ evs ++ t).
    rewrite !count_events_app, Hon1, Hoff1. unfold count_events. simpl.
    rewrite Hon. split; [reflexivity|]. split; [reflexivity|].
    intros Hsent. rewrite Hsent.
    specialize (Hok eq_refl). rewrite Hl in Hok. apply app_inv_head in Hok. subst evs.
    match goal with
    | |- exists pre size, ?a :: ?b :: ?c :: ?d :: ?e :: ?f :: _ = _ =>
        exists [a; b; c; d; e; f], js
    end.
    reflexivity.
  - eexists. split; [rewrite Hl; log_extension|].
    change (?a :: ?b :: ?c :: ?d :: ?e :: ?f :: evs ++ ?t)
      with ([a; b; c; d; e; f] ++ evs ++ t).
    rewrite !count_events_app, Hon1, Hoff1. unfold count_events. simpl.
    rewrite Hon. repeat split; discriminate.
Qed.

Lemma capture_cleanup_switch env l (s : state statics) :
  exists evs,
    log (snd (capture_cleanup env l s)) = log s ++ evs /\
    count_events is_stream_off evs = (if cap_stream_started l then 1 else 0)%nat /\
    count_events is_stream_on evs = O.
Proof.
  assert (Hrest : respects (emits_only release_event)
            (_ <- (if nonzero (addr (buffer l))
                   then munmap (addr (buffer l)) (len (buffer l)) else pure tt) ;;
             camera_lock_release)).
  { pose proof camera_lock_release_release. logs_only_tac. }
  unfold capture_cleanup.
  unfold bind at 1 2. unfold get_globals, ioctl_STREAMOFF, call.
  destruct (cap_stream_started l); simpl.
  - match goal with
    | |- context [bind ?m ?k ?s1] => destruct (Hrest s1) as (evs & Hl & Hf)
    end.
    simpl in Hl. destruct (no_switch_release evs Hf) as [Hon Hoff].
    eexists. split; [rewrite Hl, <- app_assoc; reflexivity|].
    rewrite !count_events_app, Hon, Hoff. split; reflexivity.
  - destruct (Hrest s) as (evs & Hl & Hf).
    destruct (no_switch_release evs Hf) as [Hon Hoff].
    exists evs. split; [|split]; [|exact Hoff | exact Hon].
    rewrite <- Hl. destruct s; reflexivity.
Qed.

(** The events of either handler: a refused take and the answer, or the
    take, the session, [cleanup]. *)
Lemma stream_handler_log cfg env fuel (s : state statics) r s' :
  stream_handler cfg env fuel s = (Some r, s') ->
  (r = ESP_FAIL \/ r = ESP_ERR_NO_MEM) /\
  exists evs,
    log s' = log s ++ evs /\
    count_events is_stream_off evs = count_events is_stream_on evs /\
    (count_events is_stream_on evs <= 1)%nat.
Proof.
  intros H. unfold stream_handler, bind in H.
  destruct (fst (camera_lock_acquire cfg env s)) eqn:Hacq.
  - pose proof (camera_lock_acquire_granted cfg env s Hacq) as [_ Hl]. simpl in Hl.
    destruct (camera_lock_acquire cfg env s) as [b s1]. simpl in *. subst b.
    simpl in H.
    destruct (stream_session env fuel s1) as [[l|] s2] eqn:Hs; [|discriminate].
    apply stream_session_outcome in Hs as (Hret & e1 & Hl1 & Hon1 & Hoff1).
    destruct (stream_cleanup_switch env l s2) as (e2 & Hl2 & Hoff2 & Hon2).
    destruct (stream_cleanup env l s2) as [[] s3]. simpl in *.
    injection H as <- <-. split; [exact Hret|].
    eexists. split; [rewrite Hl2, Hl1, Hl, <- !app_assoc; reflexivity|].
    rewrite !count_events_app, Hon1, Hoff1, Hon2, Hoff2.
    unfold count_events. simpl. destruct (stream_started l); split; lia.
  - pose proof (camera_lock_acquire_denied cfg env s Hacq) as [_ Hl]. simpl in Hl.
    destruct (camera_lock_acquire cfg env s) as [b s1]. simpl in *. subst b.
    simpl in H. unfold httpd_resp_send_err, effect, bind, call, pure in H.
    simpl in H. injection H as <- <-. split; [by left|]. simpl.
    destruct Hl as [[_ Hl]|[_ Hl]]; rewrite Hl; eexists;
      (split; [rewrite <- ?app_assoc; reflexivity|]);
      unfold count_events; simpl; split; lia.
Qed.

Lemma capture_handler_log cfg env (s : state statics) :
  let r := fst (capture_handler cfg env s) in
  let s' := snd (capture_handler cfg env s) in
  exists evs,
    log s' = log s ++ evs /\
    count_events is_stream_off evs = count_events is_stream_on evs /\
    (count_events is_stream_on evs <= 1)%nat /\
    (r = ESP_OK -> exists pre size post, evs = pre ++ picture_sent size ++ post).
Proof.
  unfold capture_handler, bind.
  destruct (fst (camera_lock_acquire cfg env s)) eqn:Hacq.
  - pose proof (camera_lock_acquire_granted cfg env s Hacq) as [_ Hl]. simpl in Hl.
    destruct (camera_lock_acquire cfg env s) as [b s1]. simpl in *. subst b.
    simpl.
    pose proof (capture_session_outcome env s1) as (e1 & Hl1 & Hon1 & Hoff1 & Hsent).
    destruct (capture_session env s1) as [l s2]. simpl in *.
    destruct (capture_cleanup_switch env l s2) as (e2 & Hl2 & Hoff2 & Hon2).
    destruct (capture_cleanup env l s2) as [[] s3]. simpl in *.
    eexists. split; [rewrite Hl2, Hl1, Hl, <- !app_assoc; reflexivity|].
    rewrite !count_events_app, Hon1, Hoff1, Hon2, Hoff2.
    unfold count_events. simpl.
    split; [destruct (cap_stream_started l); lia|].
    split; [destruct (cap_stream_started l); lia|].
    intros Hok. destruct (Hsent Hok) as (pre & size & ->).
    exists (E_xSemaphoreTake (lock_ticks cfg) true :: pre), size, e2.
    simpl. by rewrite <- app_assoc.
  - pose proof (camera_lock_acquire_denied cfg env s Hacq) as [_ Hl]. simpl in Hl.
    destruct (camera_lock_acquire cfg env s) as [b s1]. simpl in *. subst b.
    simpl. unfold httpd_resp_send_err, effect, bind, call, pure. simpl.
    destruct Hl as [[_ Hl]|[_ Hl]]; rewrite Hl; eexists;
      (split; [rewrite <- ?app_assoc; reflexivity|]);
      unfold count_events; simpl; (split; [lia|]); (split; [lia|]);
      discriminate.
Qed.

(** X8: the stream handler without buffers.  With the lock taken, when
    [VIDIOC_REQBUFS] fails or grants no buffer the handler answers 500
    "Unable to alloc buffers" and returns [ESP_FAIL]; when the buffers are
    granted and [calloc] fails it answers 500 "Out of memory" and returns
    [ESP_ERR_NO_MEM].  In both cases the events are exactly the take, the
    two response headers, the request, the allocation if any, the error
    answer and the give: nothing was mapped, queued or streamed. *)
Theorem stream_handler_without_buffers cfg env fuel (s : state statics) :
  let fd := s_camera_fd (globals s) in
  let reply :=
    env_REQBUFS env (S (S (S (clock s)))) fd
      {| count := STREAM_BUFFER_COUNT; req_type := V4L2_BUF_TYPE_VIDEO_CAPTURE;
         req_memory := V4L2_MEMORY_MMAP |} in
  let granted := count (snd reply) in
  let run := stream_handler cfg env fuel s in
  let evs := events_of (stream_handler cfg env fuel) s in
  let opening :=
    [E_xSemaphoreTake (lock_ticks cfg) true;
     E_httpd_resp_set_type STREAM_CONTENT_TYPE;
     E_httpd_resp_set_hdr "Access-Control-Allow-Origin" "*";
     E_ioctl fd VIDIOC_REQBUFS (fst reply)] in
  lock_of s = Some mutex_free ->
  (fst reply < 0 \/ granted = O ->
   fst run = Some ESP_FAIL /\
   evs = opening ++ [E_httpd_resp_send_err 500 "Unable to alloc buffers";
                     E_xSemaphoreGive true]) /\
  (0 <= fst reply -> granted <> O ->
   env_calloc env (S (S (S (S (clock s))))) granted = false ->
   fst run = Some ESP_ERR_NO_MEM /\
   evs = opening ++ [E_calloc granted false;
                     E_httpd_resp_send_err 500 "Out of memory";
                     E_xSemaphoreGive true]).
Proof.
  intros fd reply granted run evs opening Hlock.
  subst fd reply granted run evs opening.
  unfold lock_of in Hlock.
  unfold events_of, stream_handler, camera_lock_acquire, stream_session,
    stream_cleanup, camera_lock_release, bind, httpd_resp_set_type,
    httpd_resp_set_hdr, httpd_resp_send_err, calloc, effect, get_globals,
    put_globals, xSemaphoreTake, xSemaphoreGive, ioctl_REQBUFS, call, pure.
  rewrite Hlock. simpl.
  destruct (env_REQBUFS env _ _ _) as [rc req]. simpl.
  split.
  - intros Hfail.
    assert (Hc : (rc <? 0) || (count req =? 0)%nat = true).
    { destruct Hfail as [Hfail|Hfail].
      - apply Z.ltb_lt in Hfail. by rewrite Hfail.
      - rewrite Hfail. apply orb_true_r. }
    rewrite Hc. simpl. split; [reflexivity|].
    rewrite <- !app_assoc, drop_app_length. reflexivity.
  - intros Hrc Hn Hmem.
    assert (Hc : (rc <? 0) || (count req =? 0)%nat = false).
    { apply Z.ltb_ge in Hrc. rewrite Hrc. simpl. by apply Nat.eqb_neq. }
    rewrite Hc. simpl. rewrite Hmem. simpl. split; [reflexivity|].
    rewrite <- !app_assoc, drop_app_length. reflexivity.
Qed.

Lemma stream_handler_without_buffers_witness :
  let s := serving streaming in
  let opening :=
    [E_xSemaphoreTake (lock_ticks sdk) true;
     E_httpd_resp_set_type STREAM_CONTENT_TYPE;
     E_httpd_resp_set_hdr "Access-Control-Allow-Origin" "*"] in
  let refused := buffers_refused (environment_of streaming) in
  let exhausted := heap_exhausted (environment_of streaming) in
  (fst (stream_handler sdk refused 30 s) = Some ESP_FAIL /\
   events_of (stream_handler sdk refused 30) s
   = (opening ++ [E_ioctl 3 VIDIOC_REQBUFS (-1)])
       ++ [E_httpd_resp_send_err 500 "Unable to alloc buffers";
           E_xSemaphoreGive true]) /\
  (fst (stream_handler sdk exhausted 30 s) = Some ESP_ERR_NO_MEM /\
   events_of (stream_handler sdk exhausted 30) s
   = (opening ++ [E_ioctl 3 VIDIOC_REQBUFS 0])
       ++ [E_calloc 3 false; E_httpd_resp_send_err 500 "Out of memory";
           E_xSemaphoreGive true]).
Proof.
  split.
  - apply (stream_handler_without_buffers sdk
             (buffers_refused (environment_of streaming)) 30 (serving streaming));
      [reflexivity|].
    left. reflexivity.
  - apply (stream_handler_without_buffers sdk
             (heap_exhausted (environment_of streaming)) 30 (serving streaming));
      [reflexivity | discriminate | discriminate | reflexivity].
Defined.

(** X9: both handlers stop the stream they started.  In a run of
    [stream_handler] that returns, and in every run of [capture_handler],
    [VIDIOC_STREAMON] succeeds at most once and [VIDIOC_STREAMOFF] is issued
    exactly as often as [VIDIOC_STREAMON] succeeded. *)
Theorem handlers_stop_the_stream_they_started cfg env fuel (s : state statics) r s' :
  let switched evs :=
    count_events is_stream_off evs = count_events is_stream_on evs /\
    (count_events is_stream_on evs <= 1)%nat in
  stream_handler cfg env fuel s = (Some r, s') ->
  switched (events_of (stream_handler cfg env fuel) s) /\
  switched (events_of (capture_handler cfg env) s).
Proof.
  intros switched H. subst switched. simpl.
  destruct (stream_handler_log cfg env fuel s r s' H) as (_ & e1 & Hl1 & H1).
  destruct (capture_handler_log cfg env s) as (e2 & Hl2 & Hoff2 & Hon2 & _).
  unfold events_of. rewrite H. simpl.
  rewrite Hl1, Hl2, !drop_app_length. auto.
Qed.

Lemma handlers_stop_the_stream_they_started_witness :
  let env := environment_of streaming in
  let s := serving streaming in
  let switched evs :=
    count_events is_stream_off evs = count_events is_stream_on evs /\
    (count_events is_stream_on evs <= 1)%nat in
  switched (events_of (stream_handler sdk env 30) s) /\
  switched (events_of (capture_handler sdk env) s).
Proof.
  apply (handlers_stop_the_stream_they_started sdk (environment_of streaming) 30
           (serving streaming) ESP_FAIL
           (snd (stream_handler sdk (environment_of streaming) 30
                   (serving streaming)))).
  vm_compute. reflexivity.
Defined.

(** X10: [capture_handler] returns [ESP_OK] only after a picture was sent:
    its events then contain a successful [jpeg_encoder_process], the content
    type [image/jpeg], the [Content-Disposition] header and a successful
    [httpd_resp_send], in this order and next to each other. *)
Theorem capture_handler_succeeds_only_with_a_picture cfg env (s : state statics) :
  fst (capture_handler cfg env s) = ESP_OK ->
  exists pre size post,
    events_of (capture_handler cfg env) s = pre ++ picture_sent size ++ post.
Proof.
  intros Hok.
  destruct (capture_handler_log cfg env s) as (evs & Hl & _ & _ & Hsent).
  simpl in Hl, Hsent. unfold events_of. rewrite Hl, drop_app_length. auto.
Qed.

Lemma capture_handler_succeeds_only_with_a_picture_witness :
  exists pre size post,
    events_of (capture_handler sdk (environment_of streaming)) (serving streaming)
    = pre ++ picture_sent size ++ post.
Proof.
  apply (capture_handler_succeeds_only_with_a_picture sdk
           (environment_of streaming) (serving streaming)).
  vm_compute. reflexivity.
Defined.

(** X11: [stream_handler] never returns [ESP_OK]: a stream ends with an
    error, and the value returned is [ESP_FAIL] or [ESP_ERR_NO_MEM]. *)
Theorem stream_handler_never_returns_ESP_OK cfg env fuel (s : state statics) :
  fst (stream_handler cfg env fuel s) <> Some ESP_OK /\
  (forall r, fst (stream_handler cfg env fuel s) = Some r ->
             r = ESP_FAIL \/ r = ESP_ERR_NO_MEM).
Proof.
  assert (H : forall r, fst (stream_handler cfg env fuel s) = Some r ->
                        r = ESP_FAIL \/ r = ESP_ERR_NO_MEM).
  { intros r H. destruct (stream_handler cfg env fuel s) as [o s'] eqn:Hrun.
    simpl in H. subst o.
    apply (stream_handler_log cfg env fuel s r s' Hrun). }
  split; [|exact H].
  intros Hok. destruct (H _ Hok); discriminate.
Qed.

(** X12: when the device stops delivering frames ([VIDIOC_DQBUF] fails
    from some instant on), a [stream_handler] that was granted the lock
    returns, with [ESP_FAIL] or [ESP_ERR_NO_MEM], and the lock is free
    afterwards. *)
Theorem stream_handler_ends_when_the_device_stops cfg env n fuel (s : state statics) :
  (forall t fd b, (n <= t)%nat -> fst (fst (env_DQBUF env t fd b)) < 0) ->
  (n < fuel)%nat ->
  fst (camera_lock_acquire cfg env s) = true ->
  exists r,
    fst (stream_handler cfg env fuel s) = Some r /\
    (r = ESP_FAIL \/ r = ESP_ERR_NO_MEM) /\
    lock_of (snd (stream_handler cfg env fuel s)) = Some mutex_free.
Proof.
  intros Hend Hfuel Hacq.
  destruct (stream_handler_returns cfg env n fuel s Hend Hfuel) as [r Hr].
  destruct (stream_handler cfg env fuel s) as [o s'] eqn:Hrun.
  simpl in Hr. subst o. exists r. split; [reflexivity|].
  split; [apply (stream_handler_log cfg env fuel s r s' Hrun)|].
  apply (stream_handler_granted cfg env fuel s r s' Hacq Hrun).
Qed.

Lemma device_stops_for_good t fd b :
  (40 <= t)%nat -> fst (fst (env_DQBUF (environment_of device_stops) t fd b)) < 0.
Proof.
  intros H. simpl. apply Nat.ltb_ge in H. rewrite H. simpl. lia.
Qed.

Lemma stream_handler_ends_when_the_device_stops_witness :
  let env := environment_of device_stops in
  let s := serving device_stops in
  exists r,
    fst (stream_handler sdk env 41 s) = Some r /\
    (r = ESP_FAIL \/ r = ESP_ERR_NO_MEM) /\
    lock_of (snd (stream_handler sdk env 41 s)) = Some mutex_free.
Proof.
  apply (stream_handler_ends_when_the_device_stops sdk
           (environment_of device_stops) 40 41 (serving device_stops)).
  - exact device_stops_for_good.
  - lia.
  - reflexivity.
Defined.

(** ** Starting and stopping the server *)

Lemma registered_app l1 l2 : registered (l1 ++ l2) = registered l1 ++ registered l2.
Proof. induction l1 as [|e l1 IH]; [reflexivity|]. destruct e; simpl; congruence. Qed.

Lemma registered_preparation l : Forall preparation_event l -> registered l = [].
Proof.
  induction 1 as [|e l He _ IH]; [reflexivity|].
  destruct e; simpl in *; try exact IH. contradiction.
Qed.

Lemma preparation_start e : preparation_event e -> start_event e.
Proof. destruct e; simpl; tauto. Qed.

Lemma camera_state_init_frame env (s : state statics) :
  let run := camera_state_init env s in
  exists l evs,
    globals (snd run) = set_lock l (globals s) /\
    log (snd run) = log s ++ evs /\ Forall preparation_event evs /\
    (forall m, lock_of s = Some m -> l = Some m) /\
    (fst run = ESP_OK -> is_Some l) /\
    (fst run = ESP_OK \/ fst run = ESP_ERR_NO_MEM).
Proof.
  unfold lock_of, camera_state_init, bind, get_globals, put_globals,
    xSemaphoreCreateMutex, call, pure.
  simpl.
  destruct (lock (s_stream_state (globals s))) as [m|] eqn:Hl; simpl.
  - exists (Some m), []. rewrite <- Hl, set_lock_same, app_nil_r.
    repeat split; eauto.
  - destruct (env_mutex_created env (clock s)); simpl.
    + exists (Some mutex_free). eexists.
      repeat split; eauto; try discriminate. repeat constructor.
    + exists None. eexists.
      repeat split; eauto; try discriminate. repeat constructor.
Qed.

Lemma configure_camera_device_frame cfg env fd (s : state statics) :
  let run := configure_camera_device cfg env fd s in
  exists w h p evs,
    (globals (snd run) = globals s \/
     globals (snd run) = set_format w h p (globals s)) /\
    log (snd run) = log s ++ evs /\ Forall preparation_event evs /\
    (fst run = ESP_OK \/ fst run = ESP_FAIL).
Proof.
  unfold configure_camera_device, bind, get_globals, put_globals, ioctl_G_FMT,
    ioctl_S_FMT, call, pure.
  simpl.
  destruct (env_G_FMT env (clock s) fd _) as [rc fmt]. simpl.
  destruct (rc <? 0); simpl.
  { exists 0, 0, 0. eexists. split; [by left|]. split; [reflexivity|].
    split; [repeat constructor | by right]. }
  match goal with
  | |- context [negb (?p =? V4L2_PIX_FMT_RGB565)] =>
      destruct (negb (p =? V4L2_PIX_FMT_RGB565))
  end; simpl.
  2:{ do 3 eexists. eexists. split; [right; reflexivity|].
      split; [reflexivity|]. split; [repeat constructor | by left]. }
  destruct (env_S_FMT env (S (clock s)) fd _) as [rc1 f1]. simpl.
  destruct (rc1 =? 0); simpl.
  { do 3 eexists. eexists. split; [right; reflexivity|].
    split; [rewrite <- !app_assoc; reflexivity|].
    split; [repeat constructor | by left]. }
  destruct (env_S_FMT env (S (S (clock s))) fd _) as [rc2 f2]. simpl.
  destruct (rc2 =? 0); simpl;
    (do 3 eexists; eexists; split; [right; reflexivity|];
     split; [rewrite <- !app_assoc; reflexivity|];
     split; [repeat constructor | by left]).
Qed.

Lemma jpeg_encoder_init_frame env (s : state statics) :
  let run := jpeg_encoder_init env s in
  let j := s_jpeg_state (globals s) in
  exists j' evs,
    globals (snd run) = set_jpeg_state j' (globals s) /\
    log (snd run) = log s ++ evs /\ Forall preparation_event evs /\
    (fst run = ESP_OK -> initialized j' = true) /\
    (fst run <> ESP_OK -> initialized j = false -> handle j = NULL ->
     initialized j' = false /\ handle j' = NULL).
Proof.
  unfold jpeg_encoder_init, bind, get_globals, put_globals,
    jpeg_new_encoder_engine, jpeg_alloc_encoder_mem, jpeg_del_encoder_engine,
    effect, call, pure.
  simpl.
  assert (Hsame : set_jpeg_state (s_jpeg_state (globals s)) (globals s) = globals s)
    by (destruct (globals s); reflexivity).
  destruct (initialized (s_jpeg_state (globals s))) eqn:Hinit; simpl.
  { exists (s_jpeg_state (globals s)), []. rewrite Hsame, app_nil_r.
    repeat split; auto; congruence. }
  destruct (encoder_params (pixformat (s_stream_state (globals s))))
    as [[[sf ss] bpp]|]; simpl.
  2:{ exists (s_jpeg_state (globals s)), []. rewrite Hsame, app_nil_r.
      repeat split; auto; discriminate. }
  destruct (env_jpeg_new_encoder_engine env (clock s)) as [err h]. simpl.
  destruct (Z.eqb_spec err ESP_OK) as [He|He]; simpl.
  2:{ exists (s_jpeg_state (globals s)). eexists. rewrite Hsame.
      split; [reflexivity|]. split; [reflexivity|].
      split; [repeat constructor|]. split; [contradiction | auto]. }
  destruct (env_jpeg_alloc_encoder_mem env _ _) as [buf actual]. simpl.
  destruct (nonzero buf); simpl.
  - eexists. eexists. split; [reflexivity|].
    split; [rewrite <- !app_assoc; reflexivity|].
    split; [repeat constructor|]. split; [reflexivity|].
    intros H. exfalso. apply H. reflexivity.
  - eexists. eexists. split; [reflexivity|].
    split; [rewrite <- !app_assoc; reflexivity|].
    split; [repeat constructor|]. split; [discriminate|].
    intros _ _ _. simpl. auto.
Qed.

(** The two ways [camera_server_start] ends. *)
Lemma camera_server_start_outcome cfg env fd (s : state statics) :
  let run := camera_server_start cfg env fd s in
  let j := s_jpeg_state (globals s) in
  let g' := globals (snd run) in
  exists evs,
    log (snd run) = log s ++ evs /\
    ((fst run = ESP_OK /\ 0 <= fd /\ s_camera_fd g' = fd /\
      is_Some (lock (s_stream_state g')) /\
      initialized (s_jpeg_state g') = true /\
      exists pre,
        Forall preparation_event pre /\
        evs = pre ++ [E_httpd_start ESP_OK; E_httpd_register_uri_handler "/";
                      E_httpd_register_uri_handler "/stream";
                      E_httpd_register_uri_handler "/capture"])
     \/
     (fst run <> ESP_OK /\ s_server g' = s_server (globals s) /\
      (forall m, lock_of s = Some m -> lock_of (snd run) = Some m) /\
      (initialized j = false -> handle j = NULL ->
       initialized (s_jpeg_state g') = false /\ handle (s_jpeg_state g') = NULL) /\
      exists pre post,
        Forall preparation_event pre /\ Forall preparation_event post /\
        (evs = pre \/ exists rc, rc <> ESP_OK /\ evs = pre ++ [E_httpd_start rc] ++ post))).
Proof.
  unfold camera_server_start.
  destruct (Z.ltb_spec fd 0) as [Hfd|Hfd].
  { exists []. unfold pure. simpl. split; [by rewrite app_nil_r|]. right.
    split; [discriminate|]. split; [reflexivity|]. split; [auto|].
    split; [auto|]. exists [], []. repeat split; auto. }
  unfold bind, get_globals, put_globals, httpd_start, httpd_register_uri_handler,
    effect, call, pure.
  simpl.
  match goal with
  | |- context [camera_state_init env ?s0] =>
      pose proof (camera_state_init_frame env s0)
        as (l & e1 & Hg1 & Hl1 & Hf1 & Hkeep & Hok1 & Hres1);
      destruct (camera_state_init env s0) as [err1 s1]
  end.
  simpl in Hg1, Hl1, Hkeep, Hok1, Hres1. unfold lock_of in *. simpl in Hkeep.
  destruct (Z.eqb_spec err1 ESP_OK) as [He1|He1]; simpl.
  2:{ exists e1. split; [exact Hl1|]. right. rewrite Hg1. simpl.
      split; [exact He1|]. split; [reflexivity|]. split; [exact Hkeep|].
      split; [auto|]. exists e1, []. repeat split; auto. }
  specialize (Hok1 He1).
  pose proof (configure_camera_device_frame cfg env (s_camera_fd (globals s1)) s1)
    as (w & h & p & e2 & Hg2 & Hl2 & Hf2 & Hres2).
  destruct (configure_camera_device cfg env (s_camera_fd (globals s1)) s1)
    as [err2 s2].
  simpl in Hg2, Hl2, Hres2.
  assert (Hframe2 :
            s_server (globals s2) = s_server (globals s) /\
            s_camera_fd (globals s2) = fd /\
            lock (s_stream_state (globals s2)) = l /\
            s_jpeg_state (globals s2) = s_jpeg_state (globals s)).
  { destruct Hg2 as [Hg2|Hg2]; rewrite Hg2, Hg1; repeat split. }
  destruct Hframe2 as (Hsrv2 & Hfd2 & Hlock2 & Hj2).
  destruct (Z.eqb_spec err2 ESP_OK) as [He2|He2]; simpl.
  2:{ exists (e1 ++ e2). split; [rewrite Hl2, Hl1; by rewrite app_assoc|]. right.
      split; [exact He2|]. split; [exact Hsrv2|].
      split; [intros m Hm; rewrite Hlock2; auto|].
      split; [rewrite Hj2; auto|].
      exists (e1 ++ e2), []. repeat split; auto. by apply Forall_app. }
  pose proof (jpeg_encoder_init_frame env s2)
    as (j3 & e3 & Hg3 & Hl3 & Hf3 & Hok3 & Hfail3).
  destruct (jpeg_encoder_init env s2) as [err3 s3].
  simpl in Hg3, Hl3, Hok3, Hfail3.
  destruct (Z.eqb_spec err3 ESP_OK) as [He3|He3]; simpl.
  2:{ exists (e1 ++ e2 ++ e3).
      split; [rewrite Hl3, Hl2, Hl1; by rewrite !app_assoc|]. right.
      rewrite Hg3. simpl.
      split; [exact He3|]. split; [exact Hsrv2|].
      split; [intros m Hm; rewrite Hlock2; auto|].
      split; [rewrite Hj2 in Hfail3; auto|].
      exists (e1 ++ e2 ++ e3), []. repeat split; auto.
      repeat (apply Forall_app; split); auto. }
  specialize (Hok3 He3).
  destruct (env_httpd_start env (clock s3)) as [rc server]. simpl.
  destruct (Z.eqb_spec rc ESP_OK) as [He4|He4]; simpl.
  - eexists. split; [rewrite Hl3, Hl2, Hl1; log_extension|]. left.
    rewrite Hg3. simpl. rewrite Hfd2, Hlock2.
    split; [reflexivity|]. split; [lia|]. split; [reflexivity|].
    split; [exact Hok1|]. split; [exact Hok3|].
    exists (e1 ++ e2 ++ e3).
    split; [repeat (apply Forall_app; split); auto|].
    rewrite He4, <- !app_assoc. reflexivity.
  - match goal with
    | |- context [jpeg_encoder_deinit ?s4] =>
        destruct (jpeg_encoder_deinit_spec s4) as [Hg5 Hl5];
        destruct (jpeg_encoder_deinit s4) as [[] s5]
    end.
    simpl in Hg5, Hl5. simpl.
    eexists. split; [rewrite Hl5, Hl3, Hl2, Hl1; log_extension|]. right.
    rewrite Hg5, Hg3. simpl.
    split; [discriminate|]. split; [exact Hsrv2|].
    split; [intros m Hm; rewrite Hlock2; auto|].
    split; [auto|].
    exists (e1 ++ e2 ++ e3). eexists.
    split; [repeat (apply Forall_app; split); auto|].
    split; [|right; exists rc; split; [exact He4|];
             rewrite <- !app_assoc; reflexivity].
    apply Forall_app. split;
      match goal with
      | |- Forall _ (if ?c then _ else _) => destruct c; repeat constructor
      end.
Qed.

(** X13: a successful [camera_server_start].  The descriptor was not
    negative and is stored, the lock exists, the encoder is configured, and
    the events are preparation (creating the lock, negotiating the format,
    configuring the encoder) followed by a successful [httpd_start] and the
    registration of "/", "/stream" and "/capture", in this order. *)
Theorem camera_server_start_success cfg env fd (s : state statics) :
  let run := camera_server_start cfg env fd s in
  let g' := globals (snd run) in
  let evs := events_of (camera_server_start cfg env fd) s in
  fst run = ESP_OK ->
  0 <= fd /\ s_camera_fd g' = fd /\
  is_Some (lock (s_stream_state g')) /\
  initialized (s_jpeg_state g') = true /\
  registered evs = ["/"; "/stream"; "/capture"] /\
  exists pre,
    Forall preparation_event pre /\
    evs = pre ++ [E_httpd_start ESP_OK; E_httpd_register_uri_handler "/";
                  E_httpd_register_uri_handler "/stream";
                  E_httpd_register_uri_handler "/capture"].
Proof.
  intros run g' evs Hok. subst run g' evs.
  destruct (camera_server_start_outcome cfg env fd s) as (evs & Hl & [H|H]).
  - destruct H as (_ & Hfd & Hcam & Hlock & Hinit & pre & Hpre & ->).
    unfold events_of. simpl in *. rewrite Hl, drop_app_length.
    repeat (split; [assumption|]).
    split; [|eauto].
    rewrite registered_app, (registered_preparation pre Hpre). reflexivity.
  - destruct H as [Hne _]. contradiction.
Qed.

Lemma camera_server_start_success_witness :
  let env := environment_of streaming in
  let run := camera_server_start sdk env 3 (boot initial_statics) in
  let g' := globals (snd run) in
  let evs := events_of (camera_server_start sdk env 3) (boot initial_statics) in
  0 <= 3 /\ s_camera_fd g' = 3 /\
  is_Some (lock (s_stream_state g')) /\
  initialized (s_jpeg_state g') = true /\
  registered evs = ["/"; "/stream"; "/capture"] /\
  exists pre,
    Forall preparation_event pre /\
    evs = pre ++ [E_httpd_start ESP_OK; E_httpd_register_uri_handler "/";
                  E_httpd_register_uri_handler "/stream";
                  E_httpd_register_uri_handler "/capture"].
Proof.
  apply (camera_server_start_success sdk (environment_of streaming) 3
           (boot initial_statics)).
  reflexivity.
Defined.

(** X14: a failed [camera_server_start] registers no handler and leaves
    [s_server] as it was; a lock that existed is kept; and an encoder that
    was unconfigured is unconfigured again, also when [httpd_start] failed
    after the encoder had been configured. *)
Theorem camera_server_start_failure cfg env fd (s : state statics) :
  let run := camera_server_start cfg env fd s in
  let j := s_jpeg_state (globals s) in
  let j' := s_jpeg_state (globals (snd run)) in
  let evs := events_of (camera_server_start cfg env fd) s in
  fst run <> ESP_OK ->
  registered evs = [] /\
  s_server (globals (snd run)) = s_server (globals s) /\
  (forall m, lock_of s = Some m -> lock_of (snd run) = Some m) /\
  (initialized j = false -> handle j = NULL ->
   initialized j' = false /\ handle j' = NULL).
Proof.
  intros run j j' evs Hne. subst run j j' evs.
  destruct (camera_server_start_outcome cfg env fd s) as (evs & Hl & [H|H]).
  - destruct H as [Hok _]. contradiction.
  - destruct H as (_ & Hsrv & Hlock & Hunconf & pre & post & Hpre & Hpost & Hevs).
    unfold events_of. simpl in *. rewrite Hl, drop_app_length.
    split; [|auto].
    destruct Hevs as [->|(rc & _ & ->)];
      rewrite ?registered_app, (registered_preparation pre Hpre); simpl;
      rewrite ?(registered_preparation post Hpost); reflexivity.
Qed.

Lemma camera_server_start_failure_witness :
  let env := environment_of format_refused in
  let run := camera_server_start sdk env 3 (boot initial_statics) in
  let j' := s_jpeg_state (globals (snd run)) in
  registered (events_of (camera_server_start sdk env 3) (boot initial_statics)) = [] /\
  s_server (globals (snd run)) = NULL /\
  (forall m, lock_of (boot initial_statics) = Some m -> lock_of (snd run) = Some m) /\
  (initialized (s_jpeg_state initial_statics) = false ->
   handle (s_jpeg_state initial_statics) = NULL ->
   initialized j' = false /\ handle j' = NULL).
Proof.
  apply (camera_server_start_failure sdk (environment_of format_refused) 3
           (boot initial_statics)).
  vm_compute. discriminate.
Defined.

(** X15: [camera_server_start] only prepares.  It never takes the camera
    lock, and the only requests it sends to the camera are [VIDIOC_G_FMT]
    and [VIDIOC_S_FMT]: no buffer is requested, mapped or queued and the
    stream is not started. *)
Theorem camera_server_start_only_prepares cfg env fd (s : state statics) :
  let evs := events_of (camera_server_start cfg env fd) s in
  Forall start_event evs /\
  count_events is_take evs = O /\
  (forall fd' cmd rc, In (E_ioctl fd' cmd rc) evs ->
   cmd = VIDIOC_G_FMT \/ cmd = VIDIOC_S_FMT).
Proof.
  simpl.
  assert (Hstart : Forall start_event (events_of (camera_server_start cfg env fd) s)).
  { destruct (camera_server_start_outcome cfg env fd s) as (evs & Hl & H).
    unfold events_of. simpl in Hl. rewrite Hl, drop_app_length.
    destruct H as [(_ & _ & _ & _ & _ & pre & Hpre & ->)
                  |(_ & _ & _ & _ & pre & post & Hpre & Hpost & Hevs)].
    - apply Forall_app. split; [|repeat constructor].
      eapply Forall_impl; [|exact Hpre]. apply preparation_start.
    - assert (Hpre' : Forall start_event pre)
        by (eapply Forall_impl; [|exact Hpre]; apply preparation_start).
      destruct Hevs as [->|(rc & _ & ->)]; [exact Hpre'|].
      apply Forall_app. split; [exact Hpre'|]. constructor; [exact I|].
      eapply Forall_impl; [|exact Hpost]. apply preparation_start. }
  split; [exact Hstart|]. split.
  - apply (count_events_none _ start_event); [|exact Hstart].
    intros []; simpl; tauto.
  - intros fd' cmd rc Hin.
    rewrite List.Forall_forall in Hstart. specialize (Hstart _ Hin).
    destruct cmd; simpl in Hstart; tauto.
Qed.

Lemma camera_server_stop_spec (s : state statics) :
  let g := globals s in
  let j := s_jpeg_state g in
  let s' := snd (camera_server_stop s) in
  globals s'
  = set_jpeg_state
      {| handle := NULL; src_format := src_format j; sub_sample := sub_sample j;
         src_stride := src_stride j; out_buf := NULL;
         out_buf_size := out_buf_size j; quality := quality j;
         initialized := false |}
      (set_lock None (set_server NULL g)) /\
  log s'
  = log s ++ (if nonzero (s_server g) then [E_httpd_stop] else [])
          ++ (if bool_decide (is_Some (lock (s_stream_state g)))
              then [E_vSemaphoreDelete] else [])
          ++ (if nonzero (out_buf j) then [E_free] else [])
          ++ (if nonzero (handle j) then [E_jpeg_del_encoder_engine (handle j)]
              else []).
Proof.
  unfold camera_server_stop, bind, get_globals, put_globals, effect, call, pure.
  simpl.
  assert (Hsrv : nonzero (s_server (globals s)) = false ->
                 set_server NULL (globals s) = globals s).
  { unfold nonzero. intros H. apply negb_false_iff, Z.eqb_eq in H.
    destruct (globals s). simpl in *. by subst. }
  assert (Hlock : forall g : statics,
             lock (s_stream_state g) = None -> set_lock None g = g).
  { intros g H. rewrite <- H. apply set_lock_same. }
  destruct (nonzero (s_server (globals s))) eqn:Hs; simpl;
    destruct (lock (s_stream_state (globals s))) as [m|] eqn:Hl; simpl;
    match goal with
    | |- context [jpeg_encoder_deinit ?s1] =>
        destruct (jpeg_encoder_deinit_spec s1) as [Hg Hlog];
        destruct (jpeg_encoder_deinit s1) as [[] s2]
    end;
    simpl in Hg, Hlog |- *; rewrite Hg, Hlog;
    rewrite ?(Hsrv eq_refl), ?(Hlock _ Hl), <- ?app_assoc;
    (split; [|reflexivity]).
  - reflexivity.
  - rewrite Hlock by exact Hl. reflexivity.
  - reflexivity.
  - reflexivity.
Qed.

(** X16: [camera_server_stop] releases everything once.  Afterwards the
    server handle is [NULL], the lock is gone and the encoder is
    unconfigured; the descriptor and the format are kept; the server is
    stopped, the semaphore deleted, the output buffer freed and the engine
    deleted exactly when they were there, in this order; a second call does
    nothing. *)
Theorem camera_server_stop_releases_everything (s : state statics) :
  let g := globals s in
  let j := s_jpeg_state g in
  let s' := snd (camera_server_stop s) in
  let g' := globals s' in
  (s_server g' = NULL /\ lock_of s' = None /\
   initialized (s_jpeg_state g') = false /\ handle (s_jpeg_state g') = NULL /\
   out_buf (s_jpeg_state g') = NULL) /\
  (s_camera_fd g' = s_camera_fd g /\ stream_format s' = stream_format s) /\
  events_of camera_server_stop s
  = (if nonzero (s_server g) then [E_httpd_stop] else [])
      ++ (if bool_decide (is_Some (lock_of s)) then [E_vSemaphoreDelete] else [])
      ++ (if nonzero (out_buf j) then [E_free] else [])
      ++ (if nonzero (handle j) then [E_jpeg_del_encoder_engine (handle j)] else []) /\
  events_of camera_server_stop s' = [].
Proof.
  destruct (camera_server_stop_spec s) as [Hg Hl].
  destruct (camera_server_stop_spec (snd (camera_server_stop s))) as [_ Hl2].
  simpl in *. rewrite Hg in Hl2. simpl in Hl2.
  unfold lock_of, stream_format.
  split; [rewrite Hg; repeat split|].
  split; [rewrite Hg; repeat split|].
  split.
  - unfold events_of. rewrite Hl, drop_app_length. reflexivity.
  - unfold events_of. rewrite Hl2, app_nil_r. apply drop_all.
Qed.

(** [index_handler] sends the page: two calls of the HTTP server, none of
    the camera or of the lock, and no file-scope variable is changed. *)
Lemma index_handler_spec env (s : state statics) :
  let run := index_handler env s in
  let evs := events_of (index_handler env) s in
  globals (snd run) = globals s /\
  fst run = env_httpd_resp_send env (S (clock s)) HTTPD_RESP_USE_STRLEN /\
  evs = [E_httpd_resp_set_type "text/html";
         E_httpd_resp_send HTTPD_RESP_USE_STRLEN (fst run)] /\
  Forall no_lock_event evs /\ count_events is_ioctl evs = O.
Proof.
  unfold events_of, index_handler, httpd_resp_set_type, httpd_resp_send, effect,
    bind, call, pure.
  simpl. rewrite <- app_assoc, drop_app_length. simpl.
  repeat split; repeat constructor.
Qed.

(** X17: after [camera_server_stop] the lock is gone, and a handler that
    still runs answers 500 "Camera busy" and returns [ESP_FAIL] without
    touching the camera; [index_handler] needs neither the lock nor the
    camera and still sends the page. *)
Theorem handlers_after_stop_answer_camera_busy cfg env fuel (s : state statics) :
  let stopped := snd (camera_server_stop s) in
  let page := events_of (index_handler env) stopped in
  (fst (stream_handler cfg env fuel stopped) = Some ESP_FAIL /\
   events_of (stream_handler cfg env fuel) stopped = [camera_busy]) /\
  (fst (capture_handler cfg env stopped) = ESP_FAIL /\
   events_of (capture_handler cfg env) stopped = [camera_busy]) /\
  (page = [E_httpd_resp_set_type "text/html";
           E_httpd_resp_send HTTPD_RESP_USE_STRLEN (fst (index_handler env stopped))] /\
   Forall no_lock_event page /\ count_events is_ioctl page = O).
Proof.
  destruct (camera_server_stop_spec s) as [Hg _]. simpl in *.
  set (stopped := snd (camera_server_stop s)) in *.
  assert (Hnone : lock (s_stream_state (globals stopped)) = None)
    by (rewrite Hg; reflexivity).
  assert (Hacq : camera_lock_acquire cfg env stopped = (false, stopped)).
  { unfold camera_lock_acquire, bind, get_globals, pure. simpl.
    rewrite Hnone. reflexivity. }
  assert (Hden : fst (camera_lock_acquire cfg env stopped) = false)
    by (rewrite Hacq; reflexivity).
  assert (Hevs : events_of (camera_lock_acquire cfg env) stopped = []).
  { unfold events_of. rewrite Hacq. simpl. apply drop_all. }
  destruct (stream_handler_denied cfg env fuel stopped Hden) as [Hr1 He1].
  destruct (capture_handler_denied cfg env stopped Hden) as [Hr2 He2].
  rewrite Hevs in He1, He2.
  destruct (index_handler_spec env stopped) as (_ & _ & Hpage & Hlock & Hio).
  auto.
Qed.
(** * Further properties of [main/face_detect_task.cpp] *)

Module FaceDetectFacts.
Import FaceDetect FaceDetectSpec FaceDetectProofs.

(** X18: the format negotiation of the detection task, case by case.  A
    failing [VIDIOC_G_FMT] gives [ESP_FAIL] and changes nothing; a device
    already in RGB565 is taken as reported, without [VIDIOC_S_FMT]; any
    other format leads to one [VIDIOC_S_FMT] asking for RGB565 at the
    reported size, whose failure gives [ESP_FAIL] with the context
    unchanged and whose success stores the format the driver answered
    (there is no second attempt, unlike in the server). *)
Theorem detection_format_negotiation env (d : state FaceDetectContext) :
  let fd := camera_fd (globals d) in
  let query := env_G_FMT env (clock d) fd format_query in
  let reported := snd query in
  let request :=
    {| type := type reported; V4L2.width := V4L2.width reported;
       V4L2.height := V4L2.height reported; pixelformat := V4L2_PIX_FMT_RGB565;
       field := V4L2_FIELD_NONE |} in
  let set := env_S_FMT env (S (clock d)) fd request in
  let run := configure_camera_device env d in
  let evs := events_of (configure_camera_device env) d in
  (fst query < 0 ->
   fst run = ESP_FAIL /\ globals (snd run) = globals d /\
   evs = [E_ioctl fd VIDIOC_G_FMT (fst query)]) /\
  (0 <= fst query -> pixelformat reported = V4L2_PIX_FMT_RGB565 ->
   fst run = ESP_OK /\ context_format (snd run) = format_of reported /\
   evs = [E_ioctl fd VIDIOC_G_FMT (fst query)]) /\
  (0 <= fst query -> pixelformat reported <> V4L2_PIX_FMT_RGB565 ->
   evs = [E_ioctl fd VIDIOC_G_FMT (fst query); E_ioctl fd VIDIOC_S_FMT (fst set)] /\
   (fst set < 0 -> fst run = ESP_FAIL /\ globals (snd run) = globals d) /\
   (0 <= fst set ->
    fst run = ESP_OK /\ context_format (snd run) = format_of (snd set))).
Proof.
  intros fd query reported request set run evs.
  subst fd query reported request set run evs.
  unfold events_of, context_format, format_of, format_query,
    configure_camera_device, bind, get_globals, put_globals, ioctl_G_FMT,
    ioctl_S_FMT, call, pure.
  simpl.
  destruct (env_G_FMT env (clock d) _ _) as [rc fmt]. simpl.
  destruct (Z.ltb_spec rc 0) as [Hrc|Hrc]; simpl.
  { split; [|split; intros; lia].
    intros _. rewrite drop_app_length. repeat split. }
  split; [intros; lia|].
  destruct (Z.eqb_spec (pixelformat fmt) V4L2_PIX_FMT_RGB565) as [Hp|Hp]; simpl.
  { split; [|intros; contradiction].
    intros _ _. rewrite drop_app_length. repeat split. }
  split; [intros; contradiction|]. intros _ _.
  destruct (env_S_FMT env (S (clock d)) _ _) as [rc1 f1]. simpl.
  destruct (Z.ltb_spec rc1 0) as [Hrc1|Hrc1]; simpl;
    rewrite <- app_assoc, drop_app_length;
    (split; [reflexivity|]); split; intros; try lia; repeat split.
Qed.

(** A mapping loop that runs to its end has filled every descriptor it
    was to fill with the region [mmap] returned for it. *)
Lemma map_buffers_success env k :
  forall done rest (s s' : state FaceDetectContext),
    buffers (globals s) = done ++ rest -> length rest = k ->
    map_buffers env (seq (length done) k) s = (ESP_OK, s') ->
    exists evs,
      log s' = log s ++ evs /\
      buffers (globals s') = done ++ map buffer_of (mapped_regions evs) /\
      length (mapped_regions evs) = k /\
      count_events is_queue evs = k.
Proof.
  induction k as [|k IH]; intros done rest s s' Hb Hlen H.
  - simpl in H. injection H as <-. exists [].
    destruct rest; [|discriminate]. simpl. rewrite !app_nil_r in *. auto.
  - destruct rest as [|b0 rest]; [discriminate|]. simpl in Hlen.
    simpl in H.
    unfold bind, get_globals, put_globals, ioctl_QUERYBUF, mmap, ioctl_QBUF,
      call, pure in H.
    simpl in H.
    destruct (env_QUERYBUF env (clock s) _ _) as [rc buf].
    destruct (rc <? 0); [discriminate|].
    simpl in H. rewrite Hb in H. simpl in H. rewrite !insert_next_mapped in H.
    set (a := env_mmap env (S (clock s)) _ _ _) in *.
    destruct (a =? MAP_FAILED) eqn:Hfail; simpl in H; [discriminate|].
    destruct (env_QBUF env _ _ _ <? 0); [discriminate|].
    replace (S (length done))
      with (length (done ++ [{| addr := a; len := buf_length buf |}])) in H
      by (rewrite length_app; simpl; lia).
    apply (IH _ rest) in H as (evs & Hl & Hb' & Hn & Hq);
      [|simpl; by rewrite <- app_assoc | lia].
    simpl in Hl. eexists. split; [rewrite Hl; log_extension|].
    simpl. rewrite Hfail. simpl.
    split; [rewrite Hb', <- app_assoc; reflexivity|].
    split; [lia|].
    change (?x :: ?y :: ?z :: evs) with ([x; y; z] ++ evs).
    rewrite count_events_app, Hq. reflexivity.
Qed.

(** X19: a successful [init_v4l2_buffers] has mapped and queued every
    buffer the driver granted: the driver granted at least one, the context
    holds that many descriptors, they are the regions [mmap] returned, in
    order, and each was queued once. *)
Theorem init_v4l2_buffers_maps_every_buffer cfg env (d : state FaceDetectContext) :
  let fd := camera_fd (globals d) in
  let reply :=
    env_REQBUFS env (clock d) fd
      {| count := CONFIG_FACE_DET_BUFFER_COUNT cfg;
         req_type := V4L2_BUF_TYPE_VIDEO_CAPTURE;
         req_memory := V4L2_MEMORY_MMAP |} in
  let granted := count (snd reply) in
  let run := init_v4l2_buffers cfg env d in
  let evs := events_of (init_v4l2_buffers cfg env) d in
  fst run = ESP_OK ->
  granted <> O /\
  length (buffers (globals (snd run))) = granted /\
  buffers (globals (snd run)) = map buffer_of (mapped_regions evs) /\
  count_events is_queue evs = granted.
Proof.
  intros fd reply granted run evs. subst fd reply granted run evs.
  unfold events_of, init_v4l2_buffers, bind, get_globals, put_globals,
    ioctl_REQBUFS, call, pure.
  simpl.
  destruct (env_REQBUFS env (clock d) _ _) as [rc req]. simpl.
  destruct (rc <? 0); simpl; [discriminate|].
  destruct (Nat.eqb_spec (count req) 0) as [Hz|Hz]; simpl; [discriminate|].
  match goal with
  | |- context [map_buffers env ?todo ?s1] =>
      destruct (map_buffers env todo s1) as [r s2] eqn:Hmap
  end.
  simpl. intros ->.
  apply (map_buffers_success env (count req) []
           (resize (count req) {| addr := NULL; len := 0 |} (buffers (globals d))))
    in Hmap as (evs & Hl & Hb & Hn & Hq);
    [|reflexivity | apply length_resize].
  simpl in Hl, Hb. rewrite Hl, <- app_assoc, drop_app_length. simpl.
  split; [exact Hz|]. rewrite Hb, length_map.
  split; [exact Hn|]. split; [reflexivity|].
  rewrite count_events_cons. exact Hq.
Qed.

Lemma init_v4l2_buffers_maps_every_buffer_witness :
  let env := environment_of streaming in
  let d := detecting streaming in
  let run := init_v4l2_buffers sdk env d in
  let evs := events_of (init_v4l2_buffers sdk env) d in
  3%nat <> O /\
  length (buffers (globals (snd run))) = 3%nat /\
  buffers (globals (snd run)) = map buffer_of (mapped_regions evs) /\
  count_events is_queue evs = 3%nat.
Proof.
  apply (init_v4l2_buffers_maps_every_buffer sdk (environment_of streaming)
           (detecting streaming)).
  vm_compute. reflexivity.
Defined.

Lemma regions_mapped bufs :
  Forall (fun r => fst r <> NULL /\ fst r <> MAP_FAILED) (regions bufs).
Proof.
  induction bufs as [|b bufs IH]; simpl; [constructor|].
  destruct (nonzero (addr b) && negb (addr b =? MAP_FAILED)) eqn:H; [|exact IH].
  constructor; [|exact IH].
  apply andb_true_iff in H as [Hn Hm]. simpl. unfold nonzero in Hn.
  apply negb_true_iff, Z.eqb_neq in Hn. apply negb_true_iff, Z.eqb_neq in Hm.
  auto.
Qed.

Lemma release_buffers_spec (d : state FaceDetectContext) :
  let d' := snd (release_buffers d) in
  globals d' = set_buffers [] (globals d) /\
  log d' = log d ++ munmap_events (regions (buffers (globals d))).
Proof.
  unfold release_buffers, bind, get_globals, put_globals.
  destruct (release_unmap_buffers_spec (buffers (globals d)) d) as [Hg Hl].
  destruct (unmap_buffers (buffers (globals d)) d) as [[] d1]. simpl in *.
  split; [reflexivity | exact Hl].
Qed.

(** X20: [release_buffers] unmaps the regions that are mapped (neither
    [NULL] nor [MAP_FAILED]), once each and in order, empties the list of
    the context and touches nothing else; a second call unmaps nothing. *)
Theorem release_buffers_unmaps_and_empties (d : state FaceDetectContext) :
  let d' := snd (release_buffers d) in
  let held := regions (buffers (globals d)) in
  globals d' = set_buffers [] (globals d) /\
  events_of release_buffers d = munmap_events held /\
  Forall (fun r => fst r <> NULL /\ fst r <> MAP_FAILED) held /\
  events_of release_buffers d' = [].
Proof.
  destruct (release_buffers_spec d) as [Hg Hl].
  destruct (release_buffers_spec (snd (release_buffers d))) as [_ Hl2].
  simpl in *. rewrite Hg in Hl2. simpl in Hl2.
  split; [exact Hg|]. split; [|split; [apply regions_mapped|]].
  - unfold events_of. rewrite Hl, drop_app_length. reflexivity.
  - unfold events_of. rewrite Hl2, app_nil_r. apply drop_all.
Qed.

Lemma detection_teardown_post env (d : state FaceDetectContext) :
  let d' := snd (detection_teardown env d) in
  let g := globals d in
  globals d'
  = {| camera_fd := camera_fd g; should_stop := should_stop g; running := false;
       stream_started := false; width := width g; height := height g;
       pixformat := pixformat g; task_handle := NULL; buffers := [];
       detector := NULL; mqtt_client := mqtt_client g |} /\
  log d'
  = log d ++ (if stream_started g
              then [E_ioctl (camera_fd g) VIDIOC_STREAMOFF
                      (env_STREAMOFF env (clock d) (camera_fd g))] else [])
          ++ munmap_events (regions (buffers g))
          ++ (if nonzero (detector g) then [E_delete_detector] else [])
          ++ [E_vTaskDelete].
Proof.
  unfold detection_teardown, bind, get_globals, put_globals, ioctl_STREAMOFF,
    effect, call, pure.
  destruct (stream_started (globals d)) eqn:Hs; simpl;
    match goal with
    | |- context [release_buffers ?s1] =>
        destruct (release_buffers_spec s1) as [Hg Hl];
        destruct (release_buffers s1) as [[] d2]
    end;
    simpl in Hg, Hl |- *; rewrite Hg; simpl;
    destruct (nonzero (detector (globals d))) eqn:Hd; simpl;
    rewrite ?Hg, Hl, <- ?app_assoc; simpl;
    (split; [|reflexivity]);
    unfold nonzero in Hd;
    try (apply negb_false_iff, Z.eqb_eq in Hd; rewrite <- ?Hd);
    destruct (globals d); simpl in *; subst; reflexivity.
Qed.

Lemma detection_session_no_lock cfg env fuel :
  respects (emits_only no_lock_event) (detection_session cfg env fuel).
Proof.
  pose proof (fun i a b c =>
                logs_only_emits _ _
                  (lo_weaken _ _ _ quiet_no_lock
                     (detection_loop_quiet env fuel i a b c))) as Hloop.
  pose proof (map_buffers_no_lock env) as Hmap.
  unfold detection_session, configure_camera_device, init_v4l2_buffers,
    esp_timer_get_time.
  logs_only_tac.
Qed.

(** X21: when the detection task returns, the context is ready for a new
    start: not running, no task handle, no detector, stream flag cleared,
    no buffers; the last thing the task did is [vTaskDelete]; and a
    following [face_detect_start] is not refused with
    [ESP_ERR_INVALID_STATE]. *)
Theorem detection_task_leaves_the_context_ready cfg env fuel
    (d d' : state FaceDetectContext) :
  detection_task cfg env fuel d = (Some returned, d') ->
  let g' := globals d' in
  (running g' = false /\ task_handle g' = NULL /\ detector g' = NULL /\
   stream_started g' = false /\ buffers g' = []) /\
  list.last (events_of (detection_task cfg env fuel) d) = Some E_vTaskDelete /\
  (forall fd mqtt,
      0 <= fd -> CONFIG_APP_ENABLE_FACE_DETECTION cfg = true ->
      fst (face_detect_start cfg env fd mqtt d') <> value ESP_ERR_INVALID_STATE).
Proof.
  intros H. unfold events_of. rewrite H. simpl.
  unfold detection_task, bind in H.
  pose proof (detection_session_no_lock cfg env fuel d) as (e1 & Hl1 & _).
  destruct (detection_session cfg env fuel d) as [[[|]|] d1];
    try discriminate.
  pose proof (detection_teardown_post env d1) as [Hg Hl].
  destruct (detection_teardown env d1) as [[] d2]. simpl in *.
  injection H as <-.
  split; [rewrite Hg; repeat split|]. split.
  - rewrite Hl, Hl1, <- app_assoc, drop_app_length, !app_assoc.
    apply last_snoc.
  - intros fd mqtt Hfd Hcfg.
    unfold face_detect_start, new_HumanFaceDetect, bind, get_globals, put_globals,
      effect, call, pure.
    rewrite Hcfg. simpl. apply Z.ltb_ge in Hfd. rewrite Hfd. rewrite Hg. simpl.
    destruct (env_new_HumanFaceDetect env (clock d2)) as [p|]; simpl;
      [|discriminate].
    destruct (env_xTaskCreatePinnedToCore env _) as [rc h]. simpl.
    destruct (rc =? pdPASS); simpl; discriminate.
Qed.

Lemma detection_task_leaves_the_context_ready_witness :
  let env := environment_of streaming in
  let d' := snd (detection_task sdk env 30 (detecting streaming)) in
  let g' := globals d' in
  (running g' = false /\ task_handle g' = NULL /\ detector g' = NULL /\
   stream_started g' = false /\ buffers g' = []) /\
  list.last (events_of (detection_task sdk env 30) (detecting streaming))
  = Some E_vTaskDelete /\
  (forall fd mqtt,
      0 <= fd -> CONFIG_APP_ENABLE_FACE_DETECTION sdk = true ->
      fst (face_detect_start sdk env fd mqtt d') <> value ESP_ERR_INVALID_STATE).
Proof.
  apply (detection_task_leaves_the_context_ready sdk (environment_of streaming) 30
           (detecting streaming)
           (snd (detection_task sdk (environment_of streaming) 30
                   (detecting streaming)))).
  vm_compute. reflexivity.
Defined.

(** X22: the outcomes of [face_detect_start] on a context that is not
    running, with detection enabled and a valid descriptor.  The descriptor
    and the MQTT client are stored and the stop flag cleared in every case;
    the result is [ESP_OK] exactly when the context is running afterwards.
    [new HumanFaceDetect()] is a plain [new], which never yields a null
    pointer: the test [!s_ctx.detector] never holds and
    [ESP_ERR_NO_MEM] is never returned; when the allocation fails [new]
    throws, no value is returned, and the detector and the task handle of
    the context are what they were.  When the task cannot be created the
    detector is deleted again and the result is [ESP_FAIL]; otherwise
    detector and task handle are stored. *)
Theorem face_detect_start_outcomes cfg env fd mqtt (d : state FaceDetectContext) :
  let allocated := env_new_HumanFaceDetect env (clock d) in
  let created := env_xTaskCreatePinnedToCore env (S (clock d)) in
  let run := face_detect_start cfg env fd mqtt d in
  let g' := globals (snd run) in
  let evs := events_of (face_detect_start cfg env fd mqtt) d in
  CONFIG_APP_ENABLE_FACE_DETECTION cfg = true ->
  0 <= fd ->
  running (globals d) = false ->
  (camera_fd g' = fd /\ mqtt_client g' = mqtt /\ should_stop g' = false) /\
  (fst run = value ESP_OK <-> running g' = true) /\
  fst run <> value ESP_ERR_NO_MEM /\
  (allocated = None ->
   fst run = bad_alloc /\ evs = [E_new_HumanFaceDetect None] /\
   detector g' = detector (globals d) /\
   task_handle g' = task_handle (globals d)) /\
  (forall p, allocated = Some p -> fst created <> pdPASS ->
   fst run = value ESP_FAIL /\
   evs = [E_new_HumanFaceDetect (Some (Z.pos p));
          E_xTaskCreatePinnedToCore (fst created); E_delete_detector] /\
   detector g' = NULL /\ task_handle g' = task_handle (globals d)) /\
  (forall p, allocated = Some p -> fst created = pdPASS ->
   fst run = value ESP_OK /\
   evs = [E_new_HumanFaceDetect (Some (Z.pos p));
          E_xTaskCreatePinnedToCore pdPASS] /\
   detector g' = Z.pos p /\ task_handle g' = snd created).
Proof.
  intros allocated created run g' evs Hcfg Hfd Hrun.
  subst allocated created run g' evs.
  unfold events_of, face_detect_start, new_HumanFaceDetect, bind, get_globals,
    put_globals, effect, call, pure.
  rewrite Hcfg. apply Z.ltb_ge in Hfd. rewrite Hfd. simpl. rewrite Hrun. simpl.
  destruct (env_new_HumanFaceDetect env (clock d)) as [p|]; simpl.
  2:{ rewrite drop_app_length, Hrun.
      split; [repeat split|]. split; [split; discriminate|].
      split; [discriminate|]. split; [repeat split|].
      split; intros; discriminate. }
  destruct (env_xTaskCreatePinnedToCore env (S (clock d))) as [rc h]. simpl.
  destruct (Z.eqb_spec rc pdPASS) as [Hp|Hp]; simpl;
    rewrite <- ?app_assoc, drop_app_length; simpl; rewrite ?Hrun.
  - split; [repeat split|]. split; [split; reflexivity|].
    split; [discriminate|]. split; [intros; discriminate|].
    split; [intros; contradiction|].
    intros q [= <-] _. rewrite Hp. repeat split.
  - split; [repeat split|]. split; [split; discriminate|].
    split; [discriminate|]. split; [intros; discriminate|].
    split; [|intros; contradiction].
    intros q [= <-] _. repeat split.
Qed.

Lemma face_detect_start_outcomes_witness :
  let env := environment_of streaming in
  let d := boot initial_context in
  let run := face_detect_start sdk env 3 0 d in
  let g' := globals (snd run) in
  fst run = value ESP_OK /\ running g' = true /\ camera_fd g' = 3 /\
  events_of (face_detect_start sdk env 3 0) d
  = [E_new_HumanFaceDetect (Some 0x7000); E_xTaskCreatePinnedToCore pdPASS].
Proof.
  destruct (face_detect_start_outcomes sdk (environment_of streaming) 3 0
              (boot initial_context))
    as ((Hfd & _) & Hrun & _ & _ & _ & Hok).
  - reflexivity.
  - discriminate.
  - reflexivity.
  - destruct (Hok 0x7000%positive) as (Hr & Hevs & _).
    + reflexivity.
    + reflexivity.
    + split; [exact Hr|]. split; [apply Hrun; exact Hr|].
      split; [exact Hfd | exact Hevs].
Defined.

(** X23: the detection loop retries while [VIDIOC_DQBUF] is interrupted.
    As long as the stop flag is clear and the dequeue fails with [EINTR],
    each turn of the loop only logs the failed dequeue and changes nothing
    in the context; after [k] such turns the loop goes on as from the
    start. *)
Theorem detection_loop_retries_while_interrupted env k :
  forall fuel interval fc faces last (d : state FaceDetectContext),
    let fd := camera_fd (globals d) in
    (forall i, (i < k)%nat ->
       env_should_stop env (clock d + 2 * i) = false /\
       fst (fst (env_DQBUF env (S (clock d + 2 * i)) fd (capture_buffer 0))) < 0 /\
       snd (fst (env_DQBUF env (S (clock d + 2 * i)) fd (capture_buffer 0))) = EINTR) ->
    detection_loop env (k + fuel) interval fc faces last d
    = detection_loop env fuel interval fc faces last
        (mkState (clock d + 2 * k)
           (log d ++ interrupted_dequeues env fd (clock d) k) (globals d)).
Proof.
  induction k as [|k IH]; intros fuel interval fc faces last d fd Hint.
  - simpl. rewrite Nat.add_0_r, app_nil_r. destruct d; reflexivity.
  - destruct (Hint O) as (Hstop & Hrc & Herr); [lia|].
    rewrite Nat.mul_0_r, Nat.add_0_r in Hstop, Hrc, Herr.
    change (S k + fuel)%nat with (S (k + fuel)).
    cbn [detection_loop].
    unfold bind at 1. unfold sample at 1. cbn [clock log globals].
    rewrite Hstop.
    unfold bind at 1. unfold get_globals at 1.
    unfold bind at 1. unfold ioctl_DQBUF, call. cbn [clock log globals].
    fold fd.
    destruct (env_DQBUF env (S (clock d)) fd (capture_buffer 0))
      as [[rc errno] buf] eqn:Hdq.
    simpl in Hrc, Herr. apply Z.ltb_lt in Hrc. rewrite Hrc. subst errno. simpl.
    rewrite IH.
    + simpl. rewrite Hdq. simpl. rewrite <- app_assoc. simpl.
      subst fd. do 2 f_equal. lia.
    + intros i Hi. cbn [clock globals].
      destruct (Hint (S i)) as (H1 & H2 & H3); [lia|].
      replace (clock d + 2 * S i)%nat with (S (S (clock d)) + 2 * i)%nat
        in H1, H2, H3 by lia.
      auto.
Qed.

Lemma detection_loop_retries_while_interrupted_witness :
  let env := environment_of dequeue_interrupted_once in
  let d := detecting dequeue_interrupted_once in
  detection_loop env (3 + 10) 0 0 0 0 d
  = detection_loop env 10 0 0 0 0
      (mkState (clock d + 2 * 3)
         (log d ++ interrupted_dequeues env (camera_fd (globals d)) (clock d) 3)
         (globals d)).
Proof.
  apply (detection_loop_retries_while_interrupted
           (environment_of dequeue_interrupted_once) 3 10 0 0 0 0
           (detecting dequeue_interrupted_once)).
  intros i Hi.
  destruct i as [|[|[|i]]]; [| | |lia]; vm_compute; repeat split; reflexivity.
Defined.






(** The other way the task ends: the driver reports buffer 7 of the three
    it granted, [buffers.at] throws, and the task is left as it is:
    still marked running, its three buffers still mapped. *)
Lemma detection_task_thrown_by_an_index_out_of_range :
  let env := environment_of index_out_of_range in
  let run := detection_task sdk env 41 (detecting index_out_of_range) in
  let evs := events_of (detection_task sdk env 41) (detecting index_out_of_range) in
  fst run = Some terminated_by_exception /\
  running (globals (snd run)) = true /\
  length (mapped_regions evs) = 3%nat /\
  count_events is_munmap evs = O.
Proof. vm_compute. repeat split; reflexivity. Qed.

(** X25: when the driver only reports indices of buffers the context
    holds, the checked access [buffers.at(buf.index)] never throws: the
    loop does not end by an exception. *)
Theorem detection_loop_never_throws_on_valid_indices env fuel :
  forall interval fc faces last (d : state FaceDetectContext),
    (forall t fd b,
        (index (snd (env_DQBUF env t fd b)) < length (buffers (globals d)))%nat) ->
    fst (detection_loop env fuel interval fc faces last d)
    <> Some terminated_by_exception.
Proof.
  induction fuel as [|fuel IH]; intros interval fc faces last d Hidx;
    [discriminate|].
  simpl.
  unfold bind, sample, get_globals, ioctl_DQBUF, ioctl_QBUF, detector_run,
    esp_timer_get_time, effect, call, pure.
  simpl.
  destruct (env_should_stop env (clock d)); [discriminate|]. simpl.
  destruct (env_DQBUF env (S (clock d)) _ _) as [[rc errno] buf] eqn:Hdq.
  pose proof (Hidx (S (clock d)) (camera_fd (globals d)) (capture_buffer 0)) as Hi.
  rewrite Hdq in Hi. simpl in Hi |- *.
  destruct (rc <? 0).
  { destruct (errno =? EINTR); [apply IH; exact Hidx|].
    simpl. destruct (env_should_stop env _); discriminate. }
  destruct (lookup_lt_is_Some_2 (buffers (globals d)) (index buf) Hi) as [b Hb].
  rewrite Hb. simpl.
  repeat match goal with
         | |- context [if ?c then _ else _] => destruct c; simpl
         end;
    try discriminate; apply IH; exact Hidx.
Qed.

Lemma detection_loop_never_throws_on_valid_indices_witness :
  let env := environment_of streaming in
  let d := snd (init_v4l2_buffers sdk env (detecting streaming)) in
  fst (detection_loop env 30 0 0 0 0 d) <> Some terminated_by_exception.
Proof.
  apply (detection_loop_never_throws_on_valid_indices (environment_of streaming) 30
           0 0 0 0
           (snd (init_v4l2_buffers sdk (environment_of streaming)
                   (detecting streaming)))).
  intros t fd b. vm_compute. lia.
Defined.

End FaceDetectFacts.
(** * Properties of [main/camera_init.c] *)

Module CameraInitProofs.
Import CameraInit CameraInitSpec.

Lemma select_format_selected k formats s :
  select_format k formats (Some s)
  = match List.find (fun f => is_raw10 k f && wanted k f) formats with
    | Some f => Some f
    | None => Some s
    end.
Proof.
  induction formats as [|f formats IH]; [reflexivity|].
  simpl. unfold is_raw10.
  destruct (format f =? ESP_CAM_SENSOR_PIXFORMAT_RAW10 k); simpl; [|exact IH].
  destruct (wanted k f); [reflexivity | exact IH].
Qed.

(** X26: the format selection of [camera_init].  The format chosen is the
    first RAW10 format of the configured width and height if there is one,
    else the first RAW10 format; it is always one of the formats the sensor
    listed and always RAW10; none is chosen exactly when the sensor lists
    no RAW10 format. *)
Theorem select_format_prefers_the_configured_size k formats :
  let chosen := select_format k formats None in
  chosen
  = match List.find (fun f => is_raw10 k f && wanted k f) formats with
    | Some f => Some f
    | None => List.find (is_raw10 k) formats
    end /\
  (forall f, chosen = Some f -> In f formats /\ is_raw10 k f = true) /\
  (chosen = None <-> Forall (fun f => is_raw10 k f = false) formats).
Proof.
  assert (Heq : select_format k formats None
                = match List.find (fun f => is_raw10 k f && wanted k f) formats with
                  | Some f => Some f
                  | None => List.find (is_raw10 k) formats
                  end).
  { induction formats as [|f formats IH]; [reflexivity|].
    simpl. unfold is_raw10 in *.
    destruct (format f =? ESP_CAM_SENSOR_PIXFORMAT_RAW10 k); simpl; [|exact IH].
    destruct (wanted k f); [reflexivity|].
    rewrite select_format_selected. unfold is_raw10.
    destruct (List.find _ formats); reflexivity. }
  simpl. split; [exact Heq|]. rewrite Heq. split.
  - intros f Hf.
    destruct (List.find (fun f => is_raw10 k f && wanted k f) formats) as [g|] eqn:Hg.
    + injection Hf as ->. apply List.find_some in Hg as [Hin Hb].
      apply andb_true_iff in Hb as [Hb _]. auto.
    + apply List.find_some in Hf. exact Hf.
  - destruct (List.find (fun f => is_raw10 k f && wanted k f) formats) as [g|] eqn:Hg.
    + split; [discriminate|]. intros Hall.
      apply List.find_some in Hg as [Hin Hb].
      apply andb_true_iff in Hb as [Hb _].
      rewrite List.Forall_forall in Hall. rewrite (Hall g Hin) in Hb. discriminate.
    + split.
      * intros Hnone. apply List.Forall_forall. intros f Hin.
        apply (List.find_none _ _ Hnone f Hin).
      * intros Hall. destruct (List.find (is_raw10 k) formats) as [g'|] eqn:Hg';
          [|reflexivity].
        apply List.find_some in Hg' as [Hin Hb].
        rewrite List.Forall_forall in Hall. rewrite (Hall g' Hin) in Hb. discriminate.
Qed.

Lemma nonzero_true x : nonzero x = true <-> x <> NULL.
Proof. unfold nonzero, NULL. rewrite negb_true_iff, Z.eqb_neq. tauto. Qed.

Lemma nonzero_false x : nonzero x = false <-> x = NULL.
Proof. unfold nonzero, NULL. rewrite negb_false_iff, Z.eqb_eq. tauto. Qed.

Lemma nonzero_NULL : nonzero NULL = false.
Proof. reflexivity. Qed.

(** What the [fail] label leaves and does. *)
Lemma fail_spec sccb bus st :
  let st' := fst (fail sccb bus st) in
  s_cam_dev st' = NULL /\
  s_video_fd st' = s_video_fd st /\
  s_video_initialized st' = s_video_initialized st /\
  s_sccb_handle st' = (if nonzero sccb then NULL else s_sccb_handle st) /\
  s_i2c_bus st' = (if nonzero bus then NULL else s_i2c_bus st) /\
  snd (fail sccb bus st)
  = (if nonzero (s_cam_dev st) then [C_esp_cam_sensor_del_dev (s_cam_dev st)] else [])
      ++ (if nonzero sccb then [C_esp_sccb_del_i2c_io sccb] else [])
      ++ (if nonzero bus then [C_i2c_del_master_bus bus] else []).
Proof.
  unfold fail.
  destruct (nonzero (s_cam_dev st)) eqn:Hd, (nonzero sccb), (nonzero bus); simpl;
    repeat split; try reflexivity; apply nonzero_false in Hd; exact Hd.
Qed.

Ltac tests_as_propositions :=
  repeat match goal with
         | H : nonzero _ = true |- _ => apply nonzero_true in H
         | H : nonzero _ = false |- _ => apply nonzero_false in H
         | H : (_ <? _) = true |- _ => apply Z.ltb_lt in H
         | H : (_ <? _) = false |- _ => apply Z.ltb_ge in H
         | H : (_ <=? _) = true |- _ => apply Z.leb_le in H
         | H : (_ <=? _) = false |- _ => apply Z.leb_gt in H
         | H : (_ =? _) = true |- _ => apply Z.eqb_eq in H
         | H : (_ =? _) = false |- _ => apply Z.eqb_neq in H
         | H : negb _ = true |- _ => apply negb_true_iff in H
         | H : negb _ = false |- _ => apply negb_false_iff in H
         end.

(** Case analysis on a run of [camera_init]: one case for each way
    through the function, the [fail] label summarised by [fail_spec]. *)
Ltac fields :=
  cbn [negb fst snd s_cam_dev s_video_fd s_i2c_bus s_sccb_handle
       s_video_initialized set_cam_dev set_video_fd set_i2c_bus set_sccb_handle
       set_video_initialized] in *.

Ltac camera_init_cases world :=
  unfold camera_init;
  destruct (a_i2c_new_master_bus world) as [rc_bus bus] eqn:Hbus;
  destruct (a_sccb_new_i2c_io world) as [rc_sccb sccb] eqn:Hsccb;
  destruct (a_query_format world) as [rc_query formats] eqn:Hquery;
  fields;
  repeat match goal with
         | |- context [fail ?h ?b ?s] =>
             let Hf := fresh "Hfail" in
             pose proof (fail_spec h b s) as Hf;
             destruct (fail h b s) as [? ?]; fields
         | |- context [if negb ?c then _ else _] => destruct c eqn:?; fields
         | |- context [if ?c then _ else _] => destruct c eqn:?; fields
         | |- context [match ?o with Some _ => _ | None => _ end] =>
             destruct o eqn:?; fields
         end.

Lemma initial_statics_consistent : consistent initial_statics.
Proof. unfold consistent, NULL. simpl. split; [split; [tauto | lia] | auto]. Qed.

Lemma handles_valid_present : handles_valid sensor_present.
Proof. split; intros _; discriminate. Qed.

Lemma handles_valid_missing : handles_valid video_device_missing.
Proof. split; intros _; discriminate. Qed.

(** X27: [camera_init] keeps the file-scope variables consistent (a
    sensor handle exactly when the video device is open, and then both
    buses and the video driver).  The handle returned is the one stored;
    it is not [NULL] exactly when [camera_get_fd] is not negative
    afterwards; and a second call returns the stored handle without doing
    anything. *)
Theorem camera_init_keeps_the_variables_consistent k world config st :
  let run := camera_init k world config st in
  let dev := fst (fst run) in
  let st' := snd (fst run) in
  consistent st ->
  consistent st' /\ dev = s_cam_dev st' /\
  (dev <> NULL <-> 0 <= camera_get_fd st') /\
  (s_cam_dev st <> NULL -> run = (s_cam_dev st, st, [])).
Proof.
  intros run dev st' [Hfd Hbuses]. subst run dev st'.
  unfold consistent, camera_get_fd.
  camera_init_cases world.
  all: tests_as_propositions.
  all: simpl in *.
  all: repeat match goal with
              | H : _ /\ _ |- _ => destruct H
              end.
  all: rewrite ?nonzero_NULL in *.
  all: repeat match goal with
              | H : context [if nonzero ?x then _ else _] |- _ =>
                  destruct (nonzero x) eqn:?
              end.
  all: tests_as_propositions.
  all: unfold NULL in *; subst; simpl in *.
  all: repeat split; try tauto; try lia; try congruence; intros;
    try (exfalso; tauto); try (exfalso; lia).
Qed.

Lemma camera_init_keeps_the_variables_consistent_witness :
  let run := camera_init camera_constants sensor_present board initial_statics in
  let dev := fst (fst run) in
  let st' := snd (fst run) in
  consistent st' /\ dev = s_cam_dev st' /\
  (dev <> NULL <-> 0 <= camera_get_fd st') /\
  (s_cam_dev initial_statics <> NULL ->
   run = (s_cam_dev initial_statics, initial_statics, [])).
Proof.
  apply (camera_init_keeps_the_variables_consistent camera_constants sensor_present
           board initial_statics).
  exact initial_statics_consistent.
Defined.

(** X28: what a failed [camera_init] undoes.  Every I2C bus it created is
    deleted and every sensor it detected is deleted; every SCCB handle it
    created is deleted as well, except when the sensor is not detected:
    that path deletes the bus only and returns, so one SCCB handle is left
    behind. *)
Theorem camera_init_failure_cleanup k world config st :
  let run := camera_init k world config st in
  let acts := snd run in
  let undetected :=
    (fst (a_i2c_new_master_bus world) =? ESP_OK)
    && (fst (a_sccb_new_i2c_io world) =? ESP_OK)
    && negb (nonzero (a_ov5647_detect world)) in
  handles_valid world ->
  s_cam_dev st = NULL ->
  fst (fst run) = NULL ->
  count_actions bus_created acts = count_actions bus_deleted acts /\
  count_actions sensor_detected acts = count_actions sensor_deleted acts /\
  count_actions sccb_created acts
  = (count_actions sccb_deleted acts + if undetected then 1 else 0)%nat.
Proof.
  intros run acts undetected [Hvb Hvs] Hnull. subst run acts undetected.
  camera_init_cases world.
  all: simpl in Hvb, Hvs.
  all: intros Hret; simpl in Hret.
  all: repeat match goal with
              | H : _ /\ _ |- _ => destruct H
              end.
  all: subst; rewrite ?nonzero_NULL in *.
  all: repeat match goal with
              | |- context [if nonzero ?x then _ else _] =>
                  destruct (nonzero x) eqn:?
              end.
  all: unfold count_actions; simpl.
  all: repeat match goal with
              | H : (_ =? _) = _ |- _ => rewrite H in *
              | H : nonzero _ = _ |- _ => rewrite H in *
              end.
  all: simpl.
  all: try (repeat split; reflexivity).
  all: tests_as_propositions; try congruence.
  all: simpl in *; try discriminate; try congruence.
  all: tauto.
Qed.

Lemma camera_init_failure_cleanup_witness :
  let acts :=
    snd (camera_init camera_constants video_device_missing board initial_statics) in
  count_actions bus_created acts = count_actions bus_deleted acts /\
  count_actions sensor_detected acts = count_actions sensor_deleted acts /\
  count_actions sccb_created acts = (count_actions sccb_deleted acts + 0)%nat.
Proof.
  apply (camera_init_failure_cleanup camera_constants video_device_missing board
           initial_statics).
  - exact handles_valid_missing.
  - reflexivity.
  - reflexivity.
Defined.

Lemma camera_deinit_spec st :
  let st' := fst (camera_deinit st) in
  s_cam_dev st' = NULL /\ s_i2c_bus st' = NULL /\ s_sccb_handle st' = NULL /\
  s_video_initialized st' = false /\
  s_video_fd st' = (if 0 <=? s_video_fd st then -1 else s_video_fd st) /\
  snd (camera_deinit st)
  = (if 0 <=? s_video_fd st then [C_close (s_video_fd st)] else [])
      ++ (if nonzero (s_cam_dev st)
          then [C_esp_cam_sensor_del_dev (s_cam_dev st)] else [])
      ++ (if nonzero (s_sccb_handle st)
          then [C_esp_sccb_del_i2c_io (s_sccb_handle st)] else [])
      ++ (if nonzero (s_i2c_bus st) then [C_i2c_del_master_bus (s_i2c_bus st)] else [])
      ++ (if s_video_initialized st then [C_esp_video_deinit] else []).
Proof.
  unfold camera_deinit.
  destruct (0 <=? s_video_fd st), (nonzero (s_cam_dev st)) eqn:Hd,
    (nonzero (s_sccb_handle st)) eqn:Hs, (nonzero (s_i2c_bus st)) eqn:Hb,
    (s_video_initialized st) eqn:Hv; fields; rewrite ?Hd, ?Hs, ?Hb, ?Hv; fields;
    rewrite ?Hs, ?Hb, ?Hv; fields; rewrite ?Hb, ?Hv; fields; rewrite ?Hv; fields;
    tests_as_propositions; repeat split; assumption || reflexivity.
Qed.

Lemma camera_init_success_state k world config st :
  let run := camera_init k world config st in
  let st1 := snd (fst run) in
  handles_valid world ->
  s_cam_dev st = NULL ->
  fst (fst run) <> NULL ->
  s_cam_dev st1 = fst (fst run) /\ 0 <= s_video_fd st1 /\
  s_sccb_handle st1 <> NULL /\ s_i2c_bus st1 <> NULL /\
  s_video_initialized st1 = true.
Proof.
  intros run st1 [Hvb Hvs] Hnull. subst run st1.
  camera_init_cases world.
  all: simpl in Hvb, Hvs.
  all: intros Hdev; try (exfalso; apply Hdev; reflexivity).
  all: tests_as_propositions; try contradiction.
  all: repeat split; auto.
Qed.

Lemma statics_eq (a b : statics) :
  s_cam_dev a = s_cam_dev b -> s_video_fd a = s_video_fd b ->
  s_i2c_bus a = s_i2c_bus b -> s_sccb_handle a = s_sccb_handle b ->
  s_video_initialized a = s_video_initialized b -> a = b.
Proof. destruct a, b. simpl. intros. by subst. Qed.

(** X29: [camera_deinit] undoes a successful [camera_init]: the variables
    are back at their initial values, the descriptor is closed and the
    sensor, the SCCB handle, the bus and the video driver are released, in
    the reverse order of their creation; a second [camera_deinit] does
    nothing. *)
Theorem camera_deinit_undoes_camera_init k world config st :
  let run := camera_init k world config st in
  let dev := fst (fst run) in
  let st1 := snd (fst run) in
  let stop := camera_deinit st1 in
  handles_valid world ->
  s_cam_dev st = NULL ->
  dev <> NULL ->
  fst stop = initial_statics /\
  snd stop = [C_close (camera_get_fd st1); C_esp_cam_sensor_del_dev dev;
              C_esp_sccb_del_i2c_io (s_sccb_handle st1);
              C_i2c_del_master_bus (s_i2c_bus st1); C_esp_video_deinit] /\
  camera_deinit (fst stop) = (fst stop, []).
Proof.
  intros run dev st1 stop Hvalid Hnull Hdev. subst run dev st1 stop.
  destruct (camera_init_success_state k world config st Hvalid Hnull Hdev)
    as (Hd & Hfd & Hs & Hb & Hv).
  destruct (camera_deinit_spec (snd (fst (camera_init k world config st))))
    as (Hd' & Hb' & Hs' & Hv' & Hfd' & Hacts).
  simpl in *.
  rewrite (proj2 (Z.leb_le 0 _) Hfd) in Hfd', Hacts.
  rewrite Hd in Hacts.
  rewrite (proj2 (nonzero_true _) Hdev), (proj2 (nonzero_true _) Hs),
    (proj2 (nonzero_true _) Hb), Hv in Hacts.
  assert (Hinit : fst (camera_deinit (snd (fst (camera_init k world config st))))
                  = initial_statics)
    by (apply statics_eq; assumption).
  split; [exact Hinit|]. split; [exact Hacts|].
  rewrite Hinit. reflexivity.
Qed.

Lemma camera_deinit_undoes_camera_init_witness :
  let st1 :=
    snd (fst (camera_init camera_constants sensor_present board initial_statics)) in
  let stop := camera_deinit st1 in
  fst stop = initial_statics /\
  snd stop = [C_close 3; C_esp_cam_sensor_del_dev 0x300;
              C_esp_sccb_del_i2c_io 0x200; C_i2c_del_master_bus 0x100;
              C_esp_video_deinit] /\
  camera_deinit (fst stop) = (fst stop, []).
Proof.
  apply (camera_deinit_undoes_camera_init camera_constants sensor_present board
           initial_statics).
  - exact handles_valid_present.
  - reflexivity.
  - discriminate.
Defined.

End CameraInitProofs.
(** * Properties of the Wi-Fi event handler of [main/app_main.c] *)

Module AppMainProofs.
Import AppMain AppMainSpec.

Lemma count_calls_app f l1 l2 :
  count_calls f (l1 ++ l2) = count_calls f l1 + count_calls f l2.
Proof. unfold count_calls. rewrite List.filter_app, length_app. lia. Qed.

(** X30: the reconnections of the Wi-Fi event handler are bounded.  The
    retry counter stays between 0 and [CONFIG_ESP_MAXIMUM_RETRY]; as long
    as no address is obtained it never decreases, [esp_wifi_connect] is
    called once for every start of the station and once for every
    increment of the counter, and [WIFI_FAIL_BIT] is only set when the
    counter has reached the maximum. *)
Theorem wifi_reconnects_are_bounded k events :
  forall r0,
    let r := fst (deliver k events r0) in
    let calls := snd (deliver k events r0) in
    0 <= r0 <= CONFIG_ESP_MAXIMUM_RETRY k ->
    0 <= r <= CONFIG_ESP_MAXIMUM_RETRY k /\
    (Forall (fun e => got_ip k e = false) events ->
     r0 <= r /\
     count_calls is_connect calls
     = Z.of_nat (length (List.filter (station_started k) events)) + (r - r0) /\
     (0 < count_calls gives_up calls -> r = CONFIG_ESP_MAXIMUM_RETRY k)).
Proof.
  induction events as [|[b id] events IH]; intros r0 r calls Hr0; subst r calls.
  - simpl. split; [exact Hr0|]. intros _. unfold count_calls. simpl.
    repeat split; lia.
  - simpl. unfold event_handler, station_started, got_ip. simpl.
    destruct (is_base b WIFI_EVENT && (id =? WIFI_EVENT_STA_START k)) eqn:Hstart;
      [|destruct (is_base b WIFI_EVENT && (id =? WIFI_EVENT_STA_DISCONNECTED k));
        [destruct (Z.ltb_spec r0 (CONFIG_ESP_MAXIMUM_RETRY k))|
         destruct (is_base b IP_EVENT && (id =? IP_EVENT_STA_GOT_IP k)) eqn:Hip]].
    all: match goal with
         | |- context [deliver ?c ?rest ?r1] =>
             specialize (IH r1); destruct (deliver c rest r1) as [r' a']
         end; simpl in *.
    all: destruct IH as [Hr Hrest]; [lia|]; split; [exact Hr|].
    all: intros Hno; inversion Hno as [|? ? Hhead Htail]; subst.
    all: simpl in Hhead; rewrite ?Hip in Hhead; try discriminate.
    all: destruct (Hrest Htail) as (Hle & Hcount & Hfail).
    all: rewrite ?count_calls_app; unfold count_calls, station_started in *; simpl.
    all: repeat split; try lia.
    all: intros; try lia.
Qed.

Lemma wifi_reconnects_are_bounded_witness :
  let r := fst (deliver wifi_constants access_point_away 0) in
  let calls := snd (deliver wifi_constants access_point_away 0) in
  0 <= r <= 5 /\
  (Forall (fun e => got_ip wifi_constants e = false) access_point_away ->
   0 <= r /\
   count_calls is_connect calls
   = Z.of_nat (length (List.filter (station_started wifi_constants) access_point_away))
     + (r - 0) /\
   (0 < count_calls gives_up calls -> r = 5)).
Proof.
  apply (wifi_reconnects_are_bounded wifi_constants access_point_away 0).
  simpl. lia.
Defined.

End AppMainProofs.
